(** * Seeded randomness derivation and game resolvers

    A shallow embedding of the derivation function [deriveGameRandom]
    (lib/crypto/seed) and of the rock-paper-scissors, high-card and
    coin-flip engines that consume it, followed by the properties of the
    specification that were checked against them.  The page that holds
    the sessions, the counters of the engines, the wheel, the audit
    panel, the dashboard and the card engines (poker, blackjack, deck
    shuffle) are embedded after them, with properties of their own.

    Conventions of the embedding.
    - A JavaScript string is the list of its UTF-16 code units ([jsstring]).
    - Integer-valued numbers are in [Z]; the 32-bit wrap-around of [<<] and
      [| 0] is written out ([toInt32]).
    - The value returned by the derivation, [Math.abs(hash) / 2147483647]
      clamped between the literals [0.000001] and [0.999999], is kept as the
      exact rational ([Q]); [Math.floor] is [Qfloor].  The binary rounding of
      the quotient is not part of the model.
    - [Date.now()] is a parameter [now] of every function that reads the
      clock.
    - [throw] / [try ... catch] are an error monad ([result]). *)

From Stdlib Require Import ZArith QArith Qround Qminmax Lia List Bool.
From Stdlib Require Import String Ascii DecimalString HexadecimalString.
From Stdlib Require Import Permutation.
Import ListNotations.

Local Open Scope Z_scope.

(** ** JavaScript values and primitives *)

Module Js.

(** Strings: sequences of UTF-16 code units, each in [0, 65535]. *)
Definition jsstring := list Z.

(** An ASCII literal as a JavaScript string. *)
Definition lit (s : string) : jsstring :=
  map (fun a => Z.of_N (N_of_ascii a)) (list_ascii_of_string s).

(** Numbers that reach the derivation: integer-valued numbers (game
    indices, counters), [NaN] and the two infinities. *)
Inductive number :=
| Num (z : Z)
| NaN
| Infinity (negative : bool).

Inductive value :=
| VUndefined
| VNull
| VBoolean (b : bool)
| VNumber (n : number)
| VString (s : jsstring).

Inductive typeTag := TUndefined | TObject | TBoolean | TNumber | TString.

(** [typeof v] *)
Definition typeof (v : value) : typeTag :=
  match v with
  | VUndefined => TUndefined
  | VNull => TObject
  | VBoolean _ => TBoolean
  | VNumber _ => TNumber
  | VString _ => TString
  end.

Definition typeTag_eqb (a b : typeTag) : bool :=
  match a, b with
  | TUndefined, TUndefined | TObject, TObject | TBoolean, TBoolean
  | TNumber, TNumber | TString, TString => true
  | _, _ => false
  end.

(** ToBoolean: what [!v] negates. *)
Definition truthy (v : value) : bool :=
  match v with
  | VUndefined | VNull => false
  | VBoolean b => b
  | VNumber (Num z) => negb (z =? 0)
  | VNumber NaN => false
  | VNumber (Infinity _) => true
  | VString s => match s with [] => false | _ :: _ => true end
  end.

(** [isNaN(v)] on a value already known to be a number. *)
Definition isNaN (v : value) : bool :=
  match v with
  | VNumber NaN => true
  | _ => false
  end.

(** The string a value holds when [typeof] says it is one. *)
Definition asString (v : value) : jsstring :=
  match v with
  | VString s => s
  | _ => []
  end.

(** The number a value holds when [typeof] says it is one. *)
Definition asNumber (v : value) : number :=
  match v with
  | VNumber n => n
  | _ => NaN
  end.

(** Number-to-string conversion of a template literal (decimal digits for
    an integer of magnitude below 10^21). *)
Definition numberToString (n : number) : jsstring :=
  match n with
  | Num z => lit (DecimalString.NilZero.string_of_int (Z.to_int z))
  | NaN => lit "NaN"
  | Infinity false => lit "Infinity"
  | Infinity true => lit "-Infinity"
  end.

(** [z.toString(16)] for an integer [z]. *)
Definition toStringRadix16 (z : Z) : jsstring :=
  lit (HexadecimalString.NilZero.string_of_int (Z.to_hex_int z)).

(** ToInt32: reduction modulo 2^32 into [-2^31, 2^31). *)
Definition toInt32 (z : Z) : Z :=
  (z + 2147483648) mod 4294967296 - 2147483648.

(** [a << n] on an integer-valued number. *)
Definition shl32 (a n : Z) : Z :=
  toInt32 (Z.shiftl (toInt32 a) (n mod 32)).

(** [a ^ b] on integer-valued numbers. *)
Definition xor32 (a b : Z) : Z :=
  toInt32 (Z.lxor (toInt32 a) (toInt32 b)).

(** [a % b] on integers: the sign follows the dividend. *)
Definition jsRem (a b : Z) : Z := Z.rem a b.

(** Storing a number into a [Uint8Array] cell. *)
Definition toUint8 (z : Z) : Z := z mod 256.

(** [xs[i]]: [None] is [undefined]. *)
Definition arrayGet {A : Type} (xs : list A) (i : Z) : option A :=
  if i <? 0 then None else nth_error xs (Z.to_nat i).

(** Line terminators: the code units the regular-expression dot rejects. *)
Definition isLineTerminator (c : Z) : bool :=
  (c =? 10) || (c =? 13) || (c =? 8232) || (c =? 8233).

(** White space and line terminators, skipped by [parseInt]. *)
Definition isStrWhiteSpace (c : Z) : bool :=
  (c =? 9) || (c =? 11) || (c =? 12) || (c =? 32) || (c =? 160)
  || (c =? 5760) || ((8192 <=? c) && (c <=? 8202)) || (c =? 8239)
  || (c =? 8287) || (c =? 12288) || (c =? 65279) || isLineTerminator c.

Definition hexDigit (c : Z) : option Z :=
  if (48 <=? c) && (c <=? 57) then Some (c - 48)
  else if (97 <=? c) && (c <=? 102) then Some (c - 87)
  else if (65 <=? c) && (c <=? 70) then Some (c - 55)
  else None.

Fixpoint trimStart (s : jsstring) : jsstring :=
  match s with
  | c :: rest => if isStrWhiteSpace c then trimStart rest else s
  | [] => []
  end.

(** The longest prefix of hexadecimal digits, as digit values. *)
Fixpoint hexPrefix (s : jsstring) : list Z :=
  match s with
  | c :: rest =>
      match hexDigit c with
      | Some d => d :: hexPrefix rest
      | None => []
      end
  | [] => []
  end.

Definition stripSign (s : jsstring) : Z * jsstring :=
  match s with
  | 45 :: rest => (-1, rest)
  | 43 :: rest => (1, rest)
  | _ => (1, s)
  end.

Definition strip0x (s : jsstring) : jsstring :=
  match s with
  | 48 :: 120 :: rest => rest
  | 48 :: 88 :: rest => rest
  | _ => s
  end.

(** [Number.parseInt(s, 16)]; [None] is [NaN]. *)
Definition parseInt16 (s : jsstring) : option Z :=
  let '(sign, body) := stripSign (trimStart s) in
  match hexPrefix (strip0x body) with
  | [] => None
  | ds => Some (sign * fold_left (fun acc d => acc * 16 + d) ds 0)
  end.

(** [s.match(/.{1,2}/g)]: successive greedy matches of one or two code
    units that are not line terminators; the empty list is [null]. *)
Fixpoint matchPairs (s : jsstring) : list jsstring :=
  match s with
  | [] => []
  | c :: rest =>
      if isLineTerminator c then matchPairs rest
      else match rest with
           | [] => [[c]]
           | d :: rest' =>
               if isLineTerminator d then [c] :: matchPairs rest
               else [c; d] :: matchPairs rest'
           end
  end.

Definition isHighSurrogate (c : Z) : bool := (55296 <=? c) && (c <=? 56319).
Definition isLowSurrogate (c : Z) : bool := (56320 <=? c) && (c <=? 57343).

Definition utf8Of (cp : Z) : list Z :=
  if cp <? 128 then [cp]
  else if cp <? 2048 then
    [Z.lor 192 (Z.shiftr cp 6); Z.lor 128 (Z.land cp 63)]
  else if cp <? 65536 then
    [Z.lor 224 (Z.shiftr cp 12); Z.lor 128 (Z.land (Z.shiftr cp 6) 63);
     Z.lor 128 (Z.land cp 63)]
  else
    [Z.lor 240 (Z.shiftr cp 18); Z.lor 128 (Z.land (Z.shiftr cp 12) 63);
     Z.lor 128 (Z.land (Z.shiftr cp 6) 63); Z.lor 128 (Z.land cp 63)].

(** [new TextEncoder().encode(s)]: UTF-8, a surrogate pair giving one code
    point and a lone surrogate the replacement character U+FFFD. *)
Fixpoint utf8Encode (s : jsstring) : list Z :=
  match s with
  | [] => []
  | c :: rest =>
      if isHighSurrogate c then
        match rest with
        | d :: rest' =>
            if isLowSurrogate d
            then utf8Of (65536 + (c - 55296) * 1024 + (d - 56320))
                   ++ utf8Encode rest'
            else utf8Of 65533 ++ utf8Encode rest
        | [] => utf8Of 65533
        end
      else if isLowSurrogate c then utf8Of 65533 ++ utf8Encode rest
      else utf8Of c ++ utf8Encode rest
  end.

End Js.

(** ** The derivation function (lib/crypto/seed) *)

Module Seed.
Import Js.

(** Exceptions: a computation either throws or returns. *)
Inductive exn := Error (message : string).

Definition result (A : Type) : Type := (exn + A)%type.

Definition ret {A : Type} (a : A) : result A := inr a.
Definition throw {A : Type} (e : exn) : result A := inl e.

Definition bind {A B : Type} (m : result A) (k : A -> result B) : result B :=
  match m with
  | inl e => inl e
  | inr a => k a
  end.

(** [try { body } catch (error) { handler }] *)
Definition tryCatch {A : Type} (body : result A) (handler : exn -> result A)
  : result A :=
  match body with
  | inl e => handler e
  | inr a => inr a
  end.

Notation "x <- m ;; k" := (bind m (fun x => k))
  (at level 61, m at next level, right associativity).

(** The callback of [hexMatches.map], its result stored in a
    [Uint8Array]. *)
Definition hexByte (byte : jsstring) : Z :=
  let parsed := parseInt16 byte in
  toUint8 (match parsed with None => 0 | Some p => p end).

(** The body of the inner [try]: cut the seed in pieces of one or two
    characters and read each as a hexadecimal byte. *)
Definition decodeHex (seedHex : jsstring) : result (list Z) :=
  match matchPairs seedHex with
  | [] => throw (Error "Invalid hex format")
  | hexMatches => ret (map hexByte hexMatches)
  end.

(** The inner [try ... catch]: the seed bytes. *)
Definition seedBytesOf (seedHex : jsstring) : result (list Z) :=
  tryCatch (decodeHex seedHex)
           (fun _ => ret (firstn 32 (utf8Encode seedHex))).

(** One turn of the mixing loop at index [i]. *)
Definition mixStep (seedBytes contextBytes : list Z) (hash i : Z) : Z :=
  let contextByte :=
    match arrayGet contextBytes (jsRem i (Z.of_nat (List.length contextBytes))) with
    | Some b => b
    | None => 0
    end in
  let seedByte :=
    match arrayGet seedBytes i with
    | Some b => b
    | None => 0
    end in
  toInt32 (shl32 hash 5 - hash + xor32 seedByte contextByte).

(** [for (let i = 0; i < Math.min(seedBytes.length, 32); i++)] *)
Definition mix (seedBytes contextBytes : list Z) : Z :=
  let bound := Z.min (Z.of_nat (List.length seedBytes)) 32 in
  fold_left (mixStep seedBytes contextBytes)
            (map Z.of_nat (seq 0 (Z.to_nat bound))) 0.

(** [Math.min(0.999999, Math.max(0.000001, normalized))] *)
Definition clamp (normalized : Q) : Q :=
  Qmin (999999 # 1000000) (Qmax (1 # 1000000) normalized).

Definition normalize (hash : Z) : Q := Z.abs hash # 2147483647.

(** The three input guards at the head of the [try] block.  None of them
    can throw; they leave a string seed, a string context and a number. *)
Definition validate (now : Z) (seedHex context step : value)
  : jsstring * jsstring * number :=
  let seedHex :=
    if negb (truthy seedHex) || negb (typeTag_eqb (typeof seedHex) TString)
    then VString (lit "fallback-seed-" ++ toStringRadix16 now)
    else seedHex in
  let context :=
    if negb (truthy context) || negb (typeTag_eqb (typeof context) TString)
    then VString (lit "default-context")
    else context in
  let step :=
    if negb (typeTag_eqb (typeof step) TNumber) || isNaN step
    then VNumber (Num 0)
    else step in
  (asString seedHex, asString context, asNumber step).

(** The rest of the [try] block, on the validated inputs. *)
Definition deriveTry (seedHex context : jsstring) (step : number) : result Q :=
  seedBytes <- seedBytesOf seedHex ;;
  let contextBytes := utf8Encode (context ++ lit "-" ++ numberToString step) in
  let hash := mix seedBytes contextBytes in
  let normalized := normalize hash in
  ret (clamp normalized).

(** The outer [catch] block: a hash of the characters of
    [seedHex + context + step]. *)
Definition fallbackSeed (seedHex context : jsstring) (step : number) : Z :=
  fold_left (fun acc char => toInt32 (shl32 acc 5 - acc + char))
            (seedHex ++ context ++ numberToString step) 0.

Definition fallbackValue (seedHex context : jsstring) (step : number) : Q :=
  Z.abs (jsRem (fallbackSeed seedHex context step) 1000000) # 1000000.

Definition deriveGameRandom (now : Z) (seedHex context step : value) : Q :=
  let '(seedHex, context, step) := validate now seedHex context step in
  match deriveTry seedHex context step with
  | inr v => v
  | inl _ => fallbackValue seedHex context step
  end.

(** The call as the engines make it: a string seed, a string context and
    an integer index. *)
Definition derive (now : Z) (seedHex context : jsstring) (index : Z) : Q :=
  deriveGameRandom now (VString seedHex) (VString context) (VNumber (Num index)).

End Seed.

(** ** The derivation function in a runtime without [TextEncoder]

    [deriveGameRandom] builds a [TextEncoder] on its normal path and in
    its inner handler.  Where the runtime has no such global,
    [new TextEncoder()] raises a ReferenceError, which the outer handler
    catches.  [hasTextEncoder] says whether the global is there. *)

Module Runtime.
Import Js Seed.

(** [new TextEncoder()] *)
Definition newTextEncoder (hasTextEncoder : bool) : result unit :=
  if hasTextEncoder then ret tt
  else throw (Error "TextEncoder is not defined").

(** The inner [try ... catch]: the handler builds an encoder first. *)
Definition seedBytesOf (hasTextEncoder : bool) (seedHex : jsstring)
  : result (list Z) :=
  match decodeHex seedHex with
  | inr seedBytes => ret seedBytes
  | inl _ =>
      _ <- newTextEncoder hasTextEncoder ;;
      ret (firstn 32 (utf8Encode seedHex))
  end.

(** The rest of the [try] block, on the validated inputs. *)
Definition deriveTry (hasTextEncoder : bool) (seedHex context : jsstring)
    (step : number) : result Q :=
  seedBytes <- seedBytesOf hasTextEncoder seedHex ;;
  _ <- newTextEncoder hasTextEncoder ;;
  let contextBytes := utf8Encode (context ++ lit "-" ++ numberToString step) in
  let hash := mix seedBytes contextBytes in
  let normalized := normalize hash in
  ret (clamp normalized).

Definition deriveGameRandom (hasTextEncoder : bool) (now : Z)
    (seedHex context step : value) : Q :=
  let '(seedHex, context, step) := validate now seedHex context step in
  match deriveTry hasTextEncoder seedHex context step with
  | inr v => v
  | inl _ => fallbackValue seedHex context step
  end.

End Runtime.

(** ** The batch loop shared by the engines

    Every engine keeps the number of resolved games in
    [processedRef.current] and owns a [processBatch] of the same shape: it
    resolves the next [min(batchSize, remaining)] game indices, advances the
    counter and hands the results on.  [resolve now start gameIndex] is the
    body of the engine's loop for one game, [start] being the value of the
    counter when the batch begins. *)

Module Scheduler.
Section Batch.

Variable Result : Type.
Variable resolve : Z -> Z -> Z -> Result.

(** [processBatch(batchSize)], called at time [now] with
    [processedRef.current = processed]: the new counter and [results]. *)
Definition processBatch (now count processed batchSize : Z) : Z * list Result :=
  let remaining := count - processed in
  let currentBatch := Z.min batchSize remaining in
  if currentBatch <=? 0 then (processed, [])
  else
    (processed + currentBatch,
     map (fun i => resolve now processed (processed + Z.of_nat i))
         (seq 0 (Z.to_nat currentBatch))).

(** The interval callback of [startProcessing], fired once per element of
    [ticks] (the clock reading of each firing): it stops when every game is
    resolved and otherwise processes one batch. *)
Fixpoint runTicks (ticks : list Z) (count batchSize processed : Z)
  : Z * list Result :=
  match ticks with
  | [] => (processed, [])
  | now :: later =>
      if count <=? processed then (processed, [])
      else
        let '(processed', results) := processBatch now count processed batchSize in
        let '(final, more) := runTicks later count batchSize processed' in
        (final, results ++ more)
  end.

End Batch.

Arguments processBatch {Result} resolve now count processed batchSize.
Arguments runTicks {Result} resolve ticks count batchSize processed.

End Scheduler.

(** The part of the [session] prop the engines read. *)
Record GameSession := {
  id : Js.jsstring;
  count : Z;
  completed : Z
}.

(** [v.toFixed(6)] *)
Definition toFixed6 (v : Q) : Js.jsstring :=
  let sign := if Qle_bool 0 v then [] else Js.lit "-" in
  let x := if Qle_bool 0 v then v else Qopp v in
  let n := Qfloor (x * (1000000 # 1) + (1 # 2))%Q in
  let frac := Js.numberToString (Js.Num (n mod 1000000)) in
  sign ++ Js.numberToString (Js.Num (n / 1000000)) ++ Js.lit "."
       ++ repeat 48 (6 - List.length frac) ++ frac.

(** [a === b] on strings. *)
Definition string_eqb (a b : Js.jsstring) : bool :=
  if list_eq_dec Z.eq_dec a b then true else false.

(** ** Rock-paper-scissors (components/games/engines/enhanced-rps) *)

Module RPS.
Import Js Seed.

Inductive Move := rock | paper | scissors.

Definition MOVES : list Move := [rock; paper; scissors].

(** The object [MOVE_BEATS], read as [MOVE_BEATS[move]]. *)
Definition MOVE_BEATS (move : option Move) : option Move :=
  match move with
  | Some rock => Some scissors
  | Some paper => Some rock
  | Some scissors => Some paper
  | None => None
  end.

Definition Move_eqb (a b : Move) : bool :=
  match a, b with
  | rock, rock | paper, paper | scissors, scissors => true
  | _, _ => false
  end.

(** [a === b] on moves, [None] being [undefined]. *)
Definition sameMove (a b : option Move) : bool :=
  match a, b with
  | Some x, Some y => Move_eqb x y
  | None, None => true
  | _, _ => false
  end.

Record Result := {
  gameIndex : Z;
  player1Move : option Move;
  player2Move : option Move;
  winner : jsstring;
  p1Seed : jsstring;
  p2Seed : jsstring
}.

Section Engine.

Variable session : GameSession.
Variables player1 player2 masterSeed : jsstring.

Definition determineWinner (move1 move2 : option Move) : jsstring :=
  if sameMove move1 move2 then lit "Tie"
  else if sameMove (MOVE_BEATS move1) move2 then player1
  else player2.

(** The body of the loop of [processBatch] for one game (the wall-clock
    [timestamp] field of the record is left out). *)
Definition resolve (now start gameIndex : Z) : Result :=
  let p1Seed := derive now masterSeed (lit "rps-p1-" ++ id session) gameIndex in
  let p2Seed := derive now masterSeed (lit "rps-p2-" ++ id session) gameIndex in
  let player1Move := arrayGet MOVES (Qfloor (p1Seed * (3 # 1))) in
  let player2Move := arrayGet MOVES (Qfloor (p2Seed * (3 # 1))) in
  let winner := determineWinner player1Move player2Move in
  {| gameIndex := gameIndex;
     player1Move := player1Move;
     player2Move := player2Move;
     winner := winner;
     p1Seed := toFixed6 p1Seed;
     p2Seed := toFixed6 p2Seed |}.

Definition processBatch (now processed batchSize : Z) : Z * list Result :=
  Scheduler.processBatch resolve now (count session) processed batchSize.

(** [startProcessing], the counter starting at [session.completed]. *)
Definition startProcessing (ticks : list Z) : Z * list Result :=
  let batchSize := 5 in
  Scheduler.runTicks resolve ticks (count session) batchSize
                     (completed session).

End Engine.
End RPS.

(** ** High card (components/games/engines/high-card-game) *)

Module HighCard.
Import Js Seed.

Inductive Suit := Spade | Heart | Diamond | Club.
Inductive Rank := R2 | R3 | R4 | R5 | R6 | R7 | R8 | R9 | R10 | RJ | RQ | RK | RA.

Definition SUITS : list Suit := [Spade; Heart; Diamond; Club].
Definition RANKS : list Rank :=
  [R2; R3; R4; R5; R6; R7; R8; R9; R10; RJ; RQ; RK; RA].

(** The object [RANK_VALUES], read as [RANK_VALUES[rank]]. *)
Definition RANK_VALUES (rank : option Rank) : option Z :=
  match rank with
  | Some R2 => Some 2 | Some R3 => Some 3 | Some R4 => Some 4
  | Some R5 => Some 5 | Some R6 => Some 6 | Some R7 => Some 7
  | Some R8 => Some 8 | Some R9 => Some 9 | Some R10 => Some 10
  | Some RJ => Some 11 | Some RQ => Some 12 | Some RK => Some 13
  | Some RA => Some 14
  | None => None
  end.

(** The object [suitOrder], read as [suitOrder[suit]]. *)
Definition suitOrder (suit : option Suit) : option Z :=
  match suit with
  | Some Spade => Some 4
  | Some Heart => Some 3
  | Some Diamond => Some 2
  | Some Club => Some 1
  | None => None
  end.

(** A field is [None] when the array lookup that fills it is [undefined]. *)
Record PlayingCard := {
  suit : option Suit;
  rank : option Rank;
  value : option Z
}.

(** [a > b] on numbers that may be [undefined]. *)
Definition gt (a b : option Z) : bool :=
  match a, b with
  | Some x, Some y => y <? x
  | _, _ => false
  end.

Definition drawCard (seed : Q) : PlayingCard :=
  let cardIndex := Qfloor (seed * (52 # 1)) in
  let suitIndex := cardIndex / 13 in
  let rankIndex := jsRem cardIndex 13 in
  {| suit := arrayGet SUITS suitIndex;
     rank := arrayGet RANKS rankIndex;
     value := RANK_VALUES (arrayGet RANKS rankIndex) |}.

(** Which branch of the comparison assigns [winner]. *)
Inductive Outcome := Player1Wins | Player2Wins | TieGame.

Definition compareCards (player1Card player2Card : PlayingCard) : Outcome :=
  if gt (value player1Card) (value player2Card) then Player1Wins
  else if gt (value player2Card) (value player1Card) then Player2Wins
  else if gt (suitOrder (suit player1Card)) (suitOrder (suit player2Card))
       then Player1Wins
  else if gt (suitOrder (suit player2Card)) (suitOrder (suit player1Card))
       then Player2Wins
  else TieGame.

Record Result := {
  gameIndex : Z;
  player1Card : PlayingCard;
  player2Card : PlayingCard;
  winner : jsstring;
  p1Seed : jsstring;
  p2Seed : jsstring
}.

Section Engine.

Variable session : GameSession.
Variables player1 player2 masterSeed : jsstring.

(** The label each branch stores in [winner]. *)
Definition label (o : Outcome) : jsstring :=
  match o with
  | Player1Wins => player1
  | Player2Wins => player2
  | TieGame => lit "Tie"
  end.

(** The body of the loop of [processBatch] for one game (the wall-clock
    [timestamp] field of the record is left out). *)
Definition resolve (now start gameIndex : Z) : Result :=
  let p1Seed := derive now masterSeed (lit "card-p1-" ++ id session) gameIndex in
  let p2Seed := derive now masterSeed (lit "card-p2-" ++ id session) gameIndex in
  let player1Card := drawCard p1Seed in
  let player2Card := drawCard p2Seed in
  let winner := label (compareCards player1Card player2Card) in
  {| gameIndex := gameIndex;
     player1Card := player1Card;
     player2Card := player2Card;
     winner := winner;
     p1Seed := toFixed6 p1Seed;
     p2Seed := toFixed6 p2Seed |}.

Definition processBatch (now processed batchSize : Z) : Z * list Result :=
  Scheduler.processBatch resolve now (count session) processed batchSize.

(** [startProcessing], the counter starting at [session.completed]. *)
Definition startProcessing (ticks : list Z) : Z * list Result :=
  let batchSize := 3 in
  Scheduler.runTicks resolve ticks (count session) batchSize
                     (completed session).

End Engine.
End HighCard.

(** ** Coin flip (components/games/engines/grid-coin-flip) *)

Module CoinFlip.
Import Js Seed.

Inductive Face := heads | tails.

Record Result := {
  gameIndex : Z;
  result : Face;
  winner : jsstring;
  seed : jsstring
}.

(** [v < 0.5] *)
Definition belowHalf (v : Q) : bool := negb (Qle_bool (1 # 2) v).

Section Engine.

Variable session : GameSession.
Variables player1 player2 masterSeed : jsstring.

(** The side assignment made at the head of [processBatch], from the
    counter at which the batch starts. *)
Definition headsPlayer (now start : Z) : jsstring :=
  let assignmentSeed :=
    derive now masterSeed (lit "assignment-" ++ id session) start in
  if belowHalf assignmentSeed then player1 else player2.

Definition tailsPlayer (now start : Z) : jsstring :=
  if string_eqb (headsPlayer now start) player1 then player2 else player1.

(** The body of the loop of [processBatch] for one game (the wall-clock
    [timestamp] field of the record is left out). *)
Definition resolve (now start gameIndex : Z) : Result :=
  let flipSeed := derive now masterSeed (lit "flip-" ++ id session) gameIndex in
  let result := if belowHalf flipSeed then heads else tails in
  let winner :=
    match result with
    | heads => headsPlayer now start
    | tails => tailsPlayer now start
    end in
  {| gameIndex := gameIndex;
     result := result;
     winner := winner;
     seed := toFixed6 flipSeed |}.

Definition processBatch (now processed batchSize : Z) : Z * list Result :=
  Scheduler.processBatch resolve now (count session) processed batchSize.

(** [Math.ceil(session.count / 20)] *)
Definition batchSizeOf (count : Z) : Z := - ((- count) / 20).

(** [startProcessing]; this engine resets its counter to 0 when the
    session is mounted. *)
Definition startProcessing (ticks : list Z) : Z * list Result :=
  let batchSize := batchSizeOf (count session) in
  Scheduler.runTicks resolve ticks (count session) batchSize 0.

End Engine.
End CoinFlip.

(** ** Reference definitions

    Definitions written from the words of the specification, to be compared
    with the ones above. *)

Module Reference.
Import Js.

(** "Successive hex byte pairs": the seed cut every two characters. *)
Fixpoint pairs (seedHex : jsstring) : list jsstring :=
  match seedHex with
  | a :: b :: rest => [a; b] :: pairs rest
  | [a] => [[a]]
  | [] => []
  end.

(** "A pair that fails to parse contributes byte 0". *)
Definition byteOfPair (pair : jsstring) : Z :=
  match parseInt16 pair with
  | Some parsed => parsed mod 256
  | None => 0
  end.

Definition seedBytes (seedHex : jsstring) : list Z :=
  map byteOfPair (pairs seedHex).

(** The accumulator update
    [hash <- ((hash << 5) - hash + (seedByte XOR contextByte)) | 0],
    the context bytes being read cyclically. *)
Fixpoint foldBytes (contextBytes bytes : list Z) (position : nat) (hash : Z) : Z :=
  match bytes with
  | [] => hash
  | seedByte :: rest =>
      let contextByte :=
        nth (position mod List.length contextBytes) contextBytes 0 in
      foldBytes contextBytes rest (S position)
                (toInt32 (shl32 hash 5 - hash + xor32 seedByte contextByte))
  end.

(** "Clamped into [0.000001, 0.999999]". *)
Definition clampInto (x : Q) : Q :=
  match (x ?= 1 # 1000000)%Q with
  | Gt =>
      match (x ?= 999999 # 1000000)%Q with
      | Lt => x
      | _ => 999999 # 1000000
      end
  | _ => 1 # 1000000
  end.

Definition derive (seedHex context : jsstring) (index : number) : Q :=
  let bytes := seedBytes seedHex in
  let used := firstn (Nat.min 32 (List.length bytes)) bytes in
  let contextBytes := utf8Encode (context ++ lit "-" ++ numberToString index) in
  let hash := foldBytes contextBytes used 0 0 in
  clampInto (Z.abs hash # 2147483647).

(** A valid hexadecimal encoding of bytes: an even, positive number of
    hexadecimal digits. *)
Definition validHex (seedHex : jsstring) : bool :=
  match seedHex with
  | [] => false
  | _ =>
      Nat.even (List.length seedHex)
      && forallb (fun c => match hexDigit c with Some _ => true | None => false end)
                 seedHex
  end.

(** The value the derivation would return on given seed bytes. *)
Definition deriveFromBytes (bytes : list Z) (context : jsstring) (index : number) : Q :=
  let contextBytes := utf8Encode (context ++ lit "-" ++ numberToString index) in
  Seed.clamp (Seed.normalize (Seed.mix bytes contextBytes)).

(** The beats-relation of rock-paper-scissors. *)
Inductive beats : RPS.Move -> RPS.Move -> Prop :=
| rock_beats_scissors : beats RPS.rock RPS.scissors
| scissors_beats_paper : beats RPS.scissors RPS.paper
| paper_beats_rock : beats RPS.paper RPS.rock.

(** Rank values, the Ace high. *)
Definition rankValue (rank : HighCard.Rank) : Z :=
  match rank with
  | HighCard.R2 => 2 | HighCard.R3 => 3 | HighCard.R4 => 4 | HighCard.R5 => 5
  | HighCard.R6 => 6 | HighCard.R7 => 7 | HighCard.R8 => 8 | HighCard.R9 => 9
  | HighCard.R10 => 10 | HighCard.RJ => 11 | HighCard.RQ => 12
  | HighCard.RK => 13 | HighCard.RA => 14
  end.

(** The suit order spade > heart > diamond > club. *)
Inductive suitAbove : HighCard.Suit -> HighCard.Suit -> Prop :=
| spade_heart : suitAbove HighCard.Spade HighCard.Heart
| heart_diamond : suitAbove HighCard.Heart HighCard.Diamond
| diamond_club : suitAbove HighCard.Diamond HighCard.Club
| suitAbove_trans a b c : suitAbove a b -> suitAbove b c -> suitAbove a c.

(** The game indices [from], [from + 1], ..., [n] of them. *)
Definition indices (from : Z) (n : nat) : list Z :=
  map (fun i => from + Z.of_nat i) (seq 0 n).

(** The session with its [completed] counter set to [n]. *)
Definition resumedAt (session : GameSession) (n : Z) : GameSession :=
  {| id := id session; count := count session; completed := n |}.

End Reference.

(** ** The page (app/page)

    The master seed as the page renders it, and the session records it
    keeps up to date from the engines' [onUpdate] calls. *)

Module Page.
Import Js.

(** [s.padStart(targetLength, fill)] for a one-character [fill]. *)
Definition padStart (targetLength : nat) (fill : Z) (s : jsstring) : jsstring :=
  repeat fill (targetLength - List.length s) ++ s.

(** [Array.from(masterSeed).map((b) => b.toString(16).padStart(2, "0")).join("")]
    in [startGameSessions], [masterSeed] being the bytes of the digest. *)
Definition masterSeedHex (masterSeed : list Z) : jsstring :=
  List.concat (map (fun b => padStart 2 48 (toStringRadix16 b)) masterSeed).

(** What an engine hands to [onUpdate] as [result]: the last game of a
    batch (rock-paper-scissors, high card) or the array of the games of
    the batch (coin flip). *)
Inductive StoredResult :=
| RpsGame (game : RPS.Result)
| HighCardGame (game : HighCard.Result)
| CoinFlipBatch (games : list CoinFlip.Result).

(** [r.winner]; an array has no such property ([None] is [undefined]). *)
Definition winnerOf (r : StoredResult) : option jsstring :=
  match r with
  | RpsGame game => Some (RPS.winner game)
  | HighCardGame game => Some (HighCard.winner game)
  | CoinFlipBatch _ => None
  end.

Record Session := {
  id : jsstring;
  type : jsstring;
  count : Z;
  completed : Z;
  results : list StoredResult;
  isRunning : bool;
  winner : option jsstring
}.

(** The [session] prop as the engines read it. *)
Definition asGameSession (session : Session) : GameSession :=
  Build_GameSession (id session) (count session) (completed session).

Section State.

Variables player1 player2 masterSeed : jsstring.

(** [r.winner === player] *)
Definition wonBy (player : jsstring) (r : StoredResult) : bool :=
  match winnerOf r with
  | Some w => string_eqb w player
  | None => false
  end.

Definition determineSessionWinner (gameType : jsstring) (results : list StoredResult)
  : jsstring :=
  if Z.of_nat (List.length results) =? 0 then lit "No winner"
  else
    let player1Wins := Z.of_nat (List.length (filter (wonBy player1) results)) in
    let player2Wins := Z.of_nat (List.length (filter (wonBy player2) results)) in
    if player2Wins <? player1Wins then player1
    else if player1Wins <? player2Wins then player2
    else lit "Tie".

(** The callback of [prev.sessions.map] in [updateSessionProgress];
    [result] is [None] when [onUpdate] is called without one. *)
Definition updateSession (sessionId : jsstring) (completed : Z)
    (result : option StoredResult) (session : Session) : Session :=
  if string_eqb (id session) sessionId then
    let newResults :=
      match result with
      | Some r => results session ++ [r]
      | None => results session
      end in
    let isComplete := count session <=? completed in
    {| id := id session;
       type := type session;
       count := count session;
       completed := completed;
       results := newResults;
       isRunning := negb isComplete;
       winner :=
         if isComplete
         then Some (determineSessionWinner (type session) newResults)
         else None |}
  else session.

(** The state updater of [updateSessionProgress], on the list of
    sessions. *)
Definition updateSessionProgress (sessionId : jsstring) (completed : Z)
    (result : option StoredResult) (sessions : list Session) : list Session :=
  map (updateSession sessionId completed result) sessions.

(** One firing of the interval of the rock-paper-scissors engine on the
    session the page holds, with the [onUpdate] call at the end of
    [processBatch]: the engine's counter and the page's sessions. *)
Definition rpsTick (now : Z) (session : Session) (processed : Z)
    (sessions : list Session) : Z * list Session :=
  if count session <=? processed then (processed, sessions)
  else
    let '(processed', results) :=
      RPS.processBatch (asGameSession session) player1 player2 masterSeed
                       now processed 5 in
    match arrayGet results (Z.of_nat (List.length results) - 1) with
    | None => (processed, sessions)
    | Some lastResult =>
        (processed',
         updateSessionProgress (id session) processed' (Some (RpsGame lastResult))
                               sessions)
    end.

(** The firings of the interval at the clock readings [ticks]. *)
Fixpoint rpsRun (ticks : list Z) (session : Session) (processed : Z)
    (sessions : list Session) : Z * list Session :=
  match ticks with
  | [] => (processed, sessions)
  | now :: later =>
      let '(processed', sessions') := rpsTick now session processed sessions in
      rpsRun later session processed' sessions'
  end.

(** The same for the coin-flip engine, which hands over the whole array
    of the batch, with a batch of [batchSize]. *)
Definition coinFlipTick (now : Z) (session : Session) (batchSize processed : Z)
    (sessions : list Session) : Z * list Session :=
  if count session <=? processed then (processed, sessions)
  else
    let '(processed', results) :=
      CoinFlip.processBatch (asGameSession session) player1 player2 masterSeed
                            now processed batchSize in
    match results with
    | [] => (processed, sessions)
    | _ :: _ =>
        (processed',
         updateSessionProgress (id session) processed' (Some (CoinFlipBatch results))
                               sessions)
    end.

End State.
End Page.

(** ** The counters of the coin-flip engine
    (components/games/engines/grid-coin-flip) *)

Module CoinFlipView.
Import Js.

Record Stats := {
  headsCount : Z;
  tailsCount : Z;
  player1Wins : Z;
  player2Wins : Z
}.

(** An entry of [allFlips]. *)
Record Flip := {
  result : CoinFlip.Face;
  winner : jsstring;
  round : Z
}.

(** The state of the component: [processedRef.current], [stats] and
    [allFlips]. *)
Record View := {
  processed : Z;
  stats : Stats;
  allFlips : list Flip
}.

(** The state set by the initialising effect. *)
Definition initial : View :=
  {| processed := 0;
     stats := {| headsCount := 0; tailsCount := 0;
                 player1Wins := 0; player2Wins := 0 |};
     allFlips := [] |}.

Section Engine.

Variable session : GameSession.
Variables player1 player2 masterSeed : jsstring.

(** The counting done for one game in the loop of [processBatch], on the
    batch counters. *)
Definition countGame (batch : Stats) (game : CoinFlip.Result) : Stats :=
  let '(batchHeads, batchTails) :=
    match CoinFlip.result game with
    | CoinFlip.heads => (headsCount batch + 1, tailsCount batch)
    | CoinFlip.tails => (headsCount batch, tailsCount batch + 1)
    end in
  let '(batchPlayer1Wins, batchPlayer2Wins) :=
    if string_eqb (CoinFlip.winner game) player1
    then (player1Wins batch + 1, player2Wins batch)
    else if string_eqb (CoinFlip.winner game) player2
         then (player1Wins batch, player2Wins batch + 1)
         else (player1Wins batch, player2Wins batch) in
  {| headsCount := batchHeads; tailsCount := batchTails;
     player1Wins := batchPlayer1Wins; player2Wins := batchPlayer2Wins |}.

(** [processBatch(batchSize)] on the whole state of the component. *)
Definition processBatch (now batchSize : Z) (view : View) : View :=
  let remaining := count session - processed view in
  let currentBatch := Z.min batchSize remaining in
  if currentBatch <=? 0 then view
  else
    let results :=
      snd (CoinFlip.processBatch session player1 player2 masterSeed
             now (processed view) batchSize) in
    let batch :=
      fold_left countGame results
                {| headsCount := 0; tailsCount := 0;
                   player1Wins := 0; player2Wins := 0 |} in
    {| processed := processed view + currentBatch;
       stats :=
         {| headsCount := headsCount (stats view) + headsCount batch;
            tailsCount := tailsCount (stats view) + tailsCount batch;
            player1Wins := player1Wins (stats view) + player1Wins batch;
            player2Wins := player2Wins (stats view) + player2Wins batch |};
       allFlips :=
         allFlips view
         ++ map (fun r => {| result := CoinFlip.result r;
                             winner := CoinFlip.winner r;
                             round := CoinFlip.gameIndex r + 1 |})
                results |}.

End Engine.
End CoinFlipView.

(** ** The counters of the rock-paper-scissors engine
    (components/games/engines/enhanced-rps) *)

Module RPSView.
Import Js.

Record Stats := {
  player1Wins : Z;
  player2Wins : Z;
  ties : Z;
  rockCount : Z;
  paperCount : Z;
  scissorsCount : Z
}.

(** [prev[`${move}Count`]] *)
Definition countOf (prev : Stats) (move : RPS.Move) : Z :=
  match move with
  | RPS.rock => rockCount prev
  | RPS.paper => paperCount prev
  | RPS.scissors => scissorsCount prev
  end.

(** The object [{ ...stats, [`${move}Count`]: v }]. *)
Definition withCount (stats : Stats) (move : RPS.Move) (v : Z) : Stats :=
  match move with
  | RPS.rock =>
      {| player1Wins := player1Wins stats; player2Wins := player2Wins stats;
         ties := ties stats; rockCount := v;
         paperCount := paperCount stats; scissorsCount := scissorsCount stats |}
  | RPS.paper =>
      {| player1Wins := player1Wins stats; player2Wins := player2Wins stats;
         ties := ties stats; rockCount := rockCount stats;
         paperCount := v; scissorsCount := scissorsCount stats |}
  | RPS.scissors =>
      {| player1Wins := player1Wins stats; player2Wins := player2Wins stats;
         ties := ties stats; rockCount := rockCount stats;
         paperCount := paperCount stats; scissorsCount := v |}
  end.

Section Engine.

Variables player1 player2 : jsstring.

(** The first [setStats] of a game: the winner. *)
Definition countWinner (prev : Stats) (winner : jsstring) : Stats :=
  if string_eqb winner player1 then
    {| player1Wins := player1Wins prev + 1; player2Wins := player2Wins prev;
       ties := ties prev; rockCount := rockCount prev;
       paperCount := paperCount prev; scissorsCount := scissorsCount prev |}
  else if string_eqb winner player2 then
    {| player1Wins := player1Wins prev; player2Wins := player2Wins prev + 1;
       ties := ties prev; rockCount := rockCount prev;
       paperCount := paperCount prev; scissorsCount := scissorsCount prev |}
  else
    {| player1Wins := player1Wins prev; player2Wins := player2Wins prev;
       ties := ties prev + 1; rockCount := rockCount prev;
       paperCount := paperCount prev; scissorsCount := scissorsCount prev |}.

(** The second [setStats] of a game: one object literal with the two
    computed keys, both values read from [prev]; the second key overrides
    the first when both moves are the same.  An [undefined] move names a
    property outside the six counters. *)
Definition countMoves (prev : Stats) (player1Move player2Move : option RPS.Move)
  : Stats :=
  let first :=
    match player1Move with
    | Some move => withCount prev move (countOf prev move + 1)
    | None => prev
    end in
  match player2Move with
  | Some move => withCount first move (countOf prev move + 1)
  | None => first
  end.

(** The two updates of one game. *)
Definition countGame (prev : Stats) (game : RPS.Result) : Stats :=
  countMoves (countWinner prev (RPS.winner game))
             (RPS.player1Move game) (RPS.player2Move game).

Variable session : GameSession.
Variable masterSeed : jsstring.

(** [stats] once the updates queued by [processBatch(batchSize)] are
    applied, in the order of the games. *)
Definition statsAfterBatch (now processed batchSize : Z) (prev : Stats) : Stats :=
  fold_left countGame
            (snd (RPS.processBatch session player1 player2 masterSeed
                    now processed batchSize))
            prev.

End Engine.
End RPSView.

(** ** The wheel (components/games/engines/wheel-spin-engine) *)

Module Wheel.
Import Js Seed.

Record Segment := {
  color : jsstring;
  player : Z;
  label : jsstring
}.

Definition WHEEL_SEGMENTS : list Segment :=
  [ {| color := lit "#64748b"; player := 1; label := lit "A" |};
    {| color := lit "#475569"; player := 2; label := lit "B" |};
    {| color := lit "#64748b"; player := 1; label := lit "C" |};
    {| color := lit "#475569"; player := 2; label := lit "D" |};
    {| color := lit "#64748b"; player := 1; label := lit "E" |};
    {| color := lit "#475569"; player := 2; label := lit "F" |};
    {| color := lit "#64748b"; player := 1; label := lit "G" |};
    {| color := lit "#475569"; player := 2; label := lit "H" |} ].

Record Result := {
  gameIndex : Z;
  segment : jsstring;
  segmentColor : jsstring;
  winner : jsstring;
  rotation : Q;
  spinRandom : Q
}.

Section Engine.

Variable session : GameSession.
Variables player1 player2 masterSeed : jsstring.

(** The body of the loop of [processBatch] for one game (its
    [timestamp] left out).  [None]: the segment read is [undefined] and
    [segment.player] raises. *)
Definition spin (now gameIndex : Z) : option Result :=
  let spinRandom :=
    derive now masterSeed (lit "wheel-spin-" ++ id session) gameIndex in
  let segmentIndex :=
    Qfloor (spinRandom * (Z.of_nat (List.length WHEEL_SEGMENTS) # 1)) in
  match arrayGet WHEEL_SEGMENTS segmentIndex with
  | None => None
  | Some segment =>
      let winner := if player segment =? 1 then player1 else player2 in
      let rotation :=
        (spinRandom * (360 # 1) * (5 # 1)
         + (segmentIndex # 1)
           * ((360 # 1) / (Z.of_nat (List.length WHEEL_SEGMENTS) # 1)))%Q in
      Some {| gameIndex := gameIndex;
              segment := label segment;
              segmentColor := color segment;
              winner := winner;
              rotation := rotation;
              spinRandom := spinRandom |}
  end.

End Engine.
End Wheel.

(** ** The audit of the derived values
    (components/crypto/crypto-transparency-panel) *)

Module Audit.
Import Js Seed.

(** An entry of [randomnessDistribution]. *)
Record Sample := {
  index : Z;
  value : Q;
  bucket : Z
}.

(** An entry of [distributionStats]. *)
Record BucketStat := {
  bucketNumber : Z;
  count : Z
}.

Section Panel.

Variable now : Z.
Variable masterSeed : jsstring.

(** The samples pushed for one session: one per stored result, derived
    from the context "{type}-{id}" and the position of the result. *)
Definition samplesOf (session : Page.Session) : list Sample :=
  map (fun i =>
         let gameContext := Page.type session ++ lit "-" ++ Page.id session in
         let randomValue := derive now masterSeed gameContext (Z.of_nat i) in
         {| index := Z.of_nat i;
            value := randomValue;
            bucket := Qfloor (randomValue * (10 # 1)) |})
      (seq 0 (List.length (Page.results session))).

Definition randomnessDistribution (sessions : list Page.Session) : list Sample :=
  flat_map samplesOf sessions.

(** [Array.from({ length: 10 }, (_, i) => ...)], the [expected] field
    left out. *)
Definition distributionStats (samples : list Sample) : list BucketStat :=
  map (fun i =>
         {| bucketNumber := Z.of_nat i;
            count :=
              Z.of_nat (List.length
                          (filter (fun r => bucket r =? Z.of_nat i) samples)) |})
      (seq 0 10).

Definition totalGames (samples : list Sample) : Z :=
  Z.of_nat (List.length samples).

End Panel.
End Audit.

(** ** The image of a card (components/games/engines/high-card-game) *)

Module CardImage.
Import Js.

(** The object [suitMap]. *)
Definition suitMap (suit : HighCard.Suit) : jsstring :=
  match suit with
  | HighCard.Spade => lit "S"
  | HighCard.Heart => lit "H"
  | HighCard.Diamond => lit "D"
  | HighCard.Club => lit "C"
  end.

(** The object [rankMap]. *)
Definition rankMap (rank : HighCard.Rank) : jsstring :=
  match rank with
  | HighCard.R2 => lit "2" | HighCard.R3 => lit "3" | HighCard.R4 => lit "4"
  | HighCard.R5 => lit "5" | HighCard.R6 => lit "6" | HighCard.R7 => lit "7"
  | HighCard.R8 => lit "8" | HighCard.R9 => lit "9" | HighCard.R10 => lit "T"
  | HighCard.RJ => lit "J" | HighCard.RQ => lit "Q" | HighCard.RK => lit "K"
  | HighCard.RA => lit "A"
  end.

(** [getCardSvgPath(card)], [None] being [null]. *)
Definition getCardSvgPath (card : option HighCard.PlayingCard) : jsstring :=
  match card with
  | None => lit "/cards/1B.svg"
  | Some card =>
      let svgRank :=
        match HighCard.rank card with
        | Some rank => rankMap rank
        | None => lit "undefined"
        end in
      let svgSuit :=
        match HighCard.suit card with
        | Some suit => suitMap suit
        | None => lit "S"
        end in
      lit "/cards/" ++ svgRank ++ svgSuit ++ lit ".svg"
  end.

End CardImage.

(** ** Decks of cards and their shuffle
    (components/games/engines/poker-hand-engine, blackjack-engine and the
    deck shuffle engine) *)

Module Deck.
Import Js.

Inductive Color := red | black.

(** [PlayingCard] of the three engines; the suits and the rank names are
    those of the high card game. *)
Record PlayingCard := {
  suit : HighCard.Suit;
  rank : HighCard.Rank;
  value : Z;
  color : Color
}.

Definition suits : list HighCard.Suit :=
  [HighCard.Spade; HighCard.Heart; HighCard.Diamond; HighCard.Club].

(** [suit === "♥" || suit === "♦" ? "red" : "black"]. *)
Definition colorOf (suit : HighCard.Suit) : Color :=
  match suit with
  | HighCard.Heart | HighCard.Diamond => red
  | _ => black
  end.

(** The strings of the suits and of the ranks. *)
Definition suitName (suit : HighCard.Suit) : jsstring :=
  match suit with
  | HighCard.Spade => [9824]
  | HighCard.Heart => [9829]
  | HighCard.Diamond => [9830]
  | HighCard.Club => [9827]
  end.

Definition rankName (rank : HighCard.Rank) : jsstring :=
  match rank with
  | HighCard.R2 => lit "2" | HighCard.R3 => lit "3" | HighCard.R4 => lit "4"
  | HighCard.R5 => lit "5" | HighCard.R6 => lit "6" | HighCard.R7 => lit "7"
  | HighCard.R8 => lit "8" | HighCard.R9 => lit "9" | HighCard.R10 => lit "10"
  | HighCard.RJ => lit "J" | HighCard.RQ => lit "Q" | HighCard.RK => lit "K"
  | HighCard.RA => lit "A"
  end.

Definition Rank_eqb (a b : HighCard.Rank) : bool :=
  match a, b with
  | HighCard.R2, HighCard.R2 | HighCard.R3, HighCard.R3 | HighCard.R4, HighCard.R4
  | HighCard.R5, HighCard.R5 | HighCard.R6, HighCard.R6 | HighCard.R7, HighCard.R7
  | HighCard.R8, HighCard.R8 | HighCard.R9, HighCard.R9 | HighCard.R10, HighCard.R10
  | HighCard.RJ, HighCard.RJ | HighCard.RQ, HighCard.RQ | HighCard.RK, HighCard.RK
  | HighCard.RA, HighCard.RA => true
  | _, _ => false
  end.

Definition Suit_eqb (a b : HighCard.Suit) : bool :=
  match a, b with
  | HighCard.Spade, HighCard.Spade | HighCard.Heart, HighCard.Heart
  | HighCard.Diamond, HighCard.Diamond | HighCard.Club, HighCard.Club => true
  | _, _ => false
  end.

Section Shuffle.

Variable Card : Type.

(** [xs[i] = x] for an index inside the array. *)
Fixpoint assign (xs : list Card) (i : nat) (x : Card) : list Card :=
  match xs, i with
  | [], _ => []
  | _ :: rest, O => x :: rest
  | y :: rest, S i' => y :: assign rest i' x
  end.

(** [[shuffled[i], shuffled[j]] = [shuffled[j], shuffled[i]]]: both cells
    are read, then cell [i] and cell [j] are written.  [None] stands for
    a read outside the array, where JavaScript would store [undefined]. *)
Definition swap (shuffled : list Card) (i j : Z) : option (list Card) :=
  match arrayGet shuffled j, arrayGet shuffled i with
  | Some atJ, Some atI =>
      Some (assign (assign shuffled (Z.to_nat i) atJ) (Z.to_nat j) atI)
  | _, _ => None
  end.

(** The first loop of [shuffleDeck]: the sum of the code units. *)
Definition charCodeSum (seed : jsstring) : Z :=
  fold_left (fun seedNum code => seedNum + code) seed 0.

(** The second loop, [for (let i = ...; i > 0; i--)], entered at [i]. *)
Fixpoint shuffleFrom (i : nat) (seedNum : Z) (shuffled : list Card)
  : option (list Card) :=
  match i with
  | O => Some shuffled
  | S i' =>
      let seedNum := jsRem (seedNum * 9301 + 49297) 233280 in
      let j := jsRem seedNum (Z.of_nat i + 1) in
      match swap shuffled (Z.of_nat i) j with
      | Some shuffled => shuffleFrom i' seedNum shuffled
      | None => None
      end
  end.

(** [shuffleDeck(deck, seed)]; the numbers are whole numbers well below
    2^53 and are kept exact. *)
Definition shuffleDeck (deck : list Card) (seed : jsstring) : option (list Card) :=
  shuffleFrom (List.length deck - 1) (charCodeSum seed) deck.

End Shuffle.

Arguments assign {Card}.
Arguments swap {Card}.
Arguments shuffleFrom {Card}.
Arguments shuffleDeck {Card}.

End Deck.

(** ** Blackjack (components/games/engines/blackjack-engine) *)

Module Blackjack.
Import Js Deck.

Definition ranks : list HighCard.Rank :=
  [HighCard.RA; HighCard.R2; HighCard.R3; HighCard.R4; HighCard.R5; HighCard.R6;
   HighCard.R7; HighCard.R8; HighCard.R9; HighCard.R10; HighCard.RJ; HighCard.RQ;
   HighCard.RK].

(** [Number.parseInt(rank)], replaced by 11 for the ace and by 10 for the
    jack, the queen and the king. *)
Definition valueOf (rank : HighCard.Rank) : Z :=
  match rank with
  | HighCard.RA => 11
  | HighCard.RJ | HighCard.RQ | HighCard.RK => 10
  | HighCard.R2 => 2 | HighCard.R3 => 3 | HighCard.R4 => 4 | HighCard.R5 => 5
  | HighCard.R6 => 6 | HighCard.R7 => 7 | HighCard.R8 => 8 | HighCard.R9 => 9
  | HighCard.R10 => 10
  end.

Definition createDeck : list PlayingCard :=
  flat_map
    (fun suit =>
       map (fun rank =>
              {| suit := suit; rank := rank; value := valueOf rank;
                 color := colorOf suit |})
           ranks)
    suits.

(** [while (score > 21 && aces > 0) { score -= 10; aces-- }]. *)
Fixpoint whileBust (aces : nat) (score : Z) : Z :=
  match aces with
  | O => score
  | S aces' => if score >? 21 then whileBust aces' (score - 10) else score
  end.

Definition calculateScore (cards : list PlayingCard) : Z :=
  let score := fold_left (fun sum card => sum + value card) cards 0 in
  let aces :=
    List.length (filter (fun card => Rank_eqb (rank card) HighCard.RA) cards) in
  whileBust aces score.

Record Hand := {
  player1Cards : list PlayingCard;
  player2Cards : list PlayingCard;
  player1Score : Z;
  player2Score : Z;
  winner : jsstring;
  gameId : jsstring;
  seed : jsstring
}.

(** [while (calculateScore(cards) < 17 && calculateScore(cards) <= 21)
    cards.push(shuffled[deckIndex++])], where [unread] is the part of
    [shuffled] from [deckIndex] on.  Past the end of the deck the card is
    [undefined] and the next [calculateScore] raises a TypeError: [None]. *)
Fixpoint hit (unread cards : list PlayingCard)
  : option (list PlayingCard * list PlayingCard) :=
  if (calculateScore cards <? 17) && (calculateScore cards <=? 21) then
    match unread with
    | [] => None
    | card :: unread' => hit unread' (cards ++ [card])
    end
  else Some (cards, unread).

Section Engine.

Variables player1 player2 masterSeed : jsstring.

(** [playHand(gameIndex)]; [None] is a TypeError on a card that is
    [undefined]. *)
Definition playHand (gameIndex : Z) : option Hand :=
  let deck := createDeck in
  let seed := masterSeed ++ lit "-blackjack-" ++ numberToString (Num gameIndex) in
  match shuffleDeck deck seed with
  | None => None
  | Some shuffled =>
      match arrayGet shuffled 0, arrayGet shuffled 2,
            arrayGet shuffled 1, arrayGet shuffled 3 with
      | Some card0, Some card2, Some card1, Some card3 =>
          match hit (skipn 4 shuffled) [card0; card2] with
          | None => None
          | Some (player1Cards, unread) =>
              match hit unread [card1; card3] with
              | None => None
              | Some (player2Cards, _) =>
                  let player1Score := calculateScore player1Cards in
                  let player2Score := calculateScore player2Cards in
                  let winner :=
                    if (player1Score >? 21) && (player2Score >? 21) then lit "Tie"
                    else if player1Score >? 21 then player2
                    else if player2Score >? 21 then player1
                    else if player1Score >? player2Score then player1
                    else if player2Score >? player1Score then player2
                    else lit "Tie" in
                  Some {| player1Cards := player1Cards;
                          player2Cards := player2Cards;
                          player1Score := player1Score;
                          player2Score := player2Score;
                          winner := winner;
                          gameId := lit "blackjack-" ++ numberToString (Num gameIndex);
                          seed := seed |}
              end
          end
      | _, _, _, _ => None
      end
  end.

End Engine.
End Blackjack.

(** ** Poker hands (components/games/engines/poker-hand-engine) *)

Module Poker.
Import Js Deck.

Inductive HandRank :=
| HighCardHand | Pair | TwoPair | ThreeOfAKind | Straight | Flush | FullHouse
| FourOfAKind | StraightFlush | RoyalFlush.

Definition ranks : list HighCard.Rank :=
  [HighCard.R2; HighCard.R3; HighCard.R4; HighCard.R5; HighCard.R6; HighCard.R7;
   HighCard.R8; HighCard.R9; HighCard.R10; HighCard.RJ; HighCard.RQ; HighCard.RK;
   HighCard.RA].

(** The pairs (index, element) that [forEach] and [every] walk through. *)
Definition indexed {A : Type} (xs : list A) : list (nat * A) :=
  combine (seq 0 (List.length xs)) xs.

Definition createDeck : list PlayingCard :=
  flat_map
    (fun suit =>
       map (fun '(index, rank) =>
              {| suit := suit; rank := rank; value := Z.of_nat index + 2;
                 color := colorOf suit |})
           (indexed ranks))
    suits.

(** [Math.max(...values)], which starts from -Infinity. *)
Definition mathMax (values : list Z) : number :=
  fold_left (fun acc v =>
               match acc with
               | Num a => Num (Z.max a v)
               | _ => Num v
               end)
            values (Infinity true).

(** [base + n] for a whole number [base]. *)
Definition plus (base : Z) (n : number) : number :=
  match n with
  | Num z => Num (base + z)
  | other => other
  end.

(** [a > b]. *)
Definition greater (a b : number) : bool :=
  match a, b with
  | Num x, Num y => x >? y
  | NaN, _ | _, NaN => false
  | Infinity an, Infinity bn => negb an && bn
  | Infinity an, Num _ => negb an
  | Num _, Infinity bn => bn
  end.

(** [acc[val] = (acc[val] || 0) + 1] on the object [valueCounts], kept as
    the list of its entries. *)
Fixpoint bump (acc : list (Z * Z)) (val : Z) : list (Z * Z) :=
  match acc with
  | [] => [(val, 1)]
  | (key, n) :: rest =>
      if key =? val then (key, n + 1) :: rest else (key, n) :: bump rest val
  end.

Definition valueCounts (values : list Z) : list (Z * Z) :=
  fold_left bump values [].

(** [.sort((a, b) => b - a)] on numbers: the descending arrangement. *)
Fixpoint insertDescending (n : Z) (sorted : list Z) : list Z :=
  match sorted with
  | [] => [n]
  | m :: rest => if m <? n then n :: sorted else m :: insertDescending n rest
  end.

Definition sortDescending (xs : list Z) : list Z :=
  fold_right insertDescending [] xs.

Definition isFlush (suits : list HighCard.Suit) : bool :=
  match suits with
  | [] => true
  | first :: _ => forallb (fun suit => Suit_eqb suit first) suits
  end.

(** [values.every((val, i) => i === 0 || val === values[i - 1] + 1)]. *)
Definition isStraight (values : list Z) : bool :=
  forallb (fun '(i, val) =>
             (i =? 0)%nat
             || match arrayGet values (Z.of_nat i - 1) with
                | Some previous => val =? previous + 1
                | None => false
                end)
          (indexed values).

Definition countIs (counts : list Z) (i n : Z) : bool :=
  match arrayGet counts i with
  | Some c => c =? n
  | None => false
  end.

(** [evaluateHand(cards)]: the rank and the score.  The sorted copy that
    the function makes first is never read. *)
Definition evaluateHand (cards : list PlayingCard) : HandRank * number :=
  let suits := map suit cards in
  let values := map value cards in
  let isFlush := isFlush suits in
  let isStraight := isStraight values in
  let counts := sortDescending (map snd (valueCounts values)) in
  let maxValue := mathMax values in
  if isFlush && isStraight && countIs values 0 10
  then (RoyalFlush, plus 1000 maxValue)
  else if isFlush && isStraight then (StraightFlush, plus 900 maxValue)
  else if countIs counts 0 4 then (FourOfAKind, plus 800 maxValue)
  else if countIs counts 0 3 && countIs counts 1 2 then (FullHouse, plus 700 maxValue)
  else if isFlush then (Flush, plus 600 maxValue)
  else if isStraight then (Straight, plus 500 maxValue)
  else if countIs counts 0 3 then (ThreeOfAKind, plus 400 maxValue)
  else if countIs counts 0 2 && countIs counts 1 2 then (TwoPair, plus 300 maxValue)
  else if countIs counts 0 2 then (Pair, plus 200 maxValue)
  else (HighCardHand, plus 100 maxValue).

Record Hand := {
  player1Cards : list PlayingCard;
  player2Cards : list PlayingCard;
  player1Hand : HandRank;
  player2Hand : HandRank;
  winner : jsstring;
  gameId : jsstring;
  seed : jsstring
}.

(** [xs.slice(from, to)] for whole numbers [0 <= from <= to]. *)
Definition slice {A : Type} (xs : list A) (from to : nat) : list A :=
  firstn (to - from) (skipn from xs).

Section Engine.

Variables player1 player2 masterSeed : jsstring.

Definition playHand (gameIndex : Z) : option Hand :=
  let deck := createDeck in
  let seed := masterSeed ++ lit "-poker-" ++ numberToString (Num gameIndex) in
  match shuffleDeck deck seed with
  | None => None
  | Some shuffled =>
      let player1Cards := slice shuffled 0 5 in
      let player2Cards := slice shuffled 5 10 in
      let player1Eval := evaluateHand player1Cards in
      let player2Eval := evaluateHand player2Cards in
      let winner :=
        if greater (snd player1Eval) (snd player2Eval) then player1
        else if greater (snd player2Eval) (snd player1Eval) then player2
        else lit "Tie" in
      Some {| player1Cards := player1Cards;
              player2Cards := player2Cards;
              player1Hand := fst player1Eval;
              player2Hand := fst player2Eval;
              winner := winner;
              gameId := lit "poker-" ++ numberToString (Num gameIndex);
              seed := seed |}
  end.

End Engine.
End Poker.

(** ** The deck shuffle engine *)

Module DeckShuffle.
Import Js Deck.

Definition ranks : list HighCard.Rank := Blackjack.ranks.

Definition createDeck : list PlayingCard :=
  flat_map
    (fun suit =>
       map (fun '(index, rank) =>
              {| suit := suit; rank := rank; value := Z.of_nat index + 1;
                 color := colorOf suit |})
           (Poker.indexed ranks))
    suits.

Definition patterns : list jsstring :=
  [lit "Riffle"; lit "Bridge"; lit "Overhand"; lit "Hindu"; lit "Weave"; lit "Faro"].

(** [parts.join(",")]. *)
Fixpoint join (parts : list jsstring) : jsstring :=
  match parts with
  | [] => []
  | [part] => part
  | part :: rest => part ++ lit "," ++ join rest
  end.

Record Shuffle := {
  topCard : PlayingCard;
  bottomCard : PlayingCard;
  middleCard : option PlayingCard;
  shufflePattern : option jsstring;
  winner : jsstring;
  gameId : jsstring;
  seed : jsstring;
  deckOrder : jsstring
}.

Section Engine.

Variables player1 player2 masterSeed : jsstring.

(** [performShuffle(gameIndex)]; [None] is the TypeError of reading
    [topCard.color] or [bottomCard.value] on [undefined]. *)
Definition performShuffle (gameIndex : Z) : option Shuffle :=
  let deck := createDeck in
  let seed := masterSeed ++ lit "-shuffle-" ++ numberToString (Num gameIndex) in
  match shuffleDeck deck seed with
  | None => None
  | Some shuffled =>
      match arrayGet shuffled 0, arrayGet shuffled 51 with
      | Some topCard, Some bottomCard =>
          let middleCard := arrayGet shuffled 25 in
          let winner :=
            match color topCard with red => player1 | black => player2 end in
          let patternIndex :=
            jsRem (value topCard + value bottomCard)
                  (Z.of_nat (List.length patterns)) in
          Some {| topCard := topCard;
                  bottomCard := bottomCard;
                  middleCard := middleCard;
                  shufflePattern := arrayGet patterns patternIndex;
                  winner := winner;
                  gameId := lit "shuffle-" ++ numberToString (Num gameIndex);
                  seed := seed;
                  deckOrder :=
                    join (map (fun c => rankName (rank c) ++ suitName (suit c))
                              shuffled) |}
      | _, _ => None
      end
  end.

End Engine.
End DeckShuffle.

(** ** The analytics of the dashboard (components/games/modern-dashboard) *)

Module Analytics.
Import Js.

Record Summary := {
  player1TotalWins : Z;
  player2TotalWins : Z;
  totalTies : Z;
  totalGames : Z;
  totalPossible : Z;
  completionRate : Q;
  player1WinRate : Q;
  player2WinRate : Q
}.

Section Dashboard.

Variables player1 player2 : jsstring.

(** The body of [session.results.forEach]; the three counters are kept
    together.  A result without a [winner] counts for none of them. *)
Definition countResult (tally : Z * Z * Z) (result : Page.StoredResult)
  : Z * Z * Z :=
  let '(player1TotalWins, player2TotalWins, totalTies) := tally in
  match Page.winnerOf result with
  | Some winner =>
      if string_eqb winner player1
      then (player1TotalWins + 1, player2TotalWins, totalTies)
      else if string_eqb winner player2
      then (player1TotalWins, player2TotalWins + 1, totalTies)
      else if string_eqb winner (lit "Tie")
      then (player1TotalWins, player2TotalWins, totalTies + 1)
      else tally
  | None => tally
  end.

(** The [analytics] memo; the rates are kept as exact rationals. *)
Definition analytics (sessions : list Page.Session) : Summary :=
  let '(player1TotalWins, player2TotalWins, totalTies) :=
    fold_left (fun tally session =>
                 fold_left countResult (Page.results session) tally)
              sessions (0, 0, 0) in
  let totalGames := fold_left (fun sum s => sum + Page.completed s) sessions 0 in
  let totalPossible := fold_left (fun sum s => sum + Page.count s) sessions 0 in
  {| player1TotalWins := player1TotalWins;
     player2TotalWins := player2TotalWins;
     totalTies := totalTies;
     totalGames := totalGames;
     totalPossible := totalPossible;
     completionRate :=
       if 0 <? totalPossible
       then (inject_Z totalGames / inject_Z totalPossible * inject_Z 100)%Q
       else 0%Q;
     player1WinRate :=
       if 0 <? totalGames
       then (inject_Z player1TotalWins / inject_Z totalGames * inject_Z 100)%Q
       else 0%Q;
     player2WinRate :=
       if 0 <? totalGames
       then (inject_Z player2TotalWins / inject_Z totalGames * inject_Z 100)%Q
       else 0%Q |}.

End Dashboard.
End Analytics.

(** ** The stream of operations of the dashboard
    (components/games/modern-dashboard) *)

Module Stream.
Section Operations.

Variable Operation : Type.

(** The state updater of [addStreamOperation]:
    [(prev) => [operation, ...prev.slice(0, 99)]]. *)
Definition addStreamOperation (operation : Operation) (prev : list Operation)
  : list Operation :=
  operation :: firstn 99 prev.

(** The updates of a sequence of operations, in the order of the calls. *)
Definition addAll (operations prev : list Operation) : list Operation :=
  fold_left (fun prev operation => addStreamOperation operation prev)
            operations prev.

End Operations.

Arguments addStreamOperation {Operation}.
Arguments addAll {Operation}.

End Stream.

(** ** Quantities and relations in which the properties of the card engines
    and of the page are stated *)

Module Tally.
Import Js Deck.

(** The sum of the values of a hand, every ace at its face value. *)
Definition total (cards : list PlayingCard) : Z :=
  fold_left (fun sum card => sum + value card) cards 0.

(** The number of aces of a hand. *)
Definition aces (cards : list PlayingCard) : nat :=
  List.length (filter (fun card => Rank_eqb (rank card) HighCard.RA) cards).

(** A card of the blackjack deck: an ace is worth 11, any other card
    between 2 and 10. *)
Definition blackjackCard (card : PlayingCard) : bool :=
  if Rank_eqb (rank card) HighCard.RA then value card =? 11
  else (2 <=? value card) && (value card <=? 10).

(** The order of the poker hand ranks, from the lowest to the highest. *)
Definition order (rank : Poker.HandRank) : Z :=
  match rank with
  | Poker.HighCardHand => 1
  | Poker.Pair => 2
  | Poker.TwoPair => 3
  | Poker.ThreeOfAKind => 4
  | Poker.Straight => 5
  | Poker.Flush => 6
  | Poker.FullHouse => 7
  | Poker.FourOfAKind => 8
  | Poker.StraightFlush => 9
  | Poker.RoyalFlush => 10
  end.

(** The highest value of a hand of cards of positive value. *)
Definition highest (cards : list PlayingCard) : Z :=
  fold_right (fun card best => Z.max (value card) best) 0 cards.

(** Values that go up by one from [first] on. *)
Definition run (first : Z) (n : nat) : list Z :=
  map (fun i => first + Z.of_nat i) (seq 0 n).

(** What two hands of a game have in common when the seed string is left
    aside: the cards, the ranks and the winner. *)
Definition dealt (hand : Poker.Hand)
  : list PlayingCard * list PlayingCard * Poker.HandRank * Poker.HandRank * jsstring :=
  (Poker.player1Cards hand, Poker.player2Cards hand,
   Poker.player1Hand hand, Poker.player2Hand hand, Poker.winner hand).

(** What the run from the counter [processed] on makes of a session [s]
    of the page. *)
Definition follows (player1 player2 masterSeed : jsstring) (session : Page.Session)
    (processed : Z) (s s' : Page.Session) : Prop :=
  if string_eqb (Page.id s) (Page.id session) then
    (Page.count session <= processed -> s' = s)
    /\ (Page.id s' = Page.id s /\ Page.type s' = Page.type s
        /\ Page.count s' = Page.count s)
    /\ (processed < Page.count session ->
        Page.completed s' = Page.count session
        /\ Page.isRunning s' = negb (Page.count s <=? Page.count session)
        /\ Page.winner s'
           = if Page.count s <=? Page.count session
             then Some (Page.determineSessionWinner player1 player2
                          (Page.type s) (Page.results s'))
             else None)
    /\ exists games,
         Page.results s' = Page.results s ++ map Page.RpsGame games
         /\ Z.of_nat (List.length games)
            = (Z.max 0 (Page.count session - processed) + 4) / 5
         /\ forall (k : nat) (game : RPS.Result),
              nth_error games k = Some game ->
              exists now start,
                game = RPS.resolve (Page.asGameSession session) player1 player2
                         masterSeed now start
                         (Z.min (processed + 5 * (Z.of_nat k + 1))
                                (Page.count session) - 1)
  else s' = s.

End Tally.

(** * Properties *)

Import Js Seed.

(** ** The range of the derived value *)

Section Range.

Lemma clamp_bounds (x : Q) :
  (1 # 1000000 <= clamp x)%Q /\ (clamp x <= 999999 # 1000000)%Q.
Proof.
  unfold clamp; split.
  - apply Q.min_glb.
    + unfold Qle; simpl; lia.
    + apply Q.le_max_l.
  - apply Q.le_min_l.
Qed.

(** The inner [try ... catch] always yields seed bytes. *)
Lemma seedBytesOf_returns (seedHex : jsstring) :
  exists seedBytes, seedBytesOf seedHex = inr seedBytes.
Proof.
  unfold seedBytesOf, decodeHex, tryCatch, throw, ret.
  destruct (matchPairs seedHex); eauto.
Qed.

(** The [try] block completes, with a clamped value. *)
Lemma deriveTry_returns (seedHex context : jsstring) (step : number) :
  exists hash, deriveTry seedHex context step = inr (clamp (normalize hash)).
Proof.
  unfold deriveTry.
  destruct (seedBytesOf_returns seedHex) as [seedBytes ->].
  unfold bind, ret; eauto.
Qed.

Lemma deriveGameRandom_clamped (now : Z) (seedHex context step : value) :
  exists hash, deriveGameRandom now seedHex context step = clamp (normalize hash).
Proof.
  unfold deriveGameRandom.
  destruct (validate now seedHex context step) as [[s c] i].
  destruct (deriveTry_returns s c i) as [hash ->]; eauto.
Qed.

Lemma deriveGameRandom_bounds (now : Z) (seedHex context step : value) :
  (1 # 1000000 <= deriveGameRandom now seedHex context step)%Q
  /\ (deriveGameRandom now seedHex context step <= 999999 # 1000000)%Q.
Proof.
  destruct (deriveGameRandom_clamped now seedHex context step) as [hash ->].
  apply clamp_bounds.
Qed.


End Range.

(** ** Lookups driven by a derived value *)

Section Lookups.

Lemma arrayGet_in_range {A : Type} (xs : list A) (i : Z) :
  0 <= i < Z.of_nat (List.length xs) -> exists x, arrayGet xs i = Some x.
Proof.
  intros Hi; unfold arrayGet.
  destruct (Z.ltb_spec i 0); [lia|].
  destruct (nth_error xs (Z.to_nat i)) eqn:E; eauto.
  apply nth_error_None in E; lia.
Qed.

(** [Math.floor(v * n)] for a value between the two clamp literals. *)
Lemma floor_scaled_bounds (v : Q) (n : positive) :
  (1 # 1000000 <= v)%Q -> (v <= 999999 # 1000000)%Q ->
  0 <= Qfloor (v * (Zpos n # 1)) <= Qfloor ((999999 # 1000000) * (Zpos n # 1)).
Proof.
  intros Hlo Hhi; split.
  - change 0 with (Qfloor 0).
    apply Qfloor_resp_le, Qmult_le_0_compat.
    + eapply Qle_trans; [|exact Hlo]. unfold Qle; simpl; lia.
    + unfold Qle; simpl; lia.
  - apply Qfloor_resp_le, Qmult_le_compat_r; [exact Hhi|].
    unfold Qle; simpl; lia.
Qed.

Lemma moveIndex_bounds (v : Q) :
  (1 # 1000000 <= v)%Q -> (v <= 999999 # 1000000)%Q ->
  0 <= Qfloor (v * (3 # 1)) <= 2.
Proof.
  intros Hlo Hhi.
  pose proof (floor_scaled_bounds v 3 Hlo Hhi) as H.
  change (Qfloor ((999999 # 1000000) * (3 # 1))) with 2 in H; exact H.
Qed.

Lemma cardIndex_bounds (v : Q) :
  (1 # 1000000 <= v)%Q -> (v <= 999999 # 1000000)%Q ->
  0 <= Qfloor (v * (52 # 1)) <= 51.
Proof.
  intros Hlo Hhi.
  pose proof (floor_scaled_bounds v 52 Hlo Hhi) as H.
  change (Qfloor ((999999 # 1000000) * (52 # 1))) with 51 in H; exact H.
Qed.

Lemma move_defined (v : Q) :
  (1 # 1000000 <= v)%Q -> (v <= 999999 # 1000000)%Q ->
  exists move, arrayGet RPS.MOVES (Qfloor (v * (3 # 1))) = Some move.
Proof.
  intros Hlo Hhi.
  apply arrayGet_in_range.
  change (Z.of_nat (List.length RPS.MOVES)) with 3.
  pose proof (moveIndex_bounds v Hlo Hhi); lia.
Qed.

(** The card drawn from an in-range value has a suit and a rank, read at
    the quotient and the remainder of the card index by 13. *)
Lemma drawCard_defined (v : Q) :
  (1 # 1000000 <= v)%Q -> (v <= 999999 # 1000000)%Q ->
  exists suit rank,
    arrayGet HighCard.SUITS (Qfloor (v * (52 # 1)) / 13) = Some suit
    /\ arrayGet HighCard.RANKS (Qfloor (v * (52 # 1)) mod 13) = Some rank
    /\ HighCard.drawCard v =
       {| HighCard.suit := Some suit;
          HighCard.rank := Some rank;
          HighCard.value := HighCard.RANK_VALUES (Some rank) |}.
Proof.
  intros Hlo Hhi.
  pose proof (cardIndex_bounds v Hlo Hhi) as Hc.
  unfold HighCard.drawCard, jsRem.
  set (cardIndex := Qfloor (v * (52 # 1))) in *.
  assert (Hq : 0 <= cardIndex / 13 < 4).
  { split; [apply Z.div_pos; lia | apply Z.div_lt_upper_bound; lia]. }
  assert (Hr : 0 <= cardIndex mod 13 < 13) by (apply Z.mod_pos_bound; lia).
  rewrite Z.rem_mod_nonneg by lia.
  destruct (arrayGet_in_range HighCard.SUITS (cardIndex / 13)) as [suit Hs];
    [exact Hq|].
  destruct (arrayGet_in_range HighCard.RANKS (cardIndex mod 13)) as [rank Hk];
    [exact Hr|].
  exists suit, rank.
  rewrite Hs, Hk; auto.
Qed.

End Lookups.

(** ** Claims about the derivation function *)

(** With [TextEncoder] at hand the [try] block never raises: for every
    input (any value as seed, context or index, at any clock reading) the
    inner [try ... catch] produces seed bytes, the [try] block completes,
    and the value returned is the one it computes, a number between
    0.000001 and 0.999999. *)
Lemma deriveGameRandom_total (now : Z) (seedHex context step : value) :
  let '(s, c, i) := validate now seedHex context step in
  (exists seedBytes, seedBytesOf s = inr seedBytes)
  /\ exists v, deriveTry s c i = inr v
      /\ deriveGameRandom now seedHex context step = v
      /\ (1 # 1000000 <= v <= 999999 # 1000000)%Q.
Proof.
  pose proof (deriveGameRandom_bounds now seedHex context step) as Hb.
  unfold deriveGameRandom in *.
  destruct (validate now seedHex context step) as [[s c] i].
  split; [apply seedBytesOf_returns|].
  destruct (deriveTry_returns s c i) as [hash E].
  rewrite E in *; eauto.
Qed.





(** For every input the value returned on the normal path lies between
    0.000001 and 0.999999, never 0 and never 1. *)
Lemma deriveGameRandom_range (now : Z) (seedHex context step : value) :
  (1 # 1000000 <= deriveGameRandom now seedHex context step <= 999999 # 1000000)%Q
  /\ (0 < deriveGameRandom now seedHex context step)%Q
  /\ (deriveGameRandom now seedHex context step < 1)%Q
  /\ (exists hash,
        deriveGameRandom now seedHex context step = clamp (normalize hash)).
Proof.
  destruct (deriveGameRandom_bounds now seedHex context step) as [Hlo Hhi].
  split; [split; assumption|].
  split; [eapply Qlt_le_trans; [|exact Hlo]; reflexivity|].
  split; [eapply Qle_lt_trans; [exact Hhi|]; reflexivity|].
  apply deriveGameRandom_clamped.
Qed.


(** C1, as it stands, fails for the empty seed: the seed is replaced by
    one built from the clock, and two calls with the same arguments made
    at different times return different values. *)
Lemma C1_counterexample_empty_seed :
  ~ (deriveGameRandom 0 (VString []) (VString (lit "flip-s1")) (VNumber (Num 0))
     == deriveGameRandom 1 (VString []) (VString (lit "flip-s1")) (VNumber (Num 0)))%Q.
Proof.
  vm_compute; intros H; discriminate H.
Qed.

(** C1, amended.  For every non-empty seed string (well-formed hexadecimal
    or not), every context and every index, two calls with the same
    arguments return the same value whatever the clock reads at each
    call. *)
Theorem C1_determinism (now now' : Z) (seedHex : jsstring) (context step : value) :
  seedHex <> [] ->
  deriveGameRandom now (VString seedHex) context step
  = deriveGameRandom now' (VString seedHex) context step.
Proof.
  intros Hne.
  destruct seedHex as [|c rest]; [congruence|].
  reflexivity.
Qed.

Lemma C1_determinism_witness :
  lit "zz" <> []
  /\ deriveGameRandom 0 (VString (lit "zz")) (VString (lit "flip-s1")) (VNumber NaN)
     = deriveGameRandom 1 (VString (lit "zz")) (VString (lit "flip-s1")) (VNumber NaN).
Proof.
  split; [discriminate | apply C1_determinism; discriminate].
Defined.

(** C9, as it stands, fails for negative indices: the index -1 is not
    replaced by 0, and the two derivations differ. *)
Lemma C9_counterexample_negative_index :
  validate 0 (VString (lit "abcdef")) (VString (lit "c")) (VNumber (Num (-1)))
  = (lit "abcdef", lit "c", Num (-1))
  /\ ~ Qeq (deriveGameRandom 0 (VString (lit "abcdef")) (VString (lit "c"))
              (VNumber (Num (-1))))
           (deriveGameRandom 0 (VString (lit "abcdef")) (VString (lit "c"))
              (VNumber (Num 0))).
Proof.
  split; [reflexivity|].
  vm_compute; intros H; discriminate H.
Qed.

(** C9, amended.  An index that is not a number, or is [NaN], is replaced
    by 0; a context that is not a string, or is the empty string, is
    replaced by "default-context"; every other index, negative ones
    included, is used as it is. *)
Theorem C9_coercions (now : Z) (seedHex context step : value) :
  (negb (typeTag_eqb (typeof step) TNumber) || isNaN step = true ->
   deriveGameRandom now seedHex context step
   = deriveGameRandom now seedHex context (VNumber (Num 0)))
  /\ (negb (truthy context) || negb (typeTag_eqb (typeof context) TString) = true ->
      deriveGameRandom now seedHex context step
      = deriveGameRandom now seedHex (VString (lit "default-context")) step)
  /\ (forall index : Z,
        snd (validate now seedHex context (VNumber (Num index))) = Num index).
Proof.
  repeat split.
  - intros H; unfold deriveGameRandom, validate; rewrite H; reflexivity.
  - intros H; unfold deriveGameRandom, validate; rewrite H; reflexivity.
Qed.

Lemma C9_coercions_witness :
  deriveGameRandom 0 (VString (lit "abcdef")) VNull (VNumber NaN)
  = deriveGameRandom 0 (VString (lit "abcdef")) VNull (VNumber (Num 0))
  /\ deriveGameRandom 0 (VString (lit "abcdef")) VNull (VNumber NaN)
     = deriveGameRandom 0 (VString (lit "abcdef"))
         (VString (lit "default-context")) (VNumber NaN)
  /\ snd (validate 0 (VString (lit "abcdef")) VNull (VNumber (Num (-1)))) = Num (-1).
Proof.
  pose proof (C9_coercions 0 (VString (lit "abcdef")) VNull (VNumber NaN))
    as [Hindex [Hcontext Hkept]].
  split; [apply Hindex; reflexivity|].
  split; [apply Hcontext; reflexivity|].
  apply Hkept.
Defined.

(** C10. In-bounds indexing.  For every input, the value [v] returned by
    [deriveGameRandom] gives [Math.floor(v * 3)] in {0, 1, 2} and
    [Math.floor(v * 52)] in {0, ..., 51}; the move read from [MOVES] and
    the suit, rank and rank value read by [drawCard] are all defined, and
    so are the moves and cards of every game the two resolvers play. *)
Theorem C10_lookups_in_bounds (now : Z) (seedHex context step : value) :
  let v := deriveGameRandom now seedHex context step in
  0 <= Qfloor (v * (3 # 1)) <= 2
  /\ 0 <= Qfloor (v * (52 # 1)) <= 51
  /\ (exists move, arrayGet RPS.MOVES (Qfloor (v * (3 # 1))) = Some move)
  /\ (exists suit rank value,
        HighCard.drawCard v =
        {| HighCard.suit := Some suit;
           HighCard.rank := Some rank;
           HighCard.value := Some value |})
  /\ (forall session player1 player2 masterSeed start gameIndex,
        let game := RPS.resolve session player1 player2 masterSeed now start gameIndex in
        exists move1 move2,
          RPS.player1Move game = Some move1 /\ RPS.player2Move game = Some move2)
  /\ (forall session player1 player2 masterSeed start gameIndex,
        let game := HighCard.resolve session player1 player2 masterSeed now start gameIndex in
        exists suit1 rank1 value1 suit2 rank2 value2,
          HighCard.player1Card game =
          {| HighCard.suit := Some suit1;
             HighCard.rank := Some rank1;
             HighCard.value := Some value1 |}
          /\ HighCard.player2Card game =
             {| HighCard.suit := Some suit2;
                HighCard.rank := Some rank2;
                HighCard.value := Some value2 |}).
Proof.
  intros v.
  destruct (deriveGameRandom_bounds now seedHex context step) as [Hlo Hhi].
  fold v in Hlo, Hhi.
  split; [apply moveIndex_bounds; assumption|].
  split; [apply cardIndex_bounds; assumption|].
  split; [apply move_defined; assumption|].
  split.
  { destruct (drawCard_defined v Hlo Hhi) as (suit & rank & _ & _ & E).
    exists suit, rank.
    destruct rank; eexists; rewrite E; reflexivity. }
  split.
  - intros session player1 player2 masterSeed start gameIndex game.
    unfold game, RPS.resolve, derive; cbn [RPS.player1Move RPS.player2Move].
    destruct (deriveGameRandom_bounds now (VString masterSeed)
                (VString (lit "rps-p1-" ++ id session)) (VNumber (Num gameIndex)))
      as [H1 H2].
    destruct (deriveGameRandom_bounds now (VString masterSeed)
                (VString (lit "rps-p2-" ++ id session)) (VNumber (Num gameIndex)))
      as [H3 H4].
    destruct (move_defined _ H1 H2) as [move1 ->].
    destruct (move_defined _ H3 H4) as [move2 ->].
    exists move1, move2; split; reflexivity.
  - intros session player1 player2 masterSeed start gameIndex game.
    unfold game, HighCard.resolve, derive;
      cbn [HighCard.player1Card HighCard.player2Card].
    destruct (deriveGameRandom_bounds now (VString masterSeed)
                (VString (lit "card-p1-" ++ id session)) (VNumber (Num gameIndex)))
      as [H1 H2].
    destruct (deriveGameRandom_bounds now (VString masterSeed)
                (VString (lit "card-p2-" ++ id session)) (VNumber (Num gameIndex)))
      as [H3 H4].
    destruct (drawCard_defined _ H1 H2) as (suit1 & rank1 & _ & _ & ->).
    destruct (drawCard_defined _ H3 H4) as (suit2 & rank2 & _ & _ & ->).
    exists suit1, rank1.
    destruct rank1; eexists; exists suit2, rank2;
      destruct rank2; eexists; split; reflexivity.
Qed.

(** ** Decoding the seed *)

Section SeedDecoding.

Lemma matchPairs_nil_iff (s : jsstring) :
  matchPairs s = [] <-> Forall (fun c => isLineTerminator c = true) s.
Proof.
  induction s as [|c rest IH]; simpl.
  - split; auto.
  - destruct (isLineTerminator c) eqn:Ec.
    + rewrite IH; split; intros H; [constructor; auto | inversion H; auto].
    + split.
      * destruct rest as [|d rest']; [discriminate|].
        destruct (isLineTerminator d); discriminate.
      * intros H; inversion H; congruence.
Qed.

Lemma seedBytesOf_pairs (s : jsstring) :
  matchPairs s <> [] -> seedBytesOf s = inr (map hexByte (matchPairs s)).
Proof.
  unfold seedBytesOf, decodeHex, tryCatch, throw, ret.
  destruct (matchPairs s); [congruence | reflexivity].
Qed.

Lemma seedBytesOf_utf8 (s : jsstring) :
  matchPairs s = [] -> seedBytesOf s = inr (firstn 32 (utf8Encode s)).
Proof.
  unfold seedBytesOf, decodeHex, tryCatch, throw, ret.
  intros ->; reflexivity.
Qed.

(** Without line terminators the regular expression cuts the seed every
    two characters. *)
Lemma matchPairs_pairs_aux (s : jsstring) :
  (Forall (fun c => isLineTerminator c = false) s ->
   matchPairs s = Reference.pairs s)
  /\ (forall c, Forall (fun c => isLineTerminator c = false) (c :: s) ->
      matchPairs (c :: s) = Reference.pairs (c :: s)).
Proof.
  induction s as [|d rest [IH1 IH2]].
  - split; [reflexivity|].
    intros c H; inversion H as [|? ? Hc _]; simpl; rewrite Hc; reflexivity.
  - split; [apply IH2|].
    intros c H.
    inversion H as [|? ? Hc H']; subst.
    inversion H' as [|? ? Hd H'']; subst.
    simpl matchPairs; rewrite Hc, Hd.
    simpl Reference.pairs; f_equal; apply IH1; assumption.
Qed.

Lemma matchPairs_pairs (s : jsstring) :
  Forall (fun c => isLineTerminator c = false) s ->
  matchPairs s = Reference.pairs s.
Proof. apply matchPairs_pairs_aux. Qed.

Lemma hexByte_byteOfPair (pair : jsstring) :
  hexByte pair = Reference.byteOfPair pair.
Proof.
  unfold hexByte, Reference.byteOfPair, toUint8.
  destruct (parseInt16 pair); reflexivity.
Qed.

End SeedDecoding.

(** ** The mixing loop *)

Section Mixing.

Lemma arrayGet_of_nat {A : Type} (xs : list A) (j : nat) :
  arrayGet xs (Z.of_nat j) = nth_error xs j.
Proof.
  unfold arrayGet.
  destruct (Z.ltb_spec (Z.of_nat j) 0); [lia|].
  rewrite Nat2Z.id; reflexivity.
Qed.

(** The context byte read at index [k] is the one at [k] modulo the
    number of context bytes. *)
Lemma contextByte_cyclic (contextBytes : list Z) (k : nat) :
  match arrayGet contextBytes
          (jsRem (Z.of_nat k) (Z.of_nat (List.length contextBytes))) with
  | Some b => b
  | None => 0
  end = nth (k mod List.length contextBytes) contextBytes 0.
Proof.
  destruct contextBytes as [|b0 rest].
  - unfold arrayGet, jsRem; simpl List.length.
    destruct (_ <? 0); [|destruct (Z.to_nat _)]; destruct k; reflexivity.
  - set (cb := b0 :: rest).
    assert (Hlen : (0 < List.length cb)%nat) by (simpl; lia).
    unfold jsRem.
    rewrite Z.rem_mod_nonneg by lia.
    rewrite <- Nat2Z.inj_mod, arrayGet_of_nat.
    assert (Hlt : (k mod List.length cb < List.length cb)%nat)
      by (apply Nat.mod_upper_bound; lia).
    rewrite (nth_error_nth' cb 0 Hlt); reflexivity.
Qed.

Lemma skipn_cons_nth {A : Type} (xs : list A) (k : nat) (x : A) :
  nth_error xs k = Some x -> skipn k xs = x :: skipn (S k) xs.
Proof.
  revert xs; induction k as [|k IH]; intros [|y ys] H; try discriminate.
  - injection H as ->; reflexivity.
  - simpl in H; apply IH in H; exact H.
Qed.

(** The indexed loop, started at index [k] for [m] turns, is the fold over
    the bytes it visits. *)
Lemma mixLoop_foldBytes (seedBytes contextBytes : list Z) (m : nat) :
  forall (k : nat) (hash : Z),
    (k + m <= List.length seedBytes)%nat ->
    fold_left (mixStep seedBytes contextBytes) (map Z.of_nat (seq k m)) hash
    = Reference.foldBytes contextBytes (firstn m (skipn k seedBytes)) k hash.
Proof.
  induction m as [|m IH]; intros k hash Hk; [reflexivity|].
  destruct (nth_error seedBytes k) as [b|] eqn:Eb;
    [|apply nth_error_None in Eb; lia].
  rewrite (skipn_cons_nth _ _ _ Eb).
  cbn [seq map fold_left firstn Reference.foldBytes].
  rewrite IH by lia.
  f_equal.
  unfold mixStep.
  rewrite contextByte_cyclic, arrayGet_of_nat, Eb; reflexivity.
Qed.

Lemma mix_foldBytes (seedBytes contextBytes : list Z) :
  mix seedBytes contextBytes
  = Reference.foldBytes contextBytes
      (firstn (Nat.min 32 (List.length seedBytes)) seedBytes) 0 0.
Proof.
  unfold mix.
  replace (Z.to_nat (Z.min (Z.of_nat (List.length seedBytes)) 32))
    with (Nat.min 32 (List.length seedBytes)) by lia.
  rewrite mixLoop_foldBytes by lia.
  reflexivity.
Qed.

Lemma clamp_clampInto (x : Q) : clamp x = Reference.clampInto x.
Proof.
  unfold clamp, Reference.clampInto, Qmin, Qmax,
    GenericMinMax.gmin, GenericMinMax.gmax.
  rewrite <- (Qcompare_antisym x (1 # 1000000)).
  destruct (x ?= 1 # 1000000)%Q; cbn [CompOpp]; try reflexivity.
  rewrite <- (Qcompare_antisym x (999999 # 1000000)).
  destruct (x ?= 999999 # 1000000)%Q; reflexivity.
Qed.

(** On a string seed the value returned is the mix of its seed bytes. *)
Lemma deriveTry_deriveFromBytes (seedHex context : jsstring) (step : number)
    (seedBytes : list Z) :
  seedBytesOf seedHex = inr seedBytes ->
  deriveTry seedHex context step
  = inr (Reference.deriveFromBytes seedBytes context step).
Proof.
  intros E; unfold deriveTry; rewrite E; reflexivity.
Qed.

End Mixing.

(** C4, as it stands, fails in three ways.  A line terminator in the seed
    is skipped by the regular expression instead of being part of a pair;
    an empty context is replaced by "default-context"; a [NaN] index is
    replaced by 0.  In each case the derivation differs from the reference
    definition. *)
Lemma C4_counterexample :
  ~ Qeq (deriveGameRandom 0 (VString (lit "ab" ++ [10] ++ lit "cd12"))
           (VString (lit "c")) (VNumber (Num 0)))
        (Reference.derive (lit "ab" ++ [10] ++ lit "cd12") (lit "c") (Num 0))
  /\ ~ Qeq (deriveGameRandom 0 (VString (lit "abcdef")) (VString []) (VNumber (Num 0)))
           (Reference.derive (lit "abcdef") [] (Num 0))
  /\ ~ Qeq (deriveGameRandom 0 (VString (lit "abcdef")) (VString (lit "c"))
              (VNumber NaN))
           (Reference.derive (lit "abcdef") (lit "c") NaN).
Proof.
  repeat split; vm_compute; intros H; discriminate H.
Qed.

(** C4, amended.  For every non-empty seed string without line
    terminators, every non-empty context string and every index other than
    [NaN], the value returned is the reference one: the seed cut in
    successive pairs, each read by [parseInt(pair, 16)] (0 when that is
    [NaN]) and stored as a byte, the first min(32, number of bytes) bytes
    folded with the accumulator update against the cycling UTF-8 bytes of
    "{context}-{index}", then |hash| / 2147483647 clamped into
    [0.000001, 0.999999]. *)
Theorem C4_mixing (now : Z) (seedHex context : jsstring) (index : number) :
  seedHex <> [] ->
  Forall (fun c => isLineTerminator c = false) seedHex ->
  context <> [] ->
  index <> NaN ->
  deriveGameRandom now (VString seedHex) (VString context) (VNumber index)
  = Reference.derive seedHex context index.
Proof.
  intros Hseed Hline Hcontext Hindex.
  assert (Hpairs : matchPairs seedHex <> []).
  { intros E; apply matchPairs_nil_iff in E.
    destruct seedHex as [|c rest]; [congruence|].
    inversion E; inversion Hline; congruence. }
  assert (Hvalid : validate now (VString seedHex) (VString context) (VNumber index)
                   = (seedHex, context, index)).
  { destruct seedHex; [congruence|]; destruct context; [congruence|].
    destruct index; [reflexivity | congruence | reflexivity]. }
  unfold deriveGameRandom; rewrite Hvalid.
  rewrite (deriveTry_deriveFromBytes _ _ _ _ (seedBytesOf_pairs _ Hpairs)).
  unfold Reference.deriveFromBytes, Reference.derive, Reference.seedBytes, normalize.
  rewrite mix_foldBytes, clamp_clampInto, (matchPairs_pairs _ Hline).
  rewrite (map_ext _ _ hexByte_byteOfPair).
  reflexivity.
Qed.

Lemma C4_mixing_witness :
  deriveGameRandom 0 (VString (lit "abcdef")) (VString (lit "c")) (VNumber (Num 7))
  = Reference.derive (lit "abcdef") (lit "c") (Num 7).
Proof.
  apply C4_mixing.
  - discriminate.
  - repeat constructor.
  - discriminate.
  - discriminate.
Defined.

(** C8, as it stands, fails for a seed that is not hexadecimal: the bytes
    of "not-a-hex-seed" are the pieces read by [parseInt] (0 for the ones
    that do not parse), not its UTF-8 bytes, and the value returned is not
    the one the UTF-8 bytes would give. *)
Lemma C8_counterexample_non_hex_seed :
  Reference.validHex (lit "not-a-hex-seed") = false
  /\ seedBytesOf (lit "not-a-hex-seed") = inr [0; 0; 10; 0; 0; 0; 237]
  /\ utf8Encode (lit "not-a-hex-seed")
     = [110; 111; 116; 45; 97; 45; 104; 101; 120; 45; 115; 101; 101; 100]
  /\ ~ (deriveGameRandom 0 (VString (lit "not-a-hex-seed"))
          (VString (lit "flip-s1")) (VNumber (Num 0))
        == Reference.deriveFromBytes (utf8Encode (lit "not-a-hex-seed"))
             (lit "flip-s1") (Num 0))%Q.
Proof.
  repeat split; try (vm_compute; reflexivity).
  vm_compute; intros H; discriminate H.
Qed.

(** C8, amended.  No seed makes the derivation raise.  A seed string with
    at least one character that is not a line terminator is cut in pieces
    of one or two characters, each read by [parseInt(piece, 16)], a piece
    that does not parse giving byte 0.  The UTF-8 bytes of the seed (their
    first 32) are used only when the seed holds nothing but line
    terminators.  An empty seed is first replaced by "fallback-seed-"
    followed by the clock in hexadecimal. *)
Theorem C8_seed_recovery (seedHex : jsstring) :
  (Exists (fun c => isLineTerminator c = false) seedHex ->
   seedBytesOf seedHex = inr (map hexByte (matchPairs seedHex)))
  /\ (Forall (fun c => isLineTerminator c = true) seedHex ->
      seedBytesOf seedHex = inr (firstn 32 (utf8Encode seedHex)))
  /\ (forall now context step,
        fst (fst (validate now (VString []) context step))
        = lit "fallback-seed-" ++ toStringRadix16 now)
  /\ (forall context step, exists v, deriveTry seedHex context step = inr v).
Proof.
  split; [|split; [|split]].
  - intros Hex; apply seedBytesOf_pairs.
    intros E; apply matchPairs_nil_iff in E.
    apply Exists_exists in Hex; destruct Hex as (c & Hin & Hc).
    rewrite Forall_forall in E; specialize (E c Hin); congruence.
  - intros Hall; apply seedBytesOf_utf8, matchPairs_nil_iff; exact Hall.
  - reflexivity.
  - intros context step.
    destruct (deriveTry_returns seedHex context step) as [hash E]; eauto.
Qed.

Lemma C8_seed_recovery_witness :
  seedBytesOf (lit "zz") = inr (map hexByte (matchPairs (lit "zz")))
  /\ seedBytesOf [10; 13] = inr (firstn 32 (utf8Encode [10; 13])).
Proof.
  split.
  - apply (proj1 (C8_seed_recovery (lit "zz"))).
    apply Exists_cons_hd; reflexivity.
  - apply (proj1 (proj2 (C8_seed_recovery [10; 13]))).
    repeat constructor.
Defined.

(** ** The batch loop *)

Section BatchLoop.

Variable Result : Type.
Variable resolve : Z -> Z -> Z -> Result.
Variables count batchSize : Z.

Lemma indices_app (from : Z) (n m : nat) :
  Reference.indices from (n + m)
  = Reference.indices from n ++ Reference.indices (from + Z.of_nat n) m.
Proof.
  unfold Reference.indices.
  rewrite seq_app, map_app; f_equal.
  generalize 0%nat as a.
  induction m as [|m IH]; intros a; [reflexivity|].
  simpl; f_equal; [lia | apply (IH (S a))].
Qed.

Lemma indices_length (from : Z) (n : nat) :
  List.length (Reference.indices from n) = n.
Proof. unfold Reference.indices; rewrite length_map, length_seq; reflexivity. Qed.

(** A batch resolves the next indices, all with the counter at which it
    starts. *)
Lemma processBatch_results (now processed : Z) :
  processed < count -> 1 <= batchSize ->
  Scheduler.processBatch resolve now count processed batchSize
  = (processed + Z.min batchSize (count - processed),
     map (resolve now processed)
         (Reference.indices processed
            (Z.to_nat (Z.min batchSize (count - processed))))).
Proof.
  intros Hp Hb; unfold Scheduler.processBatch.
  destruct (Z.leb_spec (Z.min batchSize (count - processed)) 0); [lia|].
  unfold Reference.indices; rewrite map_map; reflexivity.
Qed.

(** Once every game is resolved a firing of the interval does nothing. *)
Lemma runTicks_done (ticks : list Z) (processed : Z) :
  count <= processed ->
  Scheduler.runTicks resolve ticks count batchSize processed = (processed, []).
Proof.
  intros H; destruct ticks; simpl; [reflexivity|].
  destruct (Z.leb_spec count processed); [reflexivity | lia].
Qed.

(** Stopping after some firings and going on from the counter reached is
    the uninterrupted run. *)
Lemma runTicks_app (before after : list Z) :
  forall processed : Z,
    Scheduler.runTicks resolve (before ++ after) count batchSize processed
    = let '(reached, results) :=
        Scheduler.runTicks resolve before count batchSize processed in
      let '(final, more) :=
        Scheduler.runTicks resolve after count batchSize reached in
      (final, results ++ more).
Proof.
  induction before as [|now later IH]; intros processed.
  - simpl.
    destruct (Scheduler.runTicks resolve after count batchSize processed);
      reflexivity.
  - cbn [app Scheduler.runTicks].
    destruct (Z.leb_spec count processed).
    + rewrite runTicks_done by assumption; reflexivity.
    + destruct (Scheduler.processBatch resolve now count processed batchSize)
        as [processed' results].
      rewrite IH.
      destruct (Scheduler.runTicks resolve later count batchSize processed')
        as [reached mid].
      destruct (Scheduler.runTicks resolve after count batchSize reached)
        as [final more].
      rewrite app_assoc; reflexivity.
Qed.

Section ClockFree.

(** A resolver that does not read the clock. *)
Hypothesis resolve_clock :
  forall now now' start gameIndex,
    resolve now start gameIndex = resolve now' start gameIndex.

Lemma runTicks_clock (ticks : list Z) :
  forall (ticks' : list Z) (processed : Z),
    List.length ticks = List.length ticks' ->
    Scheduler.runTicks resolve ticks count batchSize processed
    = Scheduler.runTicks resolve ticks' count batchSize processed.
Proof.
  induction ticks as [|now later IH]; intros [|now' later'] processed Hlen;
    try discriminate; [reflexivity|].
  cbn [Scheduler.runTicks].
  destruct (count <=? processed); [reflexivity|].
  unfold Scheduler.processBatch.
  destruct (Z.min batchSize (count - processed) <=? 0).
  - rewrite (IH later') by (simpl in Hlen; lia); reflexivity.
  - rewrite (IH later') by (simpl in Hlen; lia).
    rewrite (map_ext _ (fun i => resolve now' processed (processed + Z.of_nat i)));
      [reflexivity|].
    intros i; apply resolve_clock.
Qed.

End ClockFree.

Section Pure.

(** A resolver that reads neither the clock nor the start of its batch. *)
Hypothesis resolve_pure :
  forall now now' start start' gameIndex,
    resolve now start gameIndex = resolve now' start' gameIndex.

(** With enough firings, the run from [processed] resolves exactly the
    indices from [processed] up to [count]. *)
Lemma runTicks_pure (ticks : list Z) :
  forall processed : Z,
    1 <= batchSize ->
    (Z.to_nat (count - processed) <= List.length ticks)%nat ->
    Scheduler.runTicks resolve ticks count batchSize processed
    = (Z.max processed count,
       map (resolve 0 0)
           (Reference.indices processed (Z.to_nat (count - processed)))).
Proof.
  induction ticks as [|now later IH]; intros processed Hb Hlen.
  - simpl in Hlen.
    replace (Z.to_nat (count - processed)) with 0%nat by lia.
    simpl; f_equal; lia.
  - cbn [Scheduler.runTicks].
    destruct (Z.leb_spec count processed).
    + replace (Z.to_nat (count - processed)) with 0%nat by lia.
      simpl; f_equal; lia.
    + rewrite processBatch_results by lia.
      set (currentBatch := Z.min batchSize (count - processed)).
      assert (Hcb : 1 <= currentBatch <= count - processed)
        by (unfold currentBatch; lia).
      rewrite IH by (simpl in Hlen; lia).
      f_equal; [lia|].
      replace (Z.to_nat (count - processed))
        with (Z.to_nat currentBatch + Z.to_nat (count - (processed + currentBatch)))%nat
        by lia.
      rewrite indices_app, map_app, Z2Nat.id by lia.
      f_equal.
      apply map_ext; intros k; apply resolve_pure.
Qed.

(** Resuming at [n] gives the results of the whole run from index [n]
    on. *)
Lemma resume_is_slice (ticks ticks' : list Z) (n : Z) :
  1 <= batchSize -> 0 <= n <= count ->
  (Z.to_nat count <= List.length ticks)%nat ->
  (Z.to_nat (count - n) <= List.length ticks')%nat ->
  snd (Scheduler.runTicks resolve ticks' count batchSize n)
  = skipn (Z.to_nat n) (snd (Scheduler.runTicks resolve ticks count batchSize 0)).
Proof.
  intros Hb Hn Hlen Hlen'.
  rewrite (runTicks_pure ticks 0), (runTicks_pure ticks' n)
    by (try assumption; rewrite ?Z.sub_0_r; assumption).
  cbn [snd].
  rewrite Z.sub_0_r.
  replace (Z.to_nat count) with (Z.to_nat n + Z.to_nat (count - n))%nat by lia.
  rewrite indices_app, map_app, skipn_app, skipn_all2
    by (rewrite length_map, indices_length; lia).
  rewrite length_map, indices_length, Nat.sub_diag, Z2Nat.id by lia.
  reflexivity.
Qed.

End Pure.
End BatchLoop.

(** ** Claims about the resolvers *)

Section Resolvers.

Variable session : GameSession.
Variables player1 player2 masterSeed : jsstring.

Lemma determineWinner_rules (move1 move2 : RPS.Move) :
  let winner := RPS.determineWinner player1 player2 (Some move1) (Some move2) in
  (move1 = move2 -> winner = lit "Tie")
  /\ (Reference.beats move1 move2 -> winner = player1)
  /\ (Reference.beats move2 move1 -> winner = player2)
  /\ (move1 = move2 \/ Reference.beats move1 move2 \/ Reference.beats move2 move1).
Proof.
  destruct move1, move2; cbv zeta; repeat split;
    try (intros H; inversion H; reflexivity);
    auto using Reference.rock_beats_scissors, Reference.scissors_beats_paper,
      Reference.paper_beats_rock.
Qed.

Lemma RANK_VALUES_rankValue (rank : HighCard.Rank) :
  HighCard.RANK_VALUES (Some rank) = Some (Reference.rankValue rank).
Proof. destruct rank; reflexivity. Qed.

Lemma rankValue_injective (a b : HighCard.Rank) :
  Reference.rankValue a = Reference.rankValue b -> a = b.
Proof. destruct a, b; simpl; intros H; try reflexivity; discriminate H. Qed.

(** The numbers of [suitOrder] follow spade > heart > diamond > club. *)
Lemma suitAbove_suitOrder (a b : HighCard.Suit) :
  Reference.suitAbove a b ->
  HighCard.gt (HighCard.suitOrder (Some a)) (HighCard.suitOrder (Some b)) = true.
Proof.
  assert (Hgt : forall x y : HighCard.Suit,
             HighCard.gt (HighCard.suitOrder (Some x)) (HighCard.suitOrder (Some y)) = true
             <-> exists n m, HighCard.suitOrder (Some x) = Some n
                             /\ HighCard.suitOrder (Some y) = Some m /\ m < n).
  { intros x y; destruct x, y; simpl; split; intros H;
      try discriminate; try reflexivity;
      try (do 2 eexists; repeat split; lia);
      destruct H as (n & m & Hn & Hm & Hlt); inversion Hn; inversion Hm; lia. }
  induction 1 as [ | | | a b c _ IH1 _ IH2]; try reflexivity.
  apply Hgt in IH1, IH2; apply Hgt.
  destruct IH1 as (n & m & Hn & Hm & Hlt), IH2 as (m' & k & Hm' & Hk & Hlt').
  rewrite Hm in Hm'; inversion Hm'; subst.
  exists n, k; repeat split; auto; lia.
Qed.

Lemma suitOrder_same (a b : HighCard.Suit) :
  HighCard.gt (HighCard.suitOrder (Some a)) (HighCard.suitOrder (Some b)) = false ->
  HighCard.gt (HighCard.suitOrder (Some b)) (HighCard.suitOrder (Some a)) = false ->
  a = b.
Proof. destruct a, b; simpl; intros H1 H2; try reflexivity; discriminate. Qed.

Lemma gt_irreflexive (x : option Z) : HighCard.gt x x = false.
Proof. destruct x; simpl; [apply Z.ltb_irrefl | reflexivity]. Qed.

Lemma gt_asymmetric (x y : option Z) :
  HighCard.gt x y = true -> HighCard.gt y x = false.
Proof. destruct x, y; simpl; try discriminate; intros H; lia. Qed.

(** The comparison of two cards that have a suit and a rank. *)
Lemma compareCards_rules (suit1 suit2 : HighCard.Suit) (rank1 rank2 : HighCard.Rank) :
  let card1 := {| HighCard.suit := Some suit1; HighCard.rank := Some rank1;
                  HighCard.value := HighCard.RANK_VALUES (Some rank1) |} in
  let card2 := {| HighCard.suit := Some suit2; HighCard.rank := Some rank2;
                  HighCard.value := HighCard.RANK_VALUES (Some rank2) |} in
  let outcome := HighCard.compareCards card1 card2 in
  (Reference.rankValue rank2 < Reference.rankValue rank1 ->
   outcome = HighCard.Player1Wins)
  /\ (Reference.rankValue rank1 < Reference.rankValue rank2 ->
      outcome = HighCard.Player2Wins)
  /\ (rank1 = rank2 -> Reference.suitAbove suit1 suit2 ->
      outcome = HighCard.Player1Wins)
  /\ (rank1 = rank2 -> Reference.suitAbove suit2 suit1 ->
      outcome = HighCard.Player2Wins)
  /\ (outcome = HighCard.TieGame <-> rank1 = rank2 /\ suit1 = suit2).
Proof.
  cbv zeta; unfold HighCard.compareCards;
    cbn [HighCard.suit HighCard.rank HighCard.value].
  rewrite !RANK_VALUES_rankValue; cbn [HighCard.gt].
  split; [|split; [|split; [|split]]].
  - intros H. destruct (Z.ltb_spec (Reference.rankValue rank2) (Reference.rankValue rank1));
      [reflexivity | lia].
  - intros H.
    destruct (Z.ltb_spec (Reference.rankValue rank2) (Reference.rankValue rank1)); [lia|].
    destruct (Z.ltb_spec (Reference.rankValue rank1) (Reference.rankValue rank2));
      [reflexivity | lia].
  - intros -> Hs. rewrite Z.ltb_irrefl.
    rewrite (suitAbove_suitOrder _ _ Hs); reflexivity.
  - intros -> Hs. rewrite Z.ltb_irrefl.
    pose proof (suitAbove_suitOrder _ _ Hs) as Hgt.
    rewrite (gt_asymmetric _ _ Hgt), Hgt; reflexivity.
  - split.
    + destruct (Z.ltb_spec (Reference.rankValue rank2) (Reference.rankValue rank1));
        [discriminate|].
      destruct (Z.ltb_spec (Reference.rankValue rank1) (Reference.rankValue rank2));
        [discriminate|].
      destruct (HighCard.gt (HighCard.suitOrder (Some suit1))
                            (HighCard.suitOrder (Some suit2))) eqn:E1; [discriminate|].
      destruct (HighCard.gt (HighCard.suitOrder (Some suit2))
                            (HighCard.suitOrder (Some suit1))) eqn:E2; [discriminate|].
      intros _; split; [apply rankValue_injective; lia | apply suitOrder_same; assumption].
    + intros [-> ->]. rewrite Z.ltb_irrefl, gt_irreflexive; reflexivity.
Qed.

End Resolvers.

Section Games.

Variable session : GameSession.
Variables player1 player2 masterSeed : jsstring.

(** C7. Rock-paper-scissors rules.  For every game index each player's
    move is the entry of [rock, paper, scissors] at [Math.floor(v * 3)],
    [v] being the value derived for that player ("rps-p1-{id}",
    "rps-p2-{id}"); equal moves give "Tie", a move that beats the other
    (rock beats scissors, scissors beats paper, paper beats rock) gives
    its player, and one of the three cases always applies. *)
Theorem C7_rps_rules (now start gameIndex : Z) :
  let game := RPS.resolve session player1 player2 masterSeed now start gameIndex in
  let v1 := derive now masterSeed (lit "rps-p1-" ++ id session) gameIndex in
  let v2 := derive now masterSeed (lit "rps-p2-" ++ id session) gameIndex in
  exists move1 move2,
    arrayGet RPS.MOVES (Qfloor (v1 * (3 # 1))) = Some move1
    /\ arrayGet RPS.MOVES (Qfloor (v2 * (3 # 1))) = Some move2
    /\ RPS.player1Move game = Some move1
    /\ RPS.player2Move game = Some move2
    /\ (move1 = move2 -> RPS.winner game = lit "Tie")
    /\ (Reference.beats move1 move2 -> RPS.winner game = player1)
    /\ (Reference.beats move2 move1 -> RPS.winner game = player2)
    /\ (move1 = move2 \/ Reference.beats move1 move2 \/ Reference.beats move2 move1).
Proof.
  intros game v1 v2.
  destruct (deriveGameRandom_bounds now (VString masterSeed)
              (VString (lit "rps-p1-" ++ id session)) (VNumber (Num gameIndex)))
    as [H1 H2].
  destruct (deriveGameRandom_bounds now (VString masterSeed)
              (VString (lit "rps-p2-" ++ id session)) (VNumber (Num gameIndex)))
    as [H3 H4].
  fold (derive now masterSeed (lit "rps-p1-" ++ id session) gameIndex) in H1, H2.
  fold (derive now masterSeed (lit "rps-p2-" ++ id session) gameIndex) in H3, H4.
  fold v1 in H1, H2; fold v2 in H3, H4.
  destruct (move_defined v1 H1 H2) as [move1 E1].
  destruct (move_defined v2 H3 H4) as [move2 E2].
  exists move1, move2.
  assert (Hgame : game =
            {| RPS.gameIndex := gameIndex;
               RPS.player1Move := Some move1;
               RPS.player2Move := Some move2;
               RPS.winner := RPS.determineWinner player1 player2 (Some move1) (Some move2);
               RPS.p1Seed := toFixed6 v1;
               RPS.p2Seed := toFixed6 v2 |}).
  { unfold game, RPS.resolve; fold v1 v2; rewrite E1, E2; reflexivity. }
  rewrite Hgame; cbn [RPS.player1Move RPS.player2Move RPS.winner].
  pose proof (determineWinner_rules player1 player2 move1 move2) as Hrules.
  cbv zeta in Hrules.
  repeat split; try apply Hrules; assumption.
Qed.

(** C6. High-card rules.  For every game index each player's card comes
    from the value [v] derived for that player ("card-p1-{id}",
    "card-p2-{id}"): card index [Math.floor(v * 52)], suit at the quotient
    by 13, rank at the remainder by 13.  The higher rank value wins (the
    Ace, 14, over the King, 13, whatever the suits); on equal ranks the
    higher suit in spade > heart > diamond > club wins; the comparison
    ends in a tie exactly when rank and suit are both equal, and "Tie" is
    then the winner. *)
Theorem C6_high_card_rules (now start gameIndex : Z) :
  let game := HighCard.resolve session player1 player2 masterSeed now start gameIndex in
  let v1 := derive now masterSeed (lit "card-p1-" ++ id session) gameIndex in
  let v2 := derive now masterSeed (lit "card-p2-" ++ id session) gameIndex in
  exists suit1 rank1 suit2 rank2,
    arrayGet HighCard.SUITS (Qfloor (v1 * (52 # 1)) / 13) = Some suit1
    /\ arrayGet HighCard.RANKS (Qfloor (v1 * (52 # 1)) mod 13) = Some rank1
    /\ arrayGet HighCard.SUITS (Qfloor (v2 * (52 # 1)) / 13) = Some suit2
    /\ arrayGet HighCard.RANKS (Qfloor (v2 * (52 # 1)) mod 13) = Some rank2
    /\ HighCard.player1Card game =
       {| HighCard.suit := Some suit1; HighCard.rank := Some rank1;
          HighCard.value := Some (Reference.rankValue rank1) |}
    /\ HighCard.player2Card game =
       {| HighCard.suit := Some suit2; HighCard.rank := Some rank2;
          HighCard.value := Some (Reference.rankValue rank2) |}
    /\ (Reference.rankValue rank2 < Reference.rankValue rank1 ->
        HighCard.winner game = player1)
    /\ (Reference.rankValue rank1 < Reference.rankValue rank2 ->
        HighCard.winner game = player2)
    /\ (rank1 = HighCard.RA -> rank2 = HighCard.RK -> HighCard.winner game = player1)
    /\ (rank1 = rank2 -> Reference.suitAbove suit1 suit2 ->
        HighCard.winner game = player1)
    /\ (rank1 = rank2 -> Reference.suitAbove suit2 suit1 ->
        HighCard.winner game = player2)
    /\ (rank1 = rank2 -> suit1 = suit2 -> HighCard.winner game = lit "Tie")
    /\ (HighCard.compareCards (HighCard.player1Card game) (HighCard.player2Card game)
        = HighCard.TieGame <-> rank1 = rank2 /\ suit1 = suit2).
Proof.
  intros game v1 v2.
  destruct (deriveGameRandom_bounds now (VString masterSeed)
              (VString (lit "card-p1-" ++ id session)) (VNumber (Num gameIndex)))
    as [H1 H2].
  destruct (deriveGameRandom_bounds now (VString masterSeed)
              (VString (lit "card-p2-" ++ id session)) (VNumber (Num gameIndex)))
    as [H3 H4].
  fold (derive now masterSeed (lit "card-p1-" ++ id session) gameIndex) in H1, H2.
  fold (derive now masterSeed (lit "card-p2-" ++ id session) gameIndex) in H3, H4.
  fold v1 in H1, H2; fold v2 in H3, H4.
  destruct (drawCard_defined v1 H1 H2) as (suit1 & rank1 & Hs1 & Hr1 & E1).
  destruct (drawCard_defined v2 H3 H4) as (suit2 & rank2 & Hs2 & Hr2 & E2).
  exists suit1, rank1, suit2, rank2.
  pose proof (compareCards_rules suit1 suit2 rank1 rank2) as Hrules.
  cbv zeta in Hrules.
  destruct Hrules as (Hhigh & Hlow & Hsuit1 & Hsuit2 & Htie).
  assert (Hwinner : HighCard.winner game =
            HighCard.label player1 player2
              (HighCard.compareCards (HighCard.drawCard v1) (HighCard.drawCard v2)))
    by reflexivity.
  assert (Hc1 : HighCard.player1Card game = HighCard.drawCard v1) by reflexivity.
  assert (Hc2 : HighCard.player2Card game = HighCard.drawCard v2) by reflexivity.
  rewrite Hwinner, Hc1, Hc2, E1, E2.
  rewrite <- !RANK_VALUES_rankValue.
  do 4 (split; [assumption|]).
  do 2 (split; [reflexivity|]).
  split; [intros H; rewrite (Hhigh H); reflexivity|].
  split; [intros H; rewrite (Hlow H); reflexivity|].
  split; [intros -> ->; rewrite Hhigh; [reflexivity | simpl; lia]|].
  split; [intros Hr Hs; rewrite (Hsuit1 Hr Hs); reflexivity|].
  split; [intros Hr Hs; rewrite (Hsuit2 Hr Hs); reflexivity|].
  split; [intros Hr Hs; rewrite (proj2 Htie (conj Hr Hs)); reflexivity|].
  exact Htie.
Qed.

End Games.

Lemma C7_rps_rules_witness :
  let session := {| id := lit "s1"; count := 40; completed := 0 |} in
  let masterSeed :=
    lit "0000000000000000000000000000000000000000000000000000000000000000" in
  RPS.winner (RPS.resolve session (lit "Alice") (lit "Bob") masterSeed 0 0 0)
  = lit "Alice"
  /\ RPS.winner (RPS.resolve session (lit "Alice") (lit "Bob") masterSeed 0 0 1)
     = lit "Tie".
Proof.
  intros session masterSeed; split.
  - destruct (C7_rps_rules session (lit "Alice") (lit "Bob") masterSeed 0 0 0)
      as (move1 & move2 & H1 & H2 & _ & _ & _ & Hbeats & _ & _).
    apply Hbeats.
    vm_compute in H1, H2.
    injection H1 as <-; injection H2 as <-.
    constructor.
  - destruct (C7_rps_rules session (lit "Alice") (lit "Bob") masterSeed 0 0 1)
      as (move1 & move2 & H1 & H2 & _ & _ & Hsame & _ & _ & _).
    apply Hsame.
    vm_compute in H1, H2.
    injection H1 as <-; injection H2 as <-.
    reflexivity.
Defined.

Lemma C6_high_card_rules_witness :
  let session := {| id := lit "s1"; count := 40; completed := 0 |} in
  let masterSeed :=
    lit "0000000000000000000000000000000000000000000000000000000000000000" in
  HighCard.winner (HighCard.resolve session (lit "Alice") (lit "Bob") masterSeed 0 0 0)
  = lit "Alice"
  /\ HighCard.winner (HighCard.resolve session (lit "Alice") (lit "Bob") masterSeed 0 0 1)
     = lit "Bob".
Proof.
  intros session masterSeed; split.
  - destruct (C6_high_card_rules session (lit "Alice") (lit "Bob") masterSeed 0 0 0)
      as (suit1 & rank1 & suit2 & rank2 & _ & H1 & _ & H2 & _ & _ & Hhigh & _).
    apply Hhigh.
    vm_compute in H1, H2.
    injection H1 as <-; injection H2 as <-.
    reflexivity.
  - destruct (C6_high_card_rules session (lit "Alice") (lit "Bob") masterSeed 0 0 1)
      as (suit1 & rank1 & suit2 & rank2 & _ & H1 & _ & H2 & _ & _ & _ & Hlow & _).
    apply Hlow.
    vm_compute in H1, H2.
    injection H1 as <-; injection H2 as <-.
    reflexivity.
Defined.

(** ** Replaying and resuming *)

Section Replay.

Variable session : GameSession.
Variables player1 player2 masterSeed : jsstring.

(** With a non-empty seed the derivation does not read the clock. *)
Lemma derive_clock_free (now now' : Z) (context : jsstring) (index : Z) :
  masterSeed <> [] ->
  derive now masterSeed context index = derive now' masterSeed context index.
Proof.
  intros Hne; destruct masterSeed as [|c rest]; [congruence | reflexivity].
Qed.

Lemma RPS_resolve_pure (now now' start start' gameIndex : Z) :
  masterSeed <> [] ->
  RPS.resolve session player1 player2 masterSeed now start gameIndex
  = RPS.resolve session player1 player2 masterSeed now' start' gameIndex.
Proof.
  intros Hne; unfold RPS.resolve.
  rewrite (derive_clock_free now now' (lit "rps-p1-" ++ id session)) by assumption.
  rewrite (derive_clock_free now now' (lit "rps-p2-" ++ id session)) by assumption.
  reflexivity.
Qed.

Lemma HighCard_resolve_pure (now now' start start' gameIndex : Z) :
  masterSeed <> [] ->
  HighCard.resolve session player1 player2 masterSeed now start gameIndex
  = HighCard.resolve session player1 player2 masterSeed now' start' gameIndex.
Proof.
  intros Hne; unfold HighCard.resolve.
  rewrite (derive_clock_free now now' (lit "card-p1-" ++ id session)) by assumption.
  rewrite (derive_clock_free now now' (lit "card-p2-" ++ id session)) by assumption.
  reflexivity.
Qed.

Lemma CoinFlip_resolve_clock (now now' start gameIndex : Z) :
  masterSeed <> [] ->
  CoinFlip.resolve session player1 player2 masterSeed now start gameIndex
  = CoinFlip.resolve session player1 player2 masterSeed now' start gameIndex.
Proof.
  intros Hne; unfold CoinFlip.resolve, CoinFlip.tailsPlayer, CoinFlip.headsPlayer.
  rewrite (derive_clock_free now now' (lit "flip-" ++ id session)) by assumption.
  rewrite (derive_clock_free now now' (lit "assignment-" ++ id session)) by assumption.
  reflexivity.
Qed.

End Replay.

(** C5, as it stands, fails for the coin flip.  With the seed "00" * 32,
    the session "s1" of 60 games and the players Alice and Bob, game 2 is
    won by Alice when it is resolved in the batch that starts at index 0
    and by Bob when the session is resumed at index 2; it is also won by
    Alice in the run of a session of 60 games (batches of 3) and by Bob in
    the run of a session of 40 games (batches of 2). *)
Lemma C5_counterexample_coin_flip :
  let masterSeed :=
    lit "0000000000000000000000000000000000000000000000000000000000000000" in
  let session60 := {| id := lit "s1"; count := 60; completed := 0 |} in
  let session40 := {| id := lit "s1"; count := 40; completed := 0 |} in
  let batch := CoinFlip.processBatch session60 (lit "Alice") (lit "Bob") masterSeed 0 in
  let run60 := CoinFlip.startProcessing session60 (lit "Alice") (lit "Bob") masterSeed [0] in
  let run40 := CoinFlip.startProcessing session40 (lit "Alice") (lit "Bob") masterSeed [0; 0] in
  let outcome := option_map (fun r => (CoinFlip.gameIndex r, CoinFlip.winner r)) in
  outcome (nth_error (snd (batch 0 3)) 2) = Some (2, lit "Alice")
  /\ outcome (nth_error (snd (batch 2 3)) 0) = Some (2, lit "Bob")
  /\ outcome (nth_error (snd run60) 2) = Some (2, lit "Alice")
  /\ outcome (nth_error (snd run40) 2) = Some (2, lit "Bob").
Proof.
  repeat split; vm_compute; reflexivity.
Qed.

(** A resolver reads the session through its [id] only. *)
Lemma RPS_resolve_session (session session' : GameSession)
      (player1 player2 masterSeed : jsstring) (now start k : Z) :
  id session' = id session ->
  RPS.resolve session' player1 player2 masterSeed now start k
  = RPS.resolve session player1 player2 masterSeed now start k.
Proof. intros Hid; unfold RPS.resolve; rewrite Hid; reflexivity. Qed.

Lemma HighCard_resolve_session (session session' : GameSession)
      (player1 player2 masterSeed : jsstring) (now start k : Z) :
  id session' = id session ->
  HighCard.resolve session' player1 player2 masterSeed now start k
  = HighCard.resolve session player1 player2 masterSeed now start k.
Proof. intros Hid; unfold HighCard.resolve; rewrite Hid; reflexivity. Qed.

Lemma CoinFlip_resolve_session (session session' : GameSession)
      (player1 player2 masterSeed : jsstring) (now start k : Z) :
  id session' = id session ->
  CoinFlip.resolve session' player1 player2 masterSeed now start k
  = CoinFlip.resolve session player1 player2 masterSeed now start k.
Proof.
  intros Hid; unfold CoinFlip.resolve, CoinFlip.tailsPlayer, CoinFlip.headsPlayer.
  rewrite Hid; reflexivity.
Qed.

(** C5, amended.  With a non-empty master seed (and the wall-clock
    [timestamp] of each record aside): the result of the
    rock-paper-scissors and of the high-card resolver for game [k] is a
    function of the master seed, the session id, [k] and the two player
    labels only, not of the clock, of the batch that holds [k], nor of
    the count or the completed counter of the session; so are the face
    and the seed of the coin flip, while its winner also depends on the
    index at which the batch holding [k] starts, the sides being assigned
    per batch.  Resuming rock-paper-scissors or high card at
    [completed = n] gives the results of a whole run from 0, sliced from
    [n]; stopping the coin flip after some firings and resuming from the
    counter reached gives the results of the uninterrupted run. *)
Theorem C5_replay (session : GameSession) (player1 player2 masterSeed : jsstring) :
  masterSeed <> [] ->
  (forall session' now now' start start' k,
      id session' = id session ->
      RPS.resolve session player1 player2 masterSeed now start k
      = RPS.resolve session' player1 player2 masterSeed now' start' k)
  /\ (forall session' now now' start start' k,
         id session' = id session ->
         HighCard.resolve session player1 player2 masterSeed now start k
         = HighCard.resolve session' player1 player2 masterSeed now' start' k)
  /\ (forall session' now now' start start' k,
         id session' = id session ->
         let a := CoinFlip.resolve session player1 player2 masterSeed now start k in
         let b := CoinFlip.resolve session' player1 player2 masterSeed now' start' k in
         CoinFlip.gameIndex a = CoinFlip.gameIndex b
         /\ CoinFlip.result a = CoinFlip.result b
         /\ CoinFlip.seed a = CoinFlip.seed b
         /\ (start = start' -> a = b))
  /\ (forall ticks ticks' n,
         0 <= n <= count session ->
         (Z.to_nat (count session) <= List.length ticks)%nat ->
         (Z.to_nat (count session - n) <= List.length ticks')%nat ->
         snd (RPS.startProcessing (Reference.resumedAt session n)
                player1 player2 masterSeed ticks')
         = skipn (Z.to_nat n)
             (snd (RPS.startProcessing (Reference.resumedAt session 0)
                     player1 player2 masterSeed ticks)))
  /\ (forall ticks ticks' n,
         0 <= n <= count session ->
         (Z.to_nat (count session) <= List.length ticks)%nat ->
         (Z.to_nat (count session - n) <= List.length ticks')%nat ->
         snd (HighCard.startProcessing (Reference.resumedAt session n)
                player1 player2 masterSeed ticks')
         = skipn (Z.to_nat n)
             (snd (HighCard.startProcessing (Reference.resumedAt session 0)
                     player1 player2 masterSeed ticks)))
  /\ (forall before after after' batchSize,
         List.length after = List.length after' ->
         let flip := CoinFlip.resolve session player1 player2 masterSeed in
         let played :=
           Scheduler.runTicks flip before (count session) batchSize 0 in
         snd (Scheduler.runTicks flip (before ++ after)
                (count session) batchSize 0)
         = snd played
             ++ snd (Scheduler.runTicks flip after'
                       (count session) batchSize (fst played))).
Proof.
  intros Hne.
  split.
  { intros session' now now' start start' k Hid.
    rewrite (RPS_resolve_session session session') by exact Hid.
    apply RPS_resolve_pure; assumption. }
  split.
  { intros session' now now' start start' k Hid.
    rewrite (HighCard_resolve_session session session') by exact Hid.
    apply HighCard_resolve_pure; assumption. }
  split.
  { intros session' now now' start start' k Hid a b.
    unfold b; rewrite (CoinFlip_resolve_session session session') by exact Hid.
    clear b.
    set (b := CoinFlip.resolve session player1 player2 masterSeed now' start' k).
    assert (Hflip : derive now masterSeed (lit "flip-" ++ id session) k
                    = derive now' masterSeed (lit "flip-" ++ id session) k)
      by (apply derive_clock_free; assumption).
    assert (Hsame : start = start' -> a = b)
      by (intros <-; apply CoinFlip_resolve_clock; assumption).
    split; [reflexivity|].
    split; [|split; [|exact Hsame]].
    - unfold a, b, CoinFlip.resolve; cbn [CoinFlip.result].
      rewrite Hflip; reflexivity.
    - unfold a, b, CoinFlip.resolve; cbn [CoinFlip.seed].
      rewrite Hflip; reflexivity. }
  split.
  { intros ticks ticks' n Hn Hlen Hlen'.
    unfold RPS.startProcessing.
    change (count (Reference.resumedAt session n)) with (count session).
    change (count (Reference.resumedAt session 0)) with (count session).
    change (completed (Reference.resumedAt session n)) with n.
    change (completed (Reference.resumedAt session 0)) with 0.
    change (RPS.resolve (Reference.resumedAt session n))
      with (RPS.resolve session).
    change (RPS.resolve (Reference.resumedAt session 0))
      with (RPS.resolve session).
    apply resume_is_slice; try assumption; [|lia].
    intros; apply RPS_resolve_pure; assumption. }
  split.
  { intros ticks ticks' n Hn Hlen Hlen'.
    unfold HighCard.startProcessing.
    change (count (Reference.resumedAt session n)) with (count session).
    change (count (Reference.resumedAt session 0)) with (count session).
    change (completed (Reference.resumedAt session n)) with n.
    change (completed (Reference.resumedAt session 0)) with 0.
    change (HighCard.resolve (Reference.resumedAt session n))
      with (HighCard.resolve session).
    change (HighCard.resolve (Reference.resumedAt session 0))
      with (HighCard.resolve session).
    apply resume_is_slice; try assumption; [|lia].
    intros; apply HighCard_resolve_pure; assumption. }
  intros before after after' batchSize Hlen flip played.
  rewrite runTicks_app; fold played.
  destruct played as [reached results]; cbn [fst snd].
  rewrite (runTicks_clock CoinFlip.Result flip (count session) batchSize
             (fun now now' start k =>
                CoinFlip_resolve_clock session player1 player2 masterSeed
                  now now' start k Hne)
             after after' reached Hlen).
  destruct (Scheduler.runTicks flip after' (count session)
              batchSize reached); reflexivity.
Qed.

Lemma C5_replay_witness :
  let session := {| id := lit "s1"; count := 7; completed := 0 |} in
  let finished := {| id := lit "s1"; count := 9; completed := 9 |} in
  let masterSeed :=
    lit "0000000000000000000000000000000000000000000000000000000000000000" in
  masterSeed <> []
  /\ RPS.resolve session (lit "Alice") (lit "Bob") masterSeed 0 0 5
     = RPS.resolve finished (lit "Alice") (lit "Bob") masterSeed 9 5 5
  /\ snd (RPS.startProcessing (Reference.resumedAt session 5)
            (lit "Alice") (lit "Bob") masterSeed [9; 10])
     = skipn 5 (snd (RPS.startProcessing (Reference.resumedAt session 0)
                       (lit "Alice") (lit "Bob") masterSeed [0; 1; 2; 3; 4; 5; 6]))
  /\ snd (HighCard.startProcessing (Reference.resumedAt session 5)
            (lit "Alice") (lit "Bob") masterSeed [9; 10])
     = skipn 5 (snd (HighCard.startProcessing (Reference.resumedAt session 0)
                       (lit "Alice") (lit "Bob") masterSeed [0; 1; 2; 3; 4; 5; 6])).
Proof.
  intros session finished masterSeed.
  assert (Hne : masterSeed <> []) by discriminate.
  destruct (C5_replay session (lit "Alice") (lit "Bob") masterSeed Hne)
    as (Hrps & _ & _ & Hresume & Hcards & _).
  split; [exact Hne|].
  split; [apply (Hrps finished); reflexivity|].
  split.
  - apply (Hresume [0; 1; 2; 3; 4; 5; 6] [9; 10] 5); unfold session; simpl; lia.
  - apply (Hcards [0; 1; 2; 3; 4; 5; 6] [9; 10] 5); unfold session; simpl; lia.
Defined.

(** * Further properties of the code *)

(** ** The master seed, from the page to the derivation *)

Section MasterSeed.

Lemma hex_of_byte_check :
  forallb
    (fun b =>
       match Page.padStart 2 48 (toStringRadix16 b) with
       | [hi; lo] =>
           negb (isLineTerminator hi) && negb (isLineTerminator lo)
           && (hexByte [hi; lo] =? b)
       | _ => false
       end)
    (map Z.of_nat (seq 0 256)) = true.
Proof. vm_compute; reflexivity. Qed.

(** A byte is rendered as two characters that the derivation reads back
    as that byte. *)
Lemma hex_of_byte (b : Z) :
  0 <= b < 256 ->
  exists hi lo,
    Page.padStart 2 48 (toStringRadix16 b) = [hi; lo]
    /\ isLineTerminator hi = false
    /\ isLineTerminator lo = false
    /\ hexByte [hi; lo] = b.
Proof.
  intros Hb.
  pose proof hex_of_byte_check as Hall.
  rewrite forallb_forall in Hall.
  specialize (Hall b).
  assert (Hin : In b (map Z.of_nat (seq 0 256))).
  { apply in_map_iff; exists (Z.to_nat b); split; [lia|].
    apply in_seq; lia. }
  apply Hall in Hin.
  destruct (Page.padStart 2 48 (toStringRadix16 b)) as [|hi [|lo [|]]];
    try discriminate.
  exists hi, lo.
  apply andb_prop in Hin; destruct Hin as [Hin Hbyte].
  apply andb_prop in Hin; destruct Hin as [Hhi Hlo].
  apply negb_true_iff in Hhi, Hlo.
  apply Z.eqb_eq in Hbyte.
  auto.
Qed.

Lemma matchPairs_masterSeedHex (masterSeed : list Z) :
  Forall (fun b => 0 <= b < 256) masterSeed ->
  map hexByte (matchPairs (Page.masterSeedHex masterSeed)) = masterSeed
  /\ List.length (matchPairs (Page.masterSeedHex masterSeed))
     = List.length masterSeed.
Proof.
  induction 1 as [|b rest Hb _ [IH IHlen]]; [split; reflexivity|].
  destruct (hex_of_byte b Hb) as (hi & lo & E & Hhi & Hlo & Hbyte).
  unfold Page.masterSeedHex in *; cbn [map List.concat].
  rewrite E; cbn [app matchPairs]; rewrite Hhi, Hlo.
  cbn [map List.length]; rewrite IH, IHlen, Hbyte; split; reflexivity.
Qed.

(** The hexadecimal string the page makes of the digest decodes, inside
    the derivation, to the bytes of the digest; the value derived from it
    is the mix of those bytes. *)
Theorem masterSeedHex_round_trip (masterSeed : list Z) :
  masterSeed <> [] ->
  Forall (fun b => 0 <= b < 256) masterSeed ->
  seedBytesOf (Page.masterSeedHex masterSeed) = inr masterSeed
  /\ forall now context step,
       deriveGameRandom now (VString (Page.masterSeedHex masterSeed)) context step
       = Reference.deriveFromBytes masterSeed
           (snd (fst (validate now (VString (Page.masterSeedHex masterSeed))
                               context step)))
           (snd (validate now (VString (Page.masterSeedHex masterSeed))
                          context step)).
Proof.
  intros Hne Hbytes.
  destruct (matchPairs_masterSeedHex masterSeed Hbytes) as [Hmap Hlen].
  assert (Hpairs : matchPairs (Page.masterSeedHex masterSeed) <> []).
  { intros E; rewrite E in Hlen; destruct masterSeed; [congruence | discriminate]. }
  assert (Hseed : seedBytesOf (Page.masterSeedHex masterSeed) = inr masterSeed)
    by (rewrite (seedBytesOf_pairs _ Hpairs), Hmap; reflexivity).
  split; [exact Hseed|].
  intros now context step.
  assert (Hhex : Page.masterSeedHex masterSeed <> [])
    by (intros E; rewrite E in Hpairs; apply Hpairs; reflexivity).
  unfold deriveGameRandom, validate.
  destruct (Page.masterSeedHex masterSeed) as [|c hexRest] eqn:Ehex;
    [congruence|].
  cbn [truthy typeof typeTag_eqb negb orb asString fst snd].
  rewrite (deriveTry_deriveFromBytes _ _ _ _ Hseed); reflexivity.
Qed.

Lemma masterSeedHex_round_trip_witness :
  seedBytesOf (Page.masterSeedHex [0; 171; 255; 16]) = inr [0; 171; 255; 16].
Proof.
  apply (proj1 (masterSeedHex_round_trip [0; 171; 255; 16]
                  ltac:(discriminate)
                  ltac:(repeat constructor; lia))).
Defined.

End MasterSeed.

(** ** What the mixing loop reads *)

Section MixReads.

Lemma fold_left_ext_in {A B : Type} (f g : A -> B -> A) (l : list B) :
  (forall a x, In x l -> f a x = g a x) ->
  forall a, fold_left f l a = fold_left g l a.
Proof.
  induction l as [|x l IH]; intros H a; [reflexivity|].
  simpl; rewrite (H a x (or_introl eq_refl)).
  apply IH; intros; apply H; right; assumption.
Qed.

(** The loop reads the context bytes only at the indices below its
    bound: two byte sequences that are long enough and agree there give
    the same hash. *)
Lemma mix_context_prefix (seedBytes contextBytes contextBytes' : list Z) :
  let n := Nat.min 32 (List.length seedBytes) in
  (n <= List.length contextBytes)%nat ->
  (n <= List.length contextBytes')%nat ->
  firstn n contextBytes = firstn n contextBytes' ->
  mix seedBytes contextBytes = mix seedBytes contextBytes'.
Proof.
  intros n Hlen Hlen' Hprefix; unfold mix.
  replace (Z.to_nat (Z.min (Z.of_nat (List.length seedBytes)) 32)) with n
    by (unfold n; lia).
  apply fold_left_ext_in.
  intros hash i Hin.
  apply in_map_iff in Hin; destruct Hin as (k & <- & Hk).
  apply in_seq in Hk.
  assert (Hread : forall cb : list Z, (n <= List.length cb)%nat ->
            arrayGet cb (jsRem (Z.of_nat k) (Z.of_nat (List.length cb)))
            = nth_error (firstn n cb) k).
  { intros cb Hcb. unfold jsRem.
    rewrite Z.rem_small by lia.
    rewrite arrayGet_of_nat, nth_error_firstn.
    destruct (Nat.ltb_spec k n); [reflexivity | lia]. }
  unfold mixStep.
  rewrite (Hread contextBytes Hlen), (Hread contextBytes' Hlen'), Hprefix.
  reflexivity.
Qed.

(** The loop reads the seed bytes only below index 32. *)
Lemma mix_seed_prefix (seedBytes tail contextBytes : list Z) :
  List.length seedBytes = 32%nat ->
  mix (seedBytes ++ tail) contextBytes = mix seedBytes contextBytes.
Proof.
  intros Hlen; unfold mix.
  rewrite length_app, Hlen.
  replace (Z.to_nat (Z.min (Z.of_nat (32 + List.length tail)) 32)) with 32%nat by lia.
  replace (Z.to_nat (Z.min (Z.of_nat 32) 32)) with 32%nat by lia.
  apply fold_left_ext_in.
  intros hash i Hin.
  apply in_map_iff in Hin; destruct Hin as (k & <- & Hk).
  apply in_seq in Hk.
  unfold mixStep.
  rewrite !arrayGet_of_nat, nth_error_app1 by lia.
  reflexivity.
Qed.

Lemma utf8Encode_cons (c : Z) (rest : jsstring) :
  utf8Encode (c :: rest)
  = if isHighSurrogate c then
      match rest with
      | d :: rest' =>
          if isLowSurrogate d
          then utf8Of (65536 + (c - 55296) * 1024 + (d - 56320))
                 ++ utf8Encode rest'
          else utf8Of 65533 ++ utf8Encode rest
      | [] => utf8Of 65533
      end
    else if isLowSurrogate c then utf8Of 65533 ++ utf8Encode rest
    else utf8Of c ++ utf8Encode rest.
Proof. reflexivity. Qed.

(** The encoding of a string goes through a concatenation whose second
    part does not start with a low surrogate. *)
Lemma utf8Encode_app_aux (d : Z) (b : jsstring) :
  isLowSurrogate d = false ->
  forall a : jsstring,
    utf8Encode (a ++ d :: b) = utf8Encode a ++ utf8Encode (d :: b)
    /\ forall c, utf8Encode (c :: a ++ d :: b)
                 = utf8Encode (c :: a) ++ utf8Encode (d :: b).
Proof.
  intros Hd.
  induction a as [|e a' [IH1 IH2]].
  - split; [reflexivity|].
    intros c; cbn [app].
    rewrite (utf8Encode_cons c (d :: b)), (utf8Encode_cons c []), Hd.
    change (utf8Encode []) with (@nil Z); rewrite !app_nil_r.
    destruct (isHighSurrogate c); [reflexivity|].
    destruct (isLowSurrogate c); reflexivity.
  - split; [apply IH2|].
    intros c; cbn [app].
    rewrite (utf8Encode_cons c (e :: a' ++ d :: b)), (utf8Encode_cons c (e :: a')).
    destruct (isHighSurrogate c).
    + destruct (isLowSurrogate e).
      * rewrite IH1, app_assoc; reflexivity.
      * rewrite IH2, app_assoc; reflexivity.
    + destruct (isLowSurrogate c); rewrite IH2, app_assoc; reflexivity.
Qed.

Lemma utf8Encode_context (context : jsstring) (step : number) :
  utf8Encode (context ++ lit "-" ++ numberToString step)
  = utf8Encode context ++ utf8Encode (lit "-" ++ numberToString step).
Proof.
  change (lit "-" ++ numberToString step) with (45 :: numberToString step).
  apply utf8Encode_app_aux; reflexivity.
Qed.

(** A context of 32 bytes or more hides the index: every index, valid or
    not, gives the value of every other. *)
Theorem long_context_ignores_index (now : Z) (seedHex : value)
    (context : jsstring) (step step' : value) :
  (32 <= List.length (utf8Encode context))%nat ->
  deriveGameRandom now seedHex (VString context) step
  = deriveGameRandom now seedHex (VString context) step'.
Proof.
  intros Hlong.
  assert (Hne : context <> []) by (intros ->; simpl in Hlong; lia).
  unfold deriveGameRandom, validate.
  destruct context as [|c rest]; [congruence|].
  cbn [truthy typeof typeTag_eqb negb orb asString].
  set (context := c :: rest) in *.
  set (s := asString _).
  set (i := asNumber _); set (i' := asNumber _).
  destruct (seedBytesOf_returns s) as [seedBytes Hs].
  rewrite !(deriveTry_deriveFromBytes _ _ _ _ Hs).
  unfold Reference.deriveFromBytes.
  rewrite !utf8Encode_context.
  f_equal; f_equal.
  apply mix_context_prefix;
    rewrite ?length_app; try lia.
  rewrite !firstn_app.
  replace (Nat.min 32 (List.length seedBytes) - List.length (utf8Encode context))%nat
    with 0%nat by lia.
  reflexivity.
Qed.

Lemma long_context_ignores_index_witness :
  deriveGameRandom 0 (VString (lit "00ff"))
    (VString (lit "flip-0c6ad7be-4f3c-4a5e-9d52-7e1b6a0f3c11")) (VNumber (Num 1))
  = deriveGameRandom 0 (VString (lit "00ff"))
      (VString (lit "flip-0c6ad7be-4f3c-4a5e-9d52-7e1b6a0f3c11")) (VNumber (Num 99)).
Proof.
  apply long_context_ignores_index.
  vm_compute; lia.
Defined.

End MixReads.

Section SeedTail.

Lemma matchPairs_app_even (n : nat) :
  forall (s t : jsstring),
    List.length s = (2 * n)%nat ->
    Forall (fun c => isLineTerminator c = false) s ->
    matchPairs (s ++ t) = matchPairs s ++ matchPairs t
    /\ List.length (matchPairs s) = n.
Proof.
  induction n as [|n IH]; intros s t Hlen Hline.
  - destruct s; [split; reflexivity | discriminate].
  - destruct s as [|a [|b s']]; try (simpl in Hlen; lia).
    inversion Hline as [|? ? Ha Hline']; subst.
    inversion Hline' as [|? ? Hb Hline'']; subst.
    destruct (IH s' t) as [IHapp IHlen]; [simpl in Hlen; lia | assumption |].
    cbn [app matchPairs]; rewrite Ha, Hb.
    cbn [app List.length]; rewrite IHapp, IHlen; split; reflexivity.
Qed.

(** Of a seed whose first 64 characters hold no line terminator, only
    those 64 characters count: whatever follows them changes nothing. *)
Theorem seed_beyond_64_ignored (now : Z) (seedHex tail : jsstring)
    (context step : value) :
  List.length seedHex = 64%nat ->
  Forall (fun c => isLineTerminator c = false) seedHex ->
  deriveGameRandom now (VString (seedHex ++ tail)) context step
  = deriveGameRandom now (VString seedHex) context step.
Proof.
  intros Hlen Hline.
  destruct (matchPairs_app_even 32 seedHex tail Hlen Hline) as [Happ Hpairs].
  assert (Hshort : seedBytesOf seedHex = inr (map hexByte (matchPairs seedHex))).
  { apply seedBytesOf_pairs; intros E; rewrite E in Hpairs; discriminate. }
  assert (Hfull : seedBytesOf (seedHex ++ tail)
                  = inr (map hexByte (matchPairs seedHex)
                           ++ map hexByte (matchPairs tail))).
  { rewrite seedBytesOf_pairs, Happ, map_app; [reflexivity|].
    rewrite Happ; intros E; apply app_eq_nil in E; destruct E as [E _].
    rewrite E in Hpairs; discriminate. }
  destruct seedHex as [|c rest]; [discriminate|].
  unfold deriveGameRandom, validate.
  cbn [app truthy typeof typeTag_eqb negb orb asString].
  set (context' := asString _); set (step' := asNumber _).
  change (c :: rest ++ tail) with ((c :: rest) ++ tail).
  rewrite (deriveTry_deriveFromBytes _ _ _ _ Hfull),
    (deriveTry_deriveFromBytes _ _ _ _ Hshort).
  unfold Reference.deriveFromBytes.
  rewrite mix_seed_prefix by (rewrite length_map; exact Hpairs).
  reflexivity.
Qed.

Lemma seed_beyond_64_ignored_witness :
  deriveGameRandom 0
    (VString (lit "00112233445566778899aabbccddeeff00112233445566778899aabbccddeeff"
              ++ lit "0123"))
    (VString (lit "flip-s1")) (VNumber (Num 3))
  = deriveGameRandom 0
      (VString (lit "00112233445566778899aabbccddeeff00112233445566778899aabbccddeeff"))
      (VString (lit "flip-s1")) (VNumber (Num 3)).
Proof.
  apply seed_beyond_64_ignored.
  - reflexivity.
  - repeat constructor.
Defined.

End SeedTail.

(** ** The counters of the engines *)

Section Counters.

Variable session : GameSession.
Variables player1 player2 masterSeed : jsstring.

Lemma string_eqb_eq (a b : jsstring) : string_eqb a b = true <-> a = b.
Proof.
  unfold string_eqb; destruct (list_eq_dec Z.eq_dec a b); split;
    congruence.
Qed.

Lemma string_eqb_refl (a : jsstring) : string_eqb a a = true.
Proof. apply string_eqb_eq; reflexivity. Qed.

(** Every flip is won by one of the two players. *)
Lemma CoinFlip_winner_is_a_player (now start gameIndex : Z) :
  let game := CoinFlip.resolve session player1 player2 masterSeed now start gameIndex in
  CoinFlip.winner game = player1 \/ CoinFlip.winner game = player2.
Proof.
  unfold CoinFlip.resolve, CoinFlip.tailsPlayer, CoinFlip.headsPlayer;
    cbn [CoinFlip.winner].
  destruct (CoinFlip.belowHalf (derive now masterSeed (lit "flip-" ++ id session) gameIndex));
    destruct (CoinFlip.belowHalf _);
    rewrite ?string_eqb_refl; auto.
  destruct (string_eqb player2 player1); auto.
Qed.

Lemma CoinFlip_countGame_totals (results : list CoinFlip.Result) :
  (forall game, In game results ->
     CoinFlip.winner game = player1 \/ CoinFlip.winner game = player2) ->
  forall batch : CoinFlipView.Stats,
    let after := fold_left (CoinFlipView.countGame player1 player2) results batch in
    CoinFlipView.headsCount after + CoinFlipView.tailsCount after
    = CoinFlipView.headsCount batch + CoinFlipView.tailsCount batch
      + Z.of_nat (List.length results)
    /\ CoinFlipView.player1Wins after + CoinFlipView.player2Wins after
       = CoinFlipView.player1Wins batch + CoinFlipView.player2Wins batch
         + Z.of_nat (List.length results).
Proof.
  induction results as [|game rest IH]; intros Hwin batch; [simpl; lia|].
  cbn [fold_left].
  destruct (IH (fun g Hg => Hwin g (or_intror Hg))
               (CoinFlipView.countGame player1 player2 batch game)) as [IH1 IH2].
  cbv zeta; rewrite IH1, IH2.
  assert (Hgame : CoinFlip.winner game = player1 \/ CoinFlip.winner game = player2)
    by (apply Hwin; left; reflexivity).
  unfold CoinFlipView.countGame.
  destruct (CoinFlip.result game);
    destruct (string_eqb (CoinFlip.winner game) player1) eqn:E1;
    destruct (string_eqb (CoinFlip.winner game) player2) eqn:E2;
    cbn [CoinFlipView.headsCount CoinFlipView.tailsCount
         CoinFlipView.player1Wins CoinFlipView.player2Wins List.length];
    try (split; lia);
    destruct Hgame as [H | H]; rewrite H, string_eqb_refl in *; discriminate.
Qed.

(** The counters of the coin-flip engine stay in step with its progress:
    from the initial state on, after every batch, heads and tails add up
    to the number of games processed, so do the wins of the two players,
    and the history holds one entry per game. *)
Theorem coin_flip_counters_in_step (now batchSize : Z) (view : CoinFlipView.View) :
  CoinFlipView.headsCount (CoinFlipView.stats view)
  + CoinFlipView.tailsCount (CoinFlipView.stats view) = CoinFlipView.processed view ->
  CoinFlipView.player1Wins (CoinFlipView.stats view)
  + CoinFlipView.player2Wins (CoinFlipView.stats view) = CoinFlipView.processed view ->
  Z.of_nat (List.length (CoinFlipView.allFlips view)) = CoinFlipView.processed view ->
  let view' :=
    CoinFlipView.processBatch session player1 player2 masterSeed now batchSize view in
  CoinFlipView.headsCount (CoinFlipView.stats view')
  + CoinFlipView.tailsCount (CoinFlipView.stats view') = CoinFlipView.processed view'
  /\ CoinFlipView.player1Wins (CoinFlipView.stats view')
     + CoinFlipView.player2Wins (CoinFlipView.stats view') = CoinFlipView.processed view'
  /\ Z.of_nat (List.length (CoinFlipView.allFlips view')) = CoinFlipView.processed view'
  /\ CoinFlipView.processed view' <= Z.max (CoinFlipView.processed view) (count session).
Proof.
  intros Hfaces Hwins Hflips view'.
  unfold view', CoinFlipView.processBatch.
  set (currentBatch := Z.min batchSize (count session - CoinFlipView.processed view)).
  destruct (Z.leb_spec currentBatch 0) as [Hle | Hgt]; [repeat split; lia|].
  set (results := snd (CoinFlip.processBatch _ _ _ _ _ _ _)).
  assert (Hresults : results =
            map (fun i => CoinFlip.resolve session player1 player2 masterSeed now
                            (CoinFlipView.processed view)
                            (CoinFlipView.processed view + Z.of_nat i))
                (seq 0 (Z.to_nat currentBatch))).
  { unfold results, CoinFlip.processBatch, Scheduler.processBatch.
    fold currentBatch.
    destruct (Z.leb_spec currentBatch 0); [lia | reflexivity]. }
  assert (Hlen : Z.of_nat (List.length results) = currentBatch)
    by (rewrite Hresults, length_map, length_seq; lia).
  assert (Hwin : forall game, In game results ->
            CoinFlip.winner game = player1 \/ CoinFlip.winner game = player2).
  { intros game Hin; rewrite Hresults in Hin.
    apply in_map_iff in Hin; destruct Hin as (i & <- & _).
    apply CoinFlip_winner_is_a_player. }
  destruct (CoinFlip_countGame_totals results Hwin
              {| CoinFlipView.headsCount := 0; CoinFlipView.tailsCount := 0;
                 CoinFlipView.player1Wins := 0; CoinFlipView.player2Wins := 0 |})
    as [H1 H2].
  cbv zeta in H1, H2.
  cbn [CoinFlipView.stats CoinFlipView.processed CoinFlipView.allFlips
       CoinFlipView.headsCount CoinFlipView.tailsCount
       CoinFlipView.player1Wins CoinFlipView.player2Wins] in *.
  rewrite length_app, length_map.
  repeat split; lia.
Qed.

End Counters.

Lemma coin_flip_counters_in_step_witness :
  let session := {| id := lit "s1"; count := 7; completed := 0 |} in
  let view' :=
    CoinFlipView.processBatch session (lit "Alice") (lit "Bob") (lit "00ff1234")
      0 3 CoinFlipView.initial in
  CoinFlipView.headsCount (CoinFlipView.stats view')
  + CoinFlipView.tailsCount (CoinFlipView.stats view') = CoinFlipView.processed view'.
Proof.
  intros session view'.
  apply (coin_flip_counters_in_step session (lit "Alice") (lit "Bob") (lit "00ff1234")
           0 3 CoinFlipView.initial); reflexivity.
Defined.

Section RPSCounters.

Variable session : GameSession.
Variables player1 player2 masterSeed : jsstring.

Hypothesis player1_named : player1 <> lit "Tie".
Hypothesis player2_named : player2 <> lit "Tie".

Lemma string_eqb_neq (a b : jsstring) : a <> b -> string_eqb a b = false.
Proof.
  intros H; destruct (string_eqb a b) eqn:E; [|reflexivity].
  apply string_eqb_eq in E; contradiction.
Qed.

(** What one game adds to the counters. *)
Lemma RPS_countGame_step (prev : RPSView.Stats) (game : RPS.Result)
    (move1 move2 : RPS.Move) :
  RPS.player1Move game = Some move1 ->
  RPS.player2Move game = Some move2 ->
  RPS.winner game = RPS.determineWinner player1 player2 (Some move1) (Some move2) ->
  let after := RPSView.countGame player1 player2 prev game in
  RPSView.player1Wins after + RPSView.player2Wins after + RPSView.ties after
  = RPSView.player1Wins prev + RPSView.player2Wins prev + RPSView.ties prev + 1
  /\ RPSView.rockCount after + RPSView.paperCount after + RPSView.scissorsCount after
     + RPSView.ties after
     = RPSView.rockCount prev + RPSView.paperCount prev + RPSView.scissorsCount prev
       + RPSView.ties prev + 2.
Proof.
  intros H1 H2 Hw after; unfold after, RPSView.countGame.
  rewrite H1, H2, Hw.
  pose proof (string_eqb_neq _ _ (not_eq_sym player1_named)) as Ht1.
  pose proof (string_eqb_neq _ _ (not_eq_sym player2_named)) as Ht2.
  destruct move1, move2;
    unfold RPS.determineWinner; cbn [RPS.sameMove RPS.Move_eqb RPS.MOVE_BEATS];
    unfold RPSView.countWinner;
    rewrite ?Ht1, ?Ht2, ?string_eqb_refl;
    try destruct (string_eqb player2 player1);
    cbn; split; lia.
Qed.

Lemma RPS_countGame_fold (results : list RPS.Result) :
  (forall game, In game results ->
     exists move1 move2,
       RPS.player1Move game = Some move1 /\ RPS.player2Move game = Some move2
       /\ RPS.winner game
          = RPS.determineWinner player1 player2 (Some move1) (Some move2)) ->
  forall prev : RPSView.Stats,
    let after := fold_left (RPSView.countGame player1 player2) results prev in
    RPSView.player1Wins after + RPSView.player2Wins after + RPSView.ties after
    = RPSView.player1Wins prev + RPSView.player2Wins prev + RPSView.ties prev
      + Z.of_nat (List.length results)
    /\ RPSView.rockCount after + RPSView.paperCount after + RPSView.scissorsCount after
       + RPSView.ties after
       = RPSView.rockCount prev + RPSView.paperCount prev + RPSView.scissorsCount prev
         + RPSView.ties prev + 2 * Z.of_nat (List.length results).
Proof.
  induction results as [|game rest IH]; intros Hgames prev; [simpl; lia|].
  destruct (Hgames game (or_introl eq_refl)) as (move1 & move2 & H1 & H2 & Hw).
  destruct (RPS_countGame_step prev game move1 move2 H1 H2 Hw) as [S1 S2].
  destruct (IH (fun g Hg => Hgames g (or_intror Hg))
               (RPSView.countGame player1 player2 prev game)) as [IH1 IH2].
  cbv zeta in *; cbn [fold_left List.length].
  rewrite IH1, IH2, S1, S2; split; lia.
Qed.

End RPSCounters.

(** The counters of the rock-paper-scissors engine.  When neither player
    is called "Tie", a batch adds one to wins-plus-ties per game, and to
    the three move counters together it adds two per game less one per
    tie: the two moves of a tied game are the same and are counted
    once. *)
Theorem rps_move_counters (session : GameSession)
    (player1 player2 masterSeed : jsstring) (now processed batchSize : Z)
    (prev : RPSView.Stats) :
  player1 <> lit "Tie" ->
  player2 <> lit "Tie" ->
  let games :=
    Z.of_nat (List.length (snd (RPS.processBatch session player1 player2 masterSeed
                                  now processed batchSize))) in
  let after :=
    RPSView.statsAfterBatch player1 player2 session masterSeed
                            now processed batchSize prev in
  RPSView.player1Wins after + RPSView.player2Wins after + RPSView.ties after
  = RPSView.player1Wins prev + RPSView.player2Wins prev + RPSView.ties prev + games
  /\ (RPSView.rockCount after + RPSView.paperCount after + RPSView.scissorsCount after)
     - (RPSView.rockCount prev + RPSView.paperCount prev + RPSView.scissorsCount prev)
     = 2 * games - (RPSView.ties after - RPSView.ties prev).
Proof.
  intros Hp1 Hp2 games after.
  assert (Hgames : forall game,
            In game (snd (RPS.processBatch session player1 player2 masterSeed
                            now processed batchSize)) ->
            exists move1 move2,
              RPS.player1Move game = Some move1 /\ RPS.player2Move game = Some move2
              /\ RPS.winner game
                 = RPS.determineWinner player1 player2 (Some move1) (Some move2)).
  { intros game Hin.
    unfold RPS.processBatch, Scheduler.processBatch in Hin.
    destruct (_ <=? 0) in Hin; [contradiction|].
    cbn [snd] in Hin.
    apply in_map_iff in Hin; destruct Hin as (i & <- & _).
    set (k := processed + Z.of_nat i).
    destruct (deriveGameRandom_bounds now (VString masterSeed)
                (VString (lit "rps-p1-" ++ id session)) (VNumber (Num k)))
      as [H1 H2].
    destruct (deriveGameRandom_bounds now (VString masterSeed)
                (VString (lit "rps-p2-" ++ id session)) (VNumber (Num k)))
      as [H3 H4].
    destruct (move_defined _ H1 H2) as [move1 E1].
    destruct (move_defined _ H3 H4) as [move2 E2].
    exists move1, move2.
    unfold RPS.resolve, derive;
      cbn [RPS.player1Move RPS.player2Move RPS.winner].
    rewrite E1, E2; auto. }
  destruct (RPS_countGame_fold player1 player2 Hp1 Hp2 _ Hgames prev) as [F1 F2].
  cbv zeta in F1, F2.
  unfold after, RPSView.statsAfterBatch, games.
  split; lia.
Qed.

Lemma rps_move_counters_witness :
  let session := {| id := lit "s1"; count := 40; completed := 0 |} in
  let masterSeed :=
    lit "0000000000000000000000000000000000000000000000000000000000000000" in
  let prev :=
    {| RPSView.player1Wins := 0; RPSView.player2Wins := 0; RPSView.ties := 0;
       RPSView.rockCount := 0; RPSView.paperCount := 0;
       RPSView.scissorsCount := 0 |} in
  let after :=
    RPSView.statsAfterBatch (lit "Alice") (lit "Bob") session masterSeed 0 0 5 prev in
  RPSView.player1Wins after + RPSView.player2Wins after + RPSView.ties after = 5
  /\ RPSView.rockCount after + RPSView.paperCount after + RPSView.scissorsCount after
     = 10 - RPSView.ties after.
Proof.
  intros session masterSeed prev after.
  destruct (rps_move_counters session (lit "Alice") (lit "Bob") masterSeed 0 0 5 prev)
    as [Hgames Hmoves]; [discriminate | discriminate |].
  cbv zeta in Hgames, Hmoves.
  fold after in Hgames, Hmoves.
  change (Z.of_nat (List.length
            (snd (RPS.processBatch session (lit "Alice") (lit "Bob") masterSeed 0 0 5))))
    with 5 in Hgames, Hmoves.
  unfold prev in Hgames, Hmoves; cbn [RPSView.player1Wins RPSView.player2Wins
    RPSView.ties RPSView.rockCount RPSView.paperCount RPSView.scissorsCount]
    in Hgames, Hmoves.
  split; lia.
Defined.

(** ** The wheel *)

(** Every spin lands on one of the eight segments, so the segment read is
    never [undefined] and the spin never raises; the first player wins on
    the segments of even index (A, C, E, G), the second on the others. *)
Theorem wheel_spin_lands (session : GameSession)
    (player1 player2 masterSeed : jsstring) (now gameIndex : Z) :
  let spinRandom :=
    derive now masterSeed (lit "wheel-spin-" ++ id session) gameIndex in
  let segmentIndex := Qfloor (spinRandom * (8 # 1)) in
  0 <= segmentIndex <= 7
  /\ exists result landed,
       Wheel.spin session player1 player2 masterSeed now gameIndex = Some result
       /\ arrayGet Wheel.WHEEL_SEGMENTS segmentIndex = Some landed
       /\ Wheel.segment result = Wheel.label landed
       /\ Wheel.winner result
          = (if Z.even segmentIndex then player1 else player2).
Proof.
  intros spinRandom segmentIndex.
  destruct (deriveGameRandom_bounds now (VString masterSeed)
              (VString (lit "wheel-spin-" ++ id session)) (VNumber (Num gameIndex)))
    as [Hlo Hhi].
  fold (derive now masterSeed (lit "wheel-spin-" ++ id session) gameIndex) in Hlo, Hhi.
  fold spinRandom in Hlo, Hhi.
  pose proof (floor_scaled_bounds spinRandom 8 Hlo Hhi) as Hidx.
  change (Qfloor ((999999 # 1000000) * (8 # 1))) with 7 in Hidx.
  fold segmentIndex in Hidx.
  split; [exact Hidx|].
  unfold Wheel.spin; fold spinRandom.
  change (Z.of_nat (List.length Wheel.WHEEL_SEGMENTS)) with 8.
  fold segmentIndex.
  assert (Hcases : segmentIndex = 0 \/ segmentIndex = 1 \/ segmentIndex = 2
                   \/ segmentIndex = 3 \/ segmentIndex = 4 \/ segmentIndex = 5
                   \/ segmentIndex = 6 \/ segmentIndex = 7) by lia.
  clearbody segmentIndex.
  destruct Hcases as [-> | [-> | [-> | [-> | [-> | [-> | [-> | ->]]]]]]];
    do 2 eexists; repeat split; reflexivity.
Qed.

(** ** The audit of the derived values *)

Section AuditBuckets.

Variable now : Z.
Variable masterSeed : jsstring.

Lemma one_bucket_counts (b : Z) :
  0 <= b <= 9 ->
  fold_right Z.add 0
    (map (fun i => if b =? Z.of_nat i then 1 else 0) (seq 0 10)) = 1.
Proof.
  intros Hb.
  assert (Hcases : b = 0 \/ b = 1 \/ b = 2 \/ b = 3 \/ b = 4 \/ b = 5
                   \/ b = 6 \/ b = 7 \/ b = 8 \/ b = 9) by lia.
  destruct Hcases as [-> | [-> | [-> | [-> | [-> | [-> | [-> | [-> | [-> | ->]]]]]]]]];
    reflexivity.
Qed.

(** Samples whose bucket is a digit are each counted in exactly one
    bucket. *)
Lemma distributionStats_total (samples : list Audit.Sample) :
  Forall (fun r => 0 <= Audit.bucket r <= 9) samples ->
  fold_right Z.add 0 (map Audit.count (Audit.distributionStats samples))
  = Audit.totalGames samples.
Proof.
  unfold Audit.distributionStats, Audit.totalGames.
  rewrite map_map; cbn [Audit.count].
  induction 1 as [|r rest Hr _ IH]; [reflexivity|].
  cbn [filter List.length].
  rewrite Nat2Z.inj_succ, <- IH, <- Z.add_1_l, <- (one_bucket_counts _ Hr).
  generalize (seq 0 10); intros l.
  induction l as [|i l IHl]; [reflexivity|].
  cbn [map fold_right]; rewrite IHl.
  destruct (Audit.bucket r =? Z.of_nat i); cbn [List.length]; lia.
Qed.

Lemma samples_bucketed (sessions : list Page.Session) :
  Forall (fun r => 0 <= Audit.bucket r <= 9)
         (Audit.randomnessDistribution now masterSeed sessions).
Proof.
  unfold Audit.randomnessDistribution.
  apply Forall_forall; intros r Hin.
  apply in_flat_map in Hin; destruct Hin as (session & _ & Hin).
  unfold Audit.samplesOf in Hin.
  apply in_map_iff in Hin; destruct Hin as (i & <- & _).
  cbn [Audit.bucket].
  set (context := Page.type session ++ lit "-" ++ Page.id session).
  destruct (deriveGameRandom_bounds now (VString masterSeed) (VString context)
              (VNumber (Num (Z.of_nat i)))) as [Hlo Hhi].
  pose proof (floor_scaled_bounds _ 10 Hlo Hhi) as Hb.
  change (Qfloor ((999999 # 1000000) * (10 # 1))) with 9 in Hb.
  exact Hb.
Qed.

(** In the audit panel every derived value falls in one of the ten
    buckets 0..9, and the ten counts of the distribution add up to the
    number of audited games, one per stored result of every session. *)
Theorem audit_buckets_cover (sessions : list Page.Session) :
  let samples := Audit.randomnessDistribution now masterSeed sessions in
  Forall (fun r => 0 <= Audit.bucket r <= 9) samples
  /\ fold_right Z.add 0 (map Audit.count (Audit.distributionStats samples))
     = Audit.totalGames samples
  /\ Audit.totalGames samples
     = fold_right Z.add 0
         (map (fun s => Z.of_nat (List.length (Page.results s))) sessions).
Proof.
  intros samples.
  split; [apply samples_bucketed|].
  split; [apply distributionStats_total, samples_bucketed|].
  unfold samples, Audit.totalGames, Audit.randomnessDistribution.
  induction sessions as [|s rest IH]; [reflexivity|].
  cbn [flat_map map fold_right].
  rewrite length_app, Nat2Z.inj_add, IH.
  unfold Audit.samplesOf; rewrite length_map, length_seq; reflexivity.
Qed.

End AuditBuckets.

(** ** The image of a card *)

(** The image of a card that has a suit and a rank names both: two such
    cards with the same image are the same card, and none of them is
    shown as the back of a card.  The ten is written "T". *)
Theorem card_image_injective (card1 card2 : HighCard.PlayingCard)
    (suit1 suit2 : HighCard.Suit) (rank1 rank2 : HighCard.Rank) :
  HighCard.suit card1 = Some suit1 -> HighCard.rank card1 = Some rank1 ->
  HighCard.suit card2 = Some suit2 -> HighCard.rank card2 = Some rank2 ->
  (CardImage.getCardSvgPath (Some card1) = CardImage.getCardSvgPath (Some card2) ->
   suit1 = suit2 /\ rank1 = rank2)
  /\ CardImage.getCardSvgPath (Some card1) <> CardImage.getCardSvgPath None
  /\ CardImage.getCardSvgPath (Some card1)
     = lit "/cards/" ++ CardImage.rankMap rank1 ++ CardImage.suitMap suit1 ++ lit ".svg".
Proof.
  intros Hs1 Hr1 Hs2 Hr2.
  unfold CardImage.getCardSvgPath; rewrite Hs1, Hr1, Hs2, Hr2.
  split; [|split; [|reflexivity]].
  - intros H; apply app_inv_head in H.
    destruct rank1, rank2; try discriminate H;
      destruct suit1, suit2; try discriminate H; split; reflexivity.
  - destruct rank1, suit1; discriminate.
Qed.

Lemma card_image_injective_witness :
  let ten := {| HighCard.suit := Some HighCard.Heart;
                HighCard.rank := Some HighCard.R10;
                HighCard.value := Some 10 |} in
  CardImage.getCardSvgPath (Some ten) = lit "/cards/TH.svg".
Proof.
  intros ten.
  apply (proj2 (proj2 (card_image_injective ten ten HighCard.Heart HighCard.Heart
                         HighCard.R10 HighCard.R10
                         eq_refl eq_refl eq_refl eq_refl))).
Defined.

(** ** The sessions of the page *)

Section Sessions.

Variables player1 player2 masterSeed : jsstring.

Lemma winnerless_results_filter (player : jsstring) (results : list Page.StoredResult) :
  Forall (fun r => Page.winnerOf r = None) results ->
  filter (Page.wonBy player) results = [].
Proof.
  induction 1 as [|r rest Hr _ IH]; [reflexivity|].
  cbn [filter]; unfold Page.wonBy at 1; rewrite Hr; exact IH.
Qed.

Lemma winnerless_results_tie (gameType : jsstring) (results : list Page.StoredResult) :
  results <> [] ->
  Forall (fun r => Page.winnerOf r = None) results ->
  Page.determineSessionWinner player1 player2 gameType results = lit "Tie".
Proof.
  intros Hne Hall.
  unfold Page.determineSessionWinner.
  rewrite !(winnerless_results_filter _ _ Hall).
  destruct results; [congruence | reflexivity].
Qed.

(** One firing of the coin-flip engine: the page appends the array of the
    batch as one stored result, which has no [winner]; when the session
    completes its winner is therefore "Tie", whatever the flips were. *)
Theorem coin_flip_session_declared_tie (now batchSize processed : Z)
    (session : Page.Session) (sessions : list Page.Session) :
  processed < Page.count session ->
  1 <= batchSize ->
  Forall (fun s => Page.id s = Page.id session ->
                   Page.count s = Page.count session
                   /\ Forall (fun r => Page.winnerOf r = None) (Page.results s))
         sessions ->
  let after :=
    Page.coinFlipTick player1 player2 masterSeed now session batchSize processed
                      sessions in
  fst after = processed + Z.min batchSize (Page.count session - processed)
  /\ Forall (fun s' =>
               Page.id s' = Page.id session ->
               Forall (fun r => Page.winnerOf r = None) (Page.results s')
               /\ Page.completed s' = fst after
               /\ (Page.count session <= fst after ->
                   Page.winner s' = Some (lit "Tie") /\ Page.isRunning s' = false)
               /\ (fst after < Page.count session ->
                   Page.winner s' = None /\ Page.isRunning s' = true))
            (snd after).
Proof.
  intros Hp Hb Hall after.
  unfold after, Page.coinFlipTick.
  destruct (Z.leb_spec (Page.count session) processed); [lia|].
  unfold CoinFlip.processBatch, Scheduler.processBatch.
  change (count (Page.asGameSession session)) with (Page.count session).
  set (currentBatch := Z.min batchSize (Page.count session - processed)).
  destruct (Z.leb_spec currentBatch 0); [unfold currentBatch in *; lia|].
  destruct (Z.to_nat currentBatch) as [|n] eqn:En; [lia|].
  cbn [seq map fst snd].
  set (games := _ :: _).
  split; [reflexivity|].
  unfold Page.updateSessionProgress.
  apply Forall_forall; intros s' Hin Hid.
  apply in_map_iff in Hin; destruct Hin as (s & <- & Hin).
  rewrite Forall_forall in Hall; specialize (Hall s Hin).
  unfold Page.updateSession in *.
  destruct (string_eqb (Page.id s) (Page.id session)) eqn:Eid.
  - apply string_eqb_eq in Eid; destruct (Hall Eid) as [Hcount Hres].
    cbn [Page.results Page.completed Page.winner Page.isRunning Page.id].
    assert (Hres' : Forall (fun r => Page.winnerOf r = None)
                           (Page.results s ++ [Page.CoinFlipBatch games]))
      by (apply Forall_app; split; [assumption | repeat constructor]).
    rewrite Hcount.
    split; [exact Hres'|]. split; [reflexivity|].
    split; intros Hdone.
    + destruct (Z.leb_spec (Page.count session) (processed + currentBatch)); [|lia].
      rewrite winnerless_results_tie; [split; reflexivity | | exact Hres'].
      intros E; apply app_eq_nil in E; destruct E; discriminate.
    + destruct (Z.leb_spec (Page.count session) (processed + currentBatch)); [lia|].
      split; reflexivity.
  - apply string_eqb_eq in Hid; congruence.
Qed.

End Sessions.

Lemma coin_flip_session_declared_tie_witness :
  let session :=
    {| Page.id := lit "s1"; Page.type := lit "coin-flip"; Page.count := 3;
       Page.completed := 0; Page.results := []; Page.isRunning := true;
       Page.winner := None |} in
  let after :=
    Page.coinFlipTick (lit "Alice") (lit "Bob") (lit "00ff1234") 0 session 5 0
                      [session] in
  Forall (fun s' => Page.id s' = Page.id session ->
                    Page.winner s' = Some (lit "Tie") /\ Page.isRunning s' = false)
         (snd after).
Proof.
  intros session after.
  destruct (coin_flip_session_declared_tie (lit "Alice") (lit "Bob") (lit "00ff1234")
              0 5 0 session [session]) as [Hfst Hall].
  - unfold session; simpl; lia.
  - lia.
  - repeat constructor.
  - fold after in Hfst, Hall.
    eapply Forall_impl; [|exact Hall].
    intros s' H Hid; destruct (H Hid) as (_ & _ & Hdone & _).
    apply Hdone; rewrite Hfst; unfold session; simpl; lia.
Defined.

Section RPSSessions.

Variables player1 player2 masterSeed : jsstring.
Variable session : Page.Session.

Lemma nth_error_map_seq {A : Type} (f : nat -> A) (n k : nat) :
  (k < n)%nat -> nth_error (map f (seq 0 n)) k = Some (f k).
Proof.
  intros Hk.
  apply map_nth_error.
  rewrite (nth_error_nth' (seq 0 n) 0%nat) by (rewrite length_seq; exact Hk).
  rewrite seq_nth by exact Hk; reflexivity.
Qed.

(** A firing that finds games left hands the page the last game of its
    batch and the new counter. *)
Lemma rpsTick_unfolded (now processed : Z) (sessions : list Page.Session) :
  processed < Page.count session ->
  let processed' := processed + Z.min 5 (Page.count session - processed) in
  Page.rpsTick player1 player2 masterSeed now session processed sessions
  = (processed',
     Page.updateSessionProgress player1 player2 (Page.id session) processed'
       (Some (Page.RpsGame
                (RPS.resolve (Page.asGameSession session) player1 player2 masterSeed
                             now processed (processed' - 1))))
       sessions).
Proof.
  intros Hp processed'.
  unfold Page.rpsTick.
  destruct (Z.leb_spec (Page.count session) processed); [lia|].
  unfold RPS.processBatch, Scheduler.processBatch.
  change (count (Page.asGameSession session)) with (Page.count session).
  set (currentBatch := Z.min 5 (Page.count session - processed)).
  destruct (Z.leb_spec currentBatch 0); [unfold currentBatch in *; lia|].
  rewrite length_map, length_seq.
  replace (Z.of_nat (Z.to_nat currentBatch) - 1)
    with (Z.of_nat (Z.to_nat currentBatch - 1)) by lia.
  rewrite arrayGet_of_nat, nth_error_map_seq by lia.
  unfold processed'; fold currentBatch.
  replace (processed + Z.of_nat (Z.to_nat currentBatch - 1))
    with (processed + currentBatch - 1) by lia.
  reflexivity.
Qed.

(** Of the games of a batch only the last one reaches the page: a firing
    of the rock-paper-scissors engine that finds games left adds exactly
    one stored result to the session it plays, the game the resolver
    played at the last index of the batch, sets the completed count to
    the new counter, decides the winner when the session is complete, and
    leaves the other sessions as they are. *)
Theorem rps_page_keeps_last_game (now processed : Z) (sessions : list Page.Session) :
  processed < Page.count session ->
  let after :=
    Page.rpsTick player1 player2 masterSeed now session processed sessions in
  fst after = processed + Z.min 5 (Page.count session - processed)
  /\ Forall2
       (fun s s' =>
          if string_eqb (Page.id s) (Page.id session)
          then Page.id s' = Page.id s
               /\ Page.type s' = Page.type s
               /\ Page.count s' = Page.count s
               /\ Page.completed s' = fst after
               /\ Page.results s'
                  = Page.results s
                    ++ [Page.RpsGame
                          (RPS.resolve (Page.asGameSession session) player1
                             player2 masterSeed now processed (fst after - 1))]
               /\ Page.isRunning s' = negb (Page.count s <=? fst after)
               /\ Page.winner s'
                  = (if Page.count s <=? fst after
                     then Some (Page.determineSessionWinner player1 player2
                                  (Page.type s) (Page.results s'))
                     else None)
          else s' = s)
       sessions (snd after).
Proof.
  intros Hp after; unfold after.
  rewrite rpsTick_unfolded by assumption.
  cbn [fst snd]; split; [reflexivity|].
  unfold Page.updateSessionProgress.
  induction sessions as [|s rest IH]; [constructor|].
  cbn [map]; constructor; [|exact IH].
  unfold Page.updateSession.
  destruct (string_eqb (Page.id s) (Page.id session)); [|reflexivity].
  cbn [Page.id Page.type Page.count Page.completed Page.results Page.isRunning
       Page.winner].
  repeat split.
Qed.

End RPSSessions.

Lemma rps_page_keeps_last_game_witness :
  let session :=
    {| Page.id := lit "s1"; Page.type := lit "rock-paper-scissors";
       Page.count := 50; Page.completed := 0; Page.results := [];
       Page.isRunning := true; Page.winner := None |} in
  fst (Page.rpsTick (lit "Alice") (lit "Bob") (lit "00ff1234") 0 session 0 [session])
  = 5.
Proof.
  intros session.
  apply (proj1 (rps_page_keeps_last_game (lit "Alice") (lit "Bob") (lit "00ff1234")
                  session 0 0 [session] ltac:(unfold session; simpl; lia))).
Defined.

(** ** The shuffle of the card engines *)

Section ShuffleDeck.

Context {Card : Type}.

Lemma assign_length (xs : list Card) (i : nat) (x : Card) :
  List.length (Deck.assign xs i x) = List.length xs.
Proof.
  revert i; induction xs as [|y rest IH]; intros [|i]; cbn; auto.
Qed.

Lemma assign_one (xs : list Card) (j : nat) (x y : Card) :
  nth_error xs j = Some y ->
  Permutation (y :: Deck.assign xs j x) (x :: xs).
Proof.
  revert j; induction xs as [|a rest IH]; intros [|j] Hj; cbn in *;
    try discriminate.
  - injection Hj as ->. apply perm_swap.
  - eapply perm_trans; [apply perm_swap|].
    eapply perm_trans; [apply perm_skip, (IH j Hj)|].
    apply perm_swap.
Qed.

(** Exchanging two cells rearranges the array. *)
Lemma assign_two (xs : list Card) (i j : nat) (x y : Card) :
  nth_error xs i = Some x ->
  nth_error xs j = Some y ->
  Permutation xs (Deck.assign (Deck.assign xs i y) j x).
Proof.
  revert i j; induction xs as [|a rest IH]; intros [|i] [|j] Hi Hj; cbn in *;
    try discriminate.
  - injection Hi as ->. injection Hj as ->. reflexivity.
  - injection Hi as ->. symmetry. apply assign_one; exact Hj.
  - injection Hj as ->. symmetry. apply assign_one; exact Hi.
  - apply perm_skip, IH; assumption.
Qed.

Lemma swap_rearranges (shuffled : list Card) (i j : Z) :
  0 <= j <= i ->
  i < Z.of_nat (List.length shuffled) ->
  exists swapped,
    Deck.swap shuffled i j = Some swapped /\ Permutation shuffled swapped.
Proof.
  intros Hj Hi.
  unfold Deck.swap, arrayGet.
  destruct (Z.ltb_spec j 0); [lia|].
  destruct (Z.ltb_spec i 0); [lia|].
  destruct (nth_error shuffled (Z.to_nat j)) as [atJ|] eqn:HatJ;
    [|apply nth_error_None in HatJ; lia].
  destruct (nth_error shuffled (Z.to_nat i)) as [atI|] eqn:HatI;
    [|apply nth_error_None in HatI; lia].
  eexists; split; [reflexivity|].
  apply assign_two; assumption.
Qed.

Lemma shuffleFrom_rearranges (i : nat) :
  forall (seedNum : Z) (shuffled : list Card),
    0 <= seedNum ->
    (i = 0 \/ i < List.length shuffled)%nat ->
    exists result,
      Deck.shuffleFrom i seedNum shuffled = Some result
      /\ Permutation shuffled result.
Proof.
  induction i as [|i IH]; intros seedNum shuffled Hseed Hi.
  - exists shuffled; split; reflexivity.
  - cbn [Deck.shuffleFrom].
    set (seedNum' := jsRem (seedNum * 9301 + 49297) 233280).
    assert (Hseed' : 0 <= seedNum')
      by (apply Z.rem_nonneg; lia).
    assert (Hj : 0 <= jsRem seedNum' (Z.of_nat (S i) + 1) < Z.of_nat (S i) + 1)
      by (apply Z.rem_bound_pos; lia).
    destruct (swap_rearranges shuffled (Z.of_nat (S i))
                (jsRem seedNum' (Z.of_nat (S i) + 1)))
      as (swapped & -> & Hperm); [lia|lia|].
    destruct (IH seedNum' swapped Hseed') as (result & -> & Hperm').
    + right. rewrite <- (Permutation_length Hperm). lia.
    + exists result; split; [reflexivity|].
      eapply perm_trans; eassumption.
Qed.

Lemma charCodeSum_from (seed : jsstring) :
  forall start,
    fold_left (fun seedNum code => seedNum + code) seed start
    = start + Deck.charCodeSum seed.
Proof.
  unfold Deck.charCodeSum.
  induction seed as [|c rest IH]; intros start; cbn [fold_left]; [lia|].
  rewrite (IH (start + c)), (IH (0 + c)); lia.
Qed.

Lemma charCodeSum_cons (c : Z) (seed : jsstring) :
  Deck.charCodeSum (c :: seed) = c + Deck.charCodeSum seed.
Proof.
  unfold Deck.charCodeSum at 1; cbn [fold_left].
  rewrite charCodeSum_from; lia.
Qed.

Lemma charCodeSum_nonneg (seed : jsstring) :
  Forall (fun code => 0 <= code) seed -> 0 <= Deck.charCodeSum seed.
Proof.
  induction 1 as [|c rest Hc _ IH]; [reflexivity|].
  rewrite charCodeSum_cons; lia.
Qed.

Lemma charCodeSum_rearranged (seed1 seed2 : jsstring) :
  Permutation seed1 seed2 -> Deck.charCodeSum seed1 = Deck.charCodeSum seed2.
Proof.
  induction 1 as [|c l l' _ IH|c d l|l l' l'' _ IH1 _ IH2];
    rewrite ?charCodeSum_cons; lia.
Qed.

Lemma charCodeSum_app (seed1 seed2 : jsstring) :
  Deck.charCodeSum (seed1 ++ seed2)
  = Deck.charCodeSum seed1 + Deck.charCodeSum seed2.
Proof.
  induction seed1 as [|c rest IH]; cbn [app]; [reflexivity|].
  rewrite !charCodeSum_cons, IH; lia.
Qed.

(** A shuffle hands back the cards of the deck it was given, each as often
    as the deck has it, whatever the seed, and never reads outside the
    array. *)
Theorem shuffle_rearranges_deck (deck : list Card) (seed : jsstring) :
  Forall (fun code => 0 <= code) seed ->
  exists shuffled,
    Deck.shuffleDeck deck seed = Some shuffled /\ Permutation deck shuffled.
Proof.
  intros Hseed.
  apply shuffleFrom_rearranges; [apply charCodeSum_nonneg; exact Hseed|].
  destruct deck; cbn [List.length]; lia.
Qed.

(** The seed enters a shuffle only through the sum of its code units. *)
Lemma shuffleDeck_code_sum (deck : list Card) (seed1 seed2 : jsstring) :
  Permutation seed1 seed2 ->
  Deck.shuffleDeck deck seed1 = Deck.shuffleDeck deck seed2.
Proof.
  intros Hperm; unfold Deck.shuffleDeck.
  rewrite (charCodeSum_rearranged seed1 seed2 Hperm); reflexivity.
Qed.

End ShuffleDeck.

Lemma lit_nonneg (s : string) : Forall (fun code => 0 <= code) (lit s).
Proof.
  unfold lit; apply Forall_forall; intros c Hc.
  apply in_map_iff in Hc as (a & <- & _); lia.
Qed.

Lemma numberToString_nonneg (n : number) :
  Forall (fun code => 0 <= code) (numberToString n).
Proof.
  destruct n as [z| |[|]]; apply lit_nonneg.
Qed.

Lemma engine_seed_nonneg (masterSeed : jsstring) (tag : string) (gameIndex : Z) :
  Forall (fun code => 0 <= code) masterSeed ->
  Forall (fun code => 0 <= code)
         (masterSeed ++ lit tag ++ numberToString (Num gameIndex)).
Proof.
  intros H; apply Forall_app; split; [exact H|].
  apply Forall_app; split; [apply lit_nonneg|apply numberToString_nonneg].
Qed.

Lemma shuffle_rearranges_deck_witness :
  exists shuffled,
    Deck.shuffleDeck [1; 2; 3; 4] (lit "seed-7") = Some shuffled
    /\ Permutation [1; 2; 3; 4] shuffled.
Proof.
  apply (shuffle_rearranges_deck [1; 2; 3; 4] (lit "seed-7")).
  apply lit_nonneg.
Defined.

Lemma engine_shuffle {Card : Type} (deck : list Card) (masterSeed : jsstring)
      (tag : string) (gameIndex : Z) :
  Forall (fun code => 0 <= code) masterSeed ->
  exists shuffled,
    Deck.shuffleDeck deck (masterSeed ++ lit tag ++ numberToString (Num gameIndex))
    = Some shuffled
    /\ Permutation deck shuffled.
Proof.
  intros Hseed.
  apply shuffleFrom_rearranges;
    [apply charCodeSum_nonneg, engine_seed_nonneg; exact Hseed|].
  destruct deck; cbn [List.length]; lia.
Qed.

Lemma card_eq_dec (a b : Deck.PlayingCard) : {a = b} + {a <> b}.
Proof.
  decide equality;
    try apply Z.eq_dec; decide equality.
Defined.

(** ** Blackjack *)

Section BlackjackScore.

Import Deck.

(** After [k] rounds of the loop the score is [score - 10 k]; the loop
    stops at the first score that is at most 21, or when the aces are
    used up. *)
Lemma whileBust_rounds (aces : nat) :
  forall score,
    exists k : nat,
      (k <= aces)%nat
      /\ Blackjack.whileBust aces score = score - 10 * Z.of_nat k
      /\ (Blackjack.whileBust aces score <= 21 \/ k = aces)
      /\ (forall k' : nat, (k' < k)%nat -> 21 < score - 10 * Z.of_nat k').
Proof.
  induction aces as [|aces IH]; intros score; cbn [Blackjack.whileBust].
  - exists 0%nat; repeat split; lia.
  - destruct (Z.gtb_spec score 21) as [Hgt|Hle].
    + destruct (IH (score - 10)) as (k & Hk & Heq & Hstop & Hbefore).
      exists (S k); repeat split; try lia.
      intros [|k'] Hk'; [lia|].
      specialize (Hbefore k' ltac:(lia)); lia.
    + exists 0%nat; repeat split; try lia.
Qed.

Lemma calculateScore_tally (cards : list PlayingCard) :
  Blackjack.calculateScore cards
  = Blackjack.whileBust (Tally.aces cards) (Tally.total cards).
Proof. reflexivity. Qed.

(** The score of a hand is the best of the totals that count some aces as
    1 instead of 11: the highest such total that does not exceed 21, and
    the total with every ace as 1 when all exceed 21. *)
Theorem blackjack_score_is_best_total (cards : list PlayingCard) :
  (exists k : nat,
      (k <= Tally.aces cards)%nat
      /\ Blackjack.calculateScore cards = Tally.total cards - 10 * Z.of_nat k)
  /\ (forall k : nat,
         (k <= Tally.aces cards)%nat ->
         Tally.total cards - 10 * Z.of_nat k <= 21 ->
         Tally.total cards - 10 * Z.of_nat k <= Blackjack.calculateScore cards <= 21)
  /\ ((forall k : nat,
          (k <= Tally.aces cards)%nat -> 21 < Tally.total cards - 10 * Z.of_nat k) ->
      Blackjack.calculateScore cards
      = Tally.total cards - 10 * Z.of_nat (Tally.aces cards)).
Proof.
  rewrite calculateScore_tally.
  destruct (whileBust_rounds (Tally.aces cards) (Tally.total cards))
    as (k0 & Hk0 & Heq & Hstop & Hbefore).
  split; [exists k0; split; assumption|].
  split.
  - intros k Hk Hfits.
    assert (Hge : (k0 <= k)%nat).
    { destruct (Nat.le_gt_cases k0 k) as [H|H]; [exact H|].
      specialize (Hbefore k H); lia. }
    destruct Hstop as [Hstop|Hstop]; [lia|].
    assert (k = k0) by lia; subst k; lia.
  - intros Hall.
    destruct Hstop as [Hstop|Hstop]; [|rewrite Heq, Hstop; reflexivity].
    specialize (Hall k0 Hk0); lia.
Qed.

Lemma createDeck_blackjackCards :
  Forall (fun card => Tally.blackjackCard card = true) Blackjack.createDeck.
Proof.
  apply Forall_forall, forallb_forall; vm_compute; reflexivity.
Qed.

Lemma nodup_fixed_NoDup (cards : list PlayingCard) :
  nodup card_eq_dec cards = cards -> NoDup cards.
Proof.
  intros H; rewrite <- H; apply NoDup_nodup.
Qed.

Lemma createDeck_NoDup : NoDup Blackjack.createDeck.
Proof.
  apply nodup_fixed_NoDup; vm_compute; reflexivity.
Qed.

End BlackjackScore.

Section BlackjackHand.

Import Deck.

Lemma total_app (cards : list PlayingCard) (card : PlayingCard) :
  Tally.total (cards ++ [card]) = Tally.total cards + value card.
Proof.
  unfold Tally.total; rewrite fold_left_app; reflexivity.
Qed.

Lemma aces_app (cards : list PlayingCard) (card : PlayingCard) :
  Tally.aces (cards ++ [card])
  = (Tally.aces cards
     + if Rank_eqb (rank card) HighCard.RA then 1 else 0)%nat.
Proof.
  unfold Tally.aces; rewrite filter_app, length_app; cbn [filter].
  destruct (Rank_eqb (rank card) HighCard.RA); reflexivity.
Qed.

(** With every ace as 1, a card of the deck counts between 1 and 10. *)
Lemma low_total_bounds (cards : list PlayingCard) :
  Forall (fun card => Tally.blackjackCard card = true) cards ->
  Z.of_nat (List.length cards)
  <= Tally.total cards - 10 * Z.of_nat (Tally.aces cards)
  <= 10 * Z.of_nat (List.length cards).
Proof.
  induction cards as [|card cards IH] using rev_ind; intros Hall.
  - cbn; lia.
  - apply Forall_app in Hall as [Hcards Hcard].
    apply Forall_inv in Hcard.
    specialize (IH Hcards).
    rewrite total_app, aces_app, length_app; cbn [List.length].
    unfold Tally.blackjackCard in Hcard.
    destruct (Rank_eqb (rank card) HighCard.RA); lia.
Qed.

Lemma score_at_least_length (cards : list PlayingCard) :
  Forall (fun card => Tally.blackjackCard card = true) cards ->
  Z.of_nat (List.length cards) <= Blackjack.calculateScore cards.
Proof.
  intros Hall; pose proof (low_total_bounds cards Hall) as Hlow.
  rewrite calculateScore_tally.
  destruct (whileBust_rounds (Tally.aces cards) (Tally.total cards))
    as (k & Hk & -> & _ & _).
  lia.
Qed.

Lemma score_at_most (cards : list PlayingCard) :
  Forall (fun card => Tally.blackjackCard card = true) cards ->
  Blackjack.calculateScore cards <= 21
  \/ Blackjack.calculateScore cards <= 10 * Z.of_nat (List.length cards).
Proof.
  intros Hall; pose proof (low_total_bounds cards Hall) as Hlow.
  rewrite calculateScore_tally.
  destruct (whileBust_rounds (Tally.aces cards) (Tally.total cards))
    as (k & Hk & Heq & [Hstop|Hstop] & _); [left; exact Hstop|].
  right; lia.
Qed.

(** A hand that still draws, having less than 17, ends at 26 at most. *)
Lemma score_after_hit (cards : list PlayingCard) (card : PlayingCard) :
  Tally.blackjackCard card = true ->
  Blackjack.calculateScore cards <= 16 ->
  Blackjack.calculateScore (cards ++ [card]) <= 26.
Proof.
  intros Hcard Hscore.
  rewrite calculateScore_tally in *.
  rewrite total_app, aces_app.
  destruct (whileBust_rounds (Tally.aces cards) (Tally.total cards))
    as (k & Hk & Heq & Hstop & _).
  unfold Tally.blackjackCard in Hcard.
  destruct (Rank_eqb (rank card) HighCard.RA).
  - destruct (whileBust_rounds (Tally.aces cards + 1) (Tally.total cards + value card))
      as (k' & Hk' & Heq' & Hstop' & _).
    lia.
  - rewrite Nat.add_0_r.
    destruct (whileBust_rounds (Tally.aces cards) (Tally.total cards + value card))
      as (k' & Hk' & Heq' & Hstop' & _).
    lia.
Qed.

Lemma hit_unfold (unread cards : list PlayingCard) :
  Blackjack.hit unread cards
  = if (Blackjack.calculateScore cards <? 17)
       && (Blackjack.calculateScore cards <=? 21)
    then match unread with
         | [] => None
         | card :: unread' => Blackjack.hit unread' (cards ++ [card])
         end
    else Some (cards, unread).
Proof. destruct unread; reflexivity. Qed.

(** The drawing loop of a player ends before the deck does when at least
    17 cards are at hand; it stops between 17 and 26. *)
Lemma hit_stops (unread : list PlayingCard) :
  forall cards,
    Forall (fun card => Tally.blackjackCard card = true) (cards ++ unread) ->
    (17 <= List.length cards + List.length unread)%nat ->
    Blackjack.calculateScore cards <= 26 ->
    exists drawn unread',
      Blackjack.hit unread cards = Some (cards ++ drawn, unread')
      /\ unread = drawn ++ unread'
      /\ 17 <= Blackjack.calculateScore (cards ++ drawn) <= 26
      /\ (List.length (cards ++ drawn) <= Nat.max (List.length cards) 17)%nat.
Proof.
  induction unread as [|card unread IH]; intros cards Hall Hlen Hscore;
    rewrite hit_unfold;
    destruct (Z.ltb_spec (Blackjack.calculateScore cards) 17) as [Hlow|Hhigh];
    destruct (Z.leb_spec (Blackjack.calculateScore cards) 21) as [Hfit|Hbust];
    cbn [andb]; try lia.
  - apply Forall_app in Hall as [Hcards _].
    pose proof (score_at_least_length cards Hcards); cbn [List.length] in Hlen; lia.
  - exists [], []; rewrite app_nil_r; repeat split; try lia.
  - exists [], []; rewrite app_nil_r; repeat split; try lia.
  - assert (Hcards : Forall (fun c => Tally.blackjackCard c = true) cards)
      by (apply Forall_app in Hall as [H _]; exact H).
    assert (Hcard : Tally.blackjackCard card = true)
      by (apply Forall_app in Hall as [_ H]; apply Forall_inv in H; exact H).
    pose proof (score_at_least_length cards Hcards) as Hmany.
    destruct (IH (cards ++ [card])) as (drawn & unread' & Hhit & Hsplit & Hend & Hheld).
    + rewrite <- app_assoc; exact Hall.
    + rewrite length_app; cbn [List.length] in *; lia.
    + apply score_after_hit; [exact Hcard|lia].
    + exists (card :: drawn), unread'.
      rewrite <- app_assoc in Hhit, Hend, Hheld; cbn [app] in Hhit, Hend, Hheld.
      repeat split; try lia; try assumption.
      * cbn [app]; rewrite Hsplit; reflexivity.
      * rewrite (length_app cards [card]) in Hheld.
        rewrite !length_app in Hheld |- *; cbn [List.length] in *; lia.
  - exists [], (card :: unread); rewrite app_nil_r; repeat split; try lia.
  - exists [], (card :: unread); rewrite app_nil_r; repeat split; try lia.
Qed.

Variables player1 player2 masterSeed : jsstring.

(** Every blackjack hand is played to its end: whatever the master seed
    and the game index, the deck is never read past its last card, both
    players stop with a score between 17 and 26 holding between 2 and 17
    cards, and no card of the deck is held twice. *)
Theorem blackjack_hand_is_played (gameIndex : Z) :
  Forall (fun code => 0 <= code) masterSeed ->
  exists hand,
    Blackjack.playHand player1 player2 masterSeed gameIndex = Some hand
    /\ 17 <= Blackjack.player1Score hand <= 26
    /\ 17 <= Blackjack.player2Score hand <= 26
    /\ (2 <= List.length (Blackjack.player1Cards hand) <= 17)%nat
    /\ (2 <= List.length (Blackjack.player2Cards hand) <= 17)%nat
    /\ NoDup (Blackjack.player1Cards hand ++ Blackjack.player2Cards hand)
    /\ incl (Blackjack.player1Cards hand ++ Blackjack.player2Cards hand)
            Blackjack.createDeck.
Proof.
  intros Hseed.
  unfold Blackjack.playHand.
  destruct (engine_shuffle Blackjack.createDeck masterSeed "-blackjack-" gameIndex Hseed)
    as (shuffled & -> & Hperm).
  pose proof (Permutation_length Hperm) as Hlen.
  pose proof (Permutation_Forall Hperm createDeck_blackjackCards) as Hcards.
  pose proof (Permutation_NoDup Hperm createDeck_NoDup) as Hnodup.
  change (List.length Blackjack.createDeck) with 52%nat in Hlen.
  destruct shuffled as [|card0 [|card1 [|card2 [|card3 rest]]]]; try discriminate Hlen.
  cbn [List.length] in Hlen.
  change (arrayGet (card0 :: card1 :: card2 :: card3 :: rest) 0) with (Some card0).
  change (arrayGet (card0 :: card1 :: card2 :: card3 :: rest) 2) with (Some card2).
  change (arrayGet (card0 :: card1 :: card2 :: card3 :: rest) 1) with (Some card1).
  change (arrayGet (card0 :: card1 :: card2 :: card3 :: rest) 3) with (Some card3).
  cbn [skipn].
  inversion Hcards as [|? ? Hc0 Hcards1]; subst.
  inversion Hcards1 as [|? ? Hc1 Hcards2]; subst.
  inversion Hcards2 as [|? ? Hc2 Hcards3]; subst.
  inversion Hcards3 as [|? ? Hc3 Hrest]; subst.
  destruct (hit_stops rest [card0; card2])
    as (drawn1 & unread1 & -> & Hsplit1 & Hend1 & Hheld1).
  { repeat constructor; assumption. }
  { cbn [List.length]; lia. }
  { destruct (score_at_most [card0; card2]) as [H|H];
      [repeat constructor; assumption| |]; cbn [List.length] in *; lia. }
  assert (Hrest1 : Forall (fun c => Tally.blackjackCard c = true) unread1)
    by (rewrite Hsplit1 in Hrest; apply Forall_app in Hrest as [_ H]; exact H).
  assert (Hlen1 : (List.length rest = List.length drawn1 + List.length unread1)%nat)
    by (rewrite Hsplit1, length_app; reflexivity).
  rewrite length_app in Hheld1; cbn [List.length] in Hheld1.
  destruct (hit_stops unread1 [card1; card3])
    as (drawn2 & unread2 & -> & Hsplit2 & Hend2 & Hheld2).
  { repeat constructor; assumption. }
  { cbn [List.length]; lia. }
  { destruct (score_at_most [card1; card3]) as [H|H];
      [repeat constructor; assumption| |]; cbn [List.length] in *; lia. }
  rewrite length_app in Hheld2; cbn [List.length] in Hheld2.
  eexists; split; [reflexivity|].
  cbn [Blackjack.player1Score Blackjack.player2Score
       Blackjack.player1Cards Blackjack.player2Cards].
  assert (Hall : Permutation
                   ((([card0; card2] ++ drawn1) ++ [card1; card3] ++ drawn2) ++ unread2)
                   (card0 :: card1 :: card2 :: card3 :: rest)).
  { rewrite Hsplit1, Hsplit2; cbn [app].
    apply perm_skip.
    rewrite <- !app_assoc; cbn [app].
    eapply perm_trans; [|apply perm_swap].
    apply perm_skip.
    apply Permutation_sym.
    apply (Permutation_app_swap_app [card1; card3] drawn1 (drawn2 ++ unread2)). }
  repeat split; try lia.
  - rewrite length_app; cbn [List.length]; lia.
  - rewrite length_app; cbn [List.length]; lia.
  - rewrite length_app; cbn [List.length]; lia.
  - rewrite length_app; cbn [List.length]; lia.
  - apply (NoDup_app_remove_r _ unread2).
    apply (Permutation_NoDup (Permutation_sym Hall) Hnodup).
  - intros card Hin.
    apply (Permutation_in card (Permutation_sym Hperm)).
    apply (Permutation_in card Hall).
    apply in_or_app; left; exact Hin.
Qed.

End BlackjackHand.

Lemma blackjack_hand_is_played_witness :
  exists hand,
    Blackjack.playHand (lit "Alice") (lit "Bob") (lit "ab") 7 = Some hand
    /\ 17 <= Blackjack.player1Score hand <= 26
    /\ 17 <= Blackjack.player2Score hand <= 26
    /\ (2 <= List.length (Blackjack.player1Cards hand) <= 17)%nat
    /\ (2 <= List.length (Blackjack.player2Cards hand) <= 17)%nat
    /\ NoDup (Blackjack.player1Cards hand ++ Blackjack.player2Cards hand)
    /\ incl (Blackjack.player1Cards hand ++ Blackjack.player2Cards hand)
            Blackjack.createDeck.
Proof.
  apply (blackjack_hand_is_played (lit "Alice") (lit "Bob") (lit "ab") 7).
  apply lit_nonneg.
Defined.

(** ** Poker hands *)

Section PokerHands.

Import Deck.

Lemma poker_createDeck_NoDup : NoDup Poker.createDeck.
Proof.
  apply nodup_fixed_NoDup; vm_compute; reflexivity.
Qed.

Lemma poker_createDeck_values :
  Forall (fun card => 2 <= value card <= 14) Poker.createDeck.
Proof.
  apply Forall_forall; intros card Hin.
  assert (H : (2 <=? value card) && (value card <=? 14) = true).
  { revert card Hin; apply forallb_forall; vm_compute; reflexivity. }
  lia.
Qed.

(** The score is a hundred times the place of the rank, plus the highest
    value of the hand. *)
Lemma evaluateHand_score (cards : list PlayingCard) :
  snd (Poker.evaluateHand cards)
  = Poker.plus (100 * Tally.order (fst (Poker.evaluateHand cards)))
               (Poker.mathMax (map value cards)).
Proof.
  unfold Poker.evaluateHand.
  repeat match goal with
         | |- context [if ?b then _ else _] => destruct b
         end; reflexivity.
Qed.

Lemma mathMax_from (values : list Z) :
  forall a,
    fold_left (fun acc v =>
                 match acc with
                 | Num a => Num (Z.max a v)
                 | _ => Num v
                 end)
              values (Num a)
    = Num (fold_left Z.max values a).
Proof.
  induction values as [|v rest IH]; intros a; cbn [fold_left]; [reflexivity|].
  apply IH.
Qed.

Lemma fold_max_highest (cards : list PlayingCard) :
  forall a,
    0 <= a ->
    fold_left Z.max (map value cards) a = Z.max a (Tally.highest cards).
Proof.
  induction cards as [|card rest IH]; intros a Ha; cbn [map fold_left Tally.highest fold_right].
  - lia.
  - rewrite IH by lia. fold (Tally.highest rest). lia.
Qed.

Lemma mathMax_highest (cards : list PlayingCard) :
  cards <> [] ->
  Forall (fun card => 2 <= value card <= 14) cards ->
  Poker.mathMax (map value cards) = Num (Tally.highest cards)
  /\ 2 <= Tally.highest cards <= 14.
Proof.
  intros Hne Hall.
  destruct cards as [|card rest]; [contradiction|].
  inversion Hall as [|? ? Hcard Hrest]; subst.
  unfold Poker.mathMax; cbn [map fold_left].
  rewrite mathMax_from, fold_max_highest by lia.
  cbn [Tally.highest fold_right]; fold (Tally.highest rest).
  split; [reflexivity|].
  assert (Hbound : 0 <= Tally.highest rest <= 14).
  { clear Hne Hall Hcard. induction Hrest as [|c l Hc _ IH]; cbn; [lia|].
    fold (Tally.highest l). lia. }
  lia.
Qed.

(** Hands are compared by their rank first and by their highest card
    next, and by nothing else: a hand of a higher rank always scores
    more, and of two hands of one rank the one with the higher top card
    does, whatever the cards that make the rank. *)
Theorem poker_score_compares_rank_then_top (cards1 cards2 : list PlayingCard) :
  cards1 <> [] ->
  cards2 <> [] ->
  Forall (fun card => 2 <= value card <= 14) cards1 ->
  Forall (fun card => 2 <= value card <= 14) cards2 ->
  Poker.greater (snd (Poker.evaluateHand cards1)) (snd (Poker.evaluateHand cards2))
  = true
  <-> Tally.order (fst (Poker.evaluateHand cards2))
      < Tally.order (fst (Poker.evaluateHand cards1))
      \/ (Tally.order (fst (Poker.evaluateHand cards1))
          = Tally.order (fst (Poker.evaluateHand cards2))
          /\ Tally.highest cards2 < Tally.highest cards1).
Proof.
  intros Hne1 Hne2 Hall1 Hall2.
  rewrite !evaluateHand_score.
  destruct (mathMax_highest cards1 Hne1 Hall1) as [-> Hhigh1].
  destruct (mathMax_highest cards2 Hne2 Hall2) as [-> Hhigh2].
  cbn [Poker.plus Poker.greater].
  assert (Horder : forall r, 1 <= Tally.order r <= 10) by (intros []; cbn; lia).
  pose proof (Horder (fst (Poker.evaluateHand cards1))).
  pose proof (Horder (fst (Poker.evaluateHand cards2))).
  rewrite Z.gtb_ltb, Z.ltb_lt; lia.
Qed.

Variables player1 player2 masterSeed : jsstring.

(** Every poker game deals two hands of five cards of the deck, and no
    card twice, whatever the master seed and the game index. *)
Theorem poker_deals_two_hands (gameIndex : Z) :
  Forall (fun code => 0 <= code) masterSeed ->
  exists hand,
    Poker.playHand player1 player2 masterSeed gameIndex = Some hand
    /\ List.length (Poker.player1Cards hand) = 5%nat
    /\ List.length (Poker.player2Cards hand) = 5%nat
    /\ NoDup (Poker.player1Cards hand ++ Poker.player2Cards hand)
    /\ incl (Poker.player1Cards hand ++ Poker.player2Cards hand) Poker.createDeck
    /\ Poker.player1Hand hand = fst (Poker.evaluateHand (Poker.player1Cards hand))
    /\ Poker.player2Hand hand = fst (Poker.evaluateHand (Poker.player2Cards hand)).
Proof.
  intros Hseed.
  unfold Poker.playHand.
  destruct (engine_shuffle Poker.createDeck masterSeed "-poker-" gameIndex Hseed)
    as (shuffled & -> & Hperm).
  pose proof (Permutation_length Hperm) as Hlen.
  pose proof (Permutation_NoDup Hperm poker_createDeck_NoDup) as Hnodup.
  change (List.length Poker.createDeck) with 52%nat in Hlen.
  do 10 (destruct shuffled as [|? shuffled]; [discriminate Hlen|]).
  eexists; split; [reflexivity|].
  cbn [Poker.player1Cards Poker.player2Cards Poker.player1Hand Poker.player2Hand].
  unfold Poker.slice; cbn [Nat.sub skipn firstn app List.length].
  repeat split.
  - match goal with
    | H : NoDup ?l |- NoDup ?l' =>
        change l with (l' ++ shuffled) in H; apply NoDup_app_remove_r in H; exact H
    end.
  - intros card Hin.
    apply (Permutation_in card (Permutation_sym Hperm)).
    match goal with
    | Hin : In card ?l' |- In card ?l =>
        change l with (l' ++ shuffled); apply in_or_app; left; exact Hin
    end.
Qed.

(** Two game indices written with the same digits in another order, such
    as 12 and 21, are dealt the same cards and have the same winner: the
    shuffle sees only the sum of the code units of its seed. *)
Theorem poker_same_digits_same_game (gameIndex1 gameIndex2 : Z) :
  Permutation (numberToString (Num gameIndex1)) (numberToString (Num gameIndex2)) ->
  option_map Tally.dealt (Poker.playHand player1 player2 masterSeed gameIndex1)
  = option_map Tally.dealt (Poker.playHand player1 player2 masterSeed gameIndex2).
Proof.
  intros Hperm.
  unfold Poker.playHand.
  rewrite (shuffleDeck_code_sum Poker.createDeck
             (masterSeed ++ lit "-poker-" ++ numberToString (Num gameIndex1))
             (masterSeed ++ lit "-poker-" ++ numberToString (Num gameIndex2)))
    by (do 2 apply Permutation_app_head; exact Hperm).
  destruct (Deck.shuffleDeck Poker.createDeck
              (masterSeed ++ lit "-poker-" ++ numberToString (Num gameIndex2)));
    reflexivity.
Qed.

End PokerHands.

Lemma poker_score_compares_rank_then_top_witness :
  let card suit rank value :=
    {| Deck.suit := suit; Deck.rank := rank; Deck.value := value;
       Deck.color := Deck.colorOf suit |} in
  let pairOfTwos :=
    [card HighCard.Spade HighCard.R2 2; card HighCard.Heart HighCard.R2 2;
     card HighCard.Club HighCard.RA 14] in
  let pairOfKings :=
    [card HighCard.Spade HighCard.RK 13; card HighCard.Heart HighCard.RK 13;
     card HighCard.Club HighCard.RQ 12] in
  Poker.greater (snd (Poker.evaluateHand pairOfTwos))
                (snd (Poker.evaluateHand pairOfKings)) = true.
Proof.
  intros card pairOfTwos pairOfKings.
  apply (proj2 (poker_score_compares_rank_then_top pairOfTwos pairOfKings
                  ltac:(discriminate) ltac:(discriminate)
                  ltac:(repeat constructor; cbn; lia)
                  ltac:(repeat constructor; cbn; lia))).
  right; split; [reflexivity|vm_compute; reflexivity].
Defined.

Lemma poker_deals_two_hands_witness :
  exists hand,
    Poker.playHand (lit "Alice") (lit "Bob") (lit "ab") 7 = Some hand
    /\ List.length (Poker.player1Cards hand) = 5%nat
    /\ List.length (Poker.player2Cards hand) = 5%nat
    /\ NoDup (Poker.player1Cards hand ++ Poker.player2Cards hand)
    /\ incl (Poker.player1Cards hand ++ Poker.player2Cards hand) Poker.createDeck
    /\ Poker.player1Hand hand = fst (Poker.evaluateHand (Poker.player1Cards hand))
    /\ Poker.player2Hand hand = fst (Poker.evaluateHand (Poker.player2Cards hand)).
Proof.
  apply (poker_deals_two_hands (lit "Alice") (lit "Bob") (lit "ab") 7).
  apply lit_nonneg.
Defined.

Lemma poker_same_digits_same_game_witness :
  option_map Tally.dealt (Poker.playHand (lit "Alice") (lit "Bob") (lit "ab") 12)
  = option_map Tally.dealt (Poker.playHand (lit "Alice") (lit "Bob") (lit "ab") 21).
Proof.
  apply (poker_same_digits_same_game (lit "Alice") (lit "Bob") (lit "ab") 12 21).
  apply perm_swap.
Defined.

(** ** The deck shuffle *)

Section DeckShuffles.

Import Deck.

Lemma shuffle_createDeck_NoDup : NoDup DeckShuffle.createDeck.
Proof.
  apply nodup_fixed_NoDup; vm_compute; reflexivity.
Qed.

Lemma shuffle_createDeck_values :
  Forall (fun card => 1 <= value card <= 13) DeckShuffle.createDeck.
Proof.
  apply Forall_forall; intros card Hin.
  assert (H : (1 <=? value card) && (value card <=? 13) = true).
  { revert card Hin; apply forallb_forall; vm_compute; reflexivity. }
  lia.
Qed.

Lemma arrayGet_defined {A : Type} (xs : list A) (i : Z) :
  0 <= i < Z.of_nat (List.length xs) ->
  exists x, arrayGet xs i = Some x /\ nth_error xs (Z.to_nat i) = Some x /\ In x xs.
Proof.
  intros Hi; unfold arrayGet.
  destruct (Z.ltb_spec i 0); [lia|].
  destruct (nth_error xs (Z.to_nat i)) as [x|] eqn:Hx;
    [|apply nth_error_None in Hx; lia].
  exists x; repeat split; [apply (nth_error_In _ _ Hx)].
Qed.

Variables player1 player2 masterSeed : jsstring.

(** Every shuffle shows three different cards of the deck, at the top, in
    the middle and at the bottom, and names one of the six patterns; the
    winner is the first player on a red top card and the second one on a
    black top card. *)
Theorem deck_shuffle_shows_three_cards (gameIndex : Z) :
  Forall (fun code => 0 <= code) masterSeed ->
  exists result middle pattern,
    DeckShuffle.performShuffle player1 player2 masterSeed gameIndex = Some result
    /\ DeckShuffle.middleCard result = Some middle
    /\ DeckShuffle.shufflePattern result = Some pattern
    /\ In pattern DeckShuffle.patterns
    /\ In (DeckShuffle.topCard result) DeckShuffle.createDeck
    /\ In middle DeckShuffle.createDeck
    /\ In (DeckShuffle.bottomCard result) DeckShuffle.createDeck
    /\ DeckShuffle.topCard result <> middle
    /\ DeckShuffle.topCard result <> DeckShuffle.bottomCard result
    /\ middle <> DeckShuffle.bottomCard result
    /\ DeckShuffle.winner result
       = match suit (DeckShuffle.topCard result) with
         | HighCard.Heart | HighCard.Diamond => player1
         | HighCard.Spade | HighCard.Club => player2
         end.
Proof.
  intros Hseed.
  unfold DeckShuffle.performShuffle.
  destruct (engine_shuffle DeckShuffle.createDeck masterSeed "-shuffle-" gameIndex Hseed)
    as (shuffled & -> & Hperm).
  pose proof (Permutation_length Hperm) as Hlen.
  pose proof (Permutation_NoDup Hperm shuffle_createDeck_NoDup) as Hnodup.
  pose proof (Permutation_Forall Hperm shuffle_createDeck_values) as Hvalues.
  assert (Hcolors : Forall (fun card => color card = colorOf (suit card)) shuffled).
  { apply (Permutation_Forall Hperm).
    apply Forall_forall; intros card Hin.
    assert (H : Forall (fun card => color card = colorOf (suit card))
                       DeckShuffle.createDeck)
      by (vm_compute; repeat constructor).
    exact (proj1 (Forall_forall _ _) H card Hin). }
  change (List.length DeckShuffle.createDeck) with 52%nat in Hlen.
  destruct (arrayGet_defined shuffled 0) as (top & -> & Htop & HtopIn); [lia|].
  destruct (arrayGet_defined shuffled 51) as (bottom & -> & Hbottom & HbottomIn); [lia|].
  destruct (arrayGet_defined shuffled 25) as (middle & Hmiddle & Hmid & HmiddleIn); [lia|].
  pose proof (proj1 (Forall_forall _ _) Hvalues top HtopIn) as HtopValue.
  pose proof (proj1 (Forall_forall _ _) Hvalues bottom HbottomIn) as HbottomValue.
  pose proof (proj1 (Forall_forall _ _) Hcolors top HtopIn) as HtopColor.
  cbv beta in HtopValue, HbottomValue, HtopColor.
  set (patternIndex :=
         jsRem (value top + value bottom) (Z.of_nat (List.length DeckShuffle.patterns))).
  assert (Hindex : 0 <= patternIndex < 6)
    by (unfold patternIndex;
        change (Z.of_nat (List.length DeckShuffle.patterns)) with 6;
        apply Z.rem_bound_pos; lia).
  destruct (arrayGet_defined DeckShuffle.patterns patternIndex)
    as (pattern & Hpattern & _ & HpatternIn);
    [change (Z.of_nat (List.length DeckShuffle.patterns)) with 6; lia|].
  pose proof (proj1 (NoDup_nth_error shuffled) Hnodup) as Hdistinct.
  exists {| DeckShuffle.topCard := top;
            DeckShuffle.bottomCard := bottom;
            DeckShuffle.middleCard := Some middle;
            DeckShuffle.shufflePattern := Some pattern;
            DeckShuffle.winner :=
              match color top with red => player1 | black => player2 end;
            DeckShuffle.gameId := lit "shuffle-" ++ numberToString (Num gameIndex);
            DeckShuffle.seed :=
              masterSeed ++ lit "-shuffle-" ++ numberToString (Num gameIndex);
            DeckShuffle.deckOrder :=
              DeckShuffle.join
                (map (fun c => rankName (rank c) ++ suitName (suit c)) shuffled) |},
    middle, pattern.
  cbn [DeckShuffle.topCard DeckShuffle.bottomCard DeckShuffle.middleCard
       DeckShuffle.shufflePattern DeckShuffle.winner].
  split; [rewrite Hmiddle, Hpattern; reflexivity|].
  repeat split;
    try (apply (Permutation_in _ (Permutation_sym Hperm)); assumption);
    try assumption.
  - intros ->.
    specialize (Hdistinct (Z.to_nat 0) (Z.to_nat 25) ltac:(lia) ltac:(congruence)); lia.
  - intros ->.
    specialize (Hdistinct (Z.to_nat 0) (Z.to_nat 51) ltac:(lia) ltac:(congruence)); lia.
  - intros ->.
    specialize (Hdistinct (Z.to_nat 25) (Z.to_nat 51) ltac:(lia) ltac:(congruence)); lia.
  - rewrite HtopColor; destruct (suit top); reflexivity.
Qed.

End DeckShuffles.

Lemma deck_shuffle_shows_three_cards_witness :
  exists result,
    DeckShuffle.performShuffle (lit "Alice") (lit "Bob") (lit "ab") 7 = Some result
    /\ DeckShuffle.topCard result <> DeckShuffle.bottomCard result.
Proof.
  destruct (deck_shuffle_shows_three_cards (lit "Alice") (lit "Bob") (lit "ab") 7
              (lit_nonneg "ab"))
    as (result & middle & pattern & Hresult & _ & _ & _ & _ & _ & _ & _ & Hdiffer & _).
  exists result; split; assumption.
Defined.

(** ** Straights *)

Section Straights.

Import Deck.

Lemma in_indexed {A : Type} (xs : list A) :
  forall (start i : nat) (x : A),
    In (i, x) (combine (seq start (List.length xs)) xs)
    <-> (start <= i)%nat /\ nth_error xs (i - start) = Some x.
Proof.
  induction xs as [|a rest IH]; intros start i x; cbn [List.length seq combine In].
  - split; [intros []|intros [_ H]]. destruct (i - start)%nat; discriminate H.
  - rewrite IH. split.
    + intros [Heq|[Hle Hnth]].
      * injection Heq as <- <-. rewrite Nat.sub_diag. split; [lia|reflexivity].
      * split; [lia|].
        replace (i - start)%nat with (S (i - S start)) by lia. exact Hnth.
    + intros [Hle Hnth].
      destruct (Nat.eq_dec i start) as [->|Hne].
      * rewrite Nat.sub_diag in Hnth. injection Hnth as ->. left; reflexivity.
      * right. split; [lia|].
        replace (i - start)%nat with (S (i - S start)) in Hnth by lia. exact Hnth.
Qed.

(** [isStraight] holds when every value but the first is one more than
    the value before it. *)
Lemma isStraight_steps (values : list Z) :
  Poker.isStraight values = true
  <-> forall (i : nat) (val : Z),
        nth_error values (S i) = Some val ->
        exists previous, nth_error values i = Some previous /\ val = previous + 1.
Proof.
  unfold Poker.isStraight, Poker.indexed. rewrite forallb_forall. split.
  - intros Hall i val Hnth.
    specialize (Hall (S i, val)). cbn beta iota in Hall.
    replace (Z.of_nat (S i) - 1) with (Z.of_nat i) in Hall by lia.
    rewrite arrayGet_of_nat in Hall.
    assert (Hin : In (S i, val) (combine (seq 0 (List.length values)) values))
      by (apply in_indexed; rewrite Nat.sub_0_r; split; [lia|exact Hnth]).
    specialize (Hall Hin). cbn [Nat.eqb orb] in Hall.
    destruct (nth_error values i) as [previous|]; [|discriminate Hall].
    exists previous; split; [reflexivity|lia].
  - intros Hsteps [i val] Hin.
    apply in_indexed in Hin as [_ Hnth]. rewrite Nat.sub_0_r in Hnth.
    destruct i as [|i]; [reflexivity|].
    destruct (Hsteps i val Hnth) as (previous & Hprev & ->).
    replace (Z.of_nat (S i) - 1) with (Z.of_nat i) by lia.
    rewrite arrayGet_of_nat, Hprev. cbn [Nat.eqb orb]. lia.
Qed.

Lemma run_nth (first : Z) (n i : nat) :
  nth_error (Tally.run first n) i
  = if (i <? n)%nat then Some (first + Z.of_nat i) else None.
Proof.
  unfold Tally.run.
  destruct (Nat.ltb_spec i n) as [Hlt|Hge].
  - apply (nth_error_map_seq (fun i => first + Z.of_nat i)); exact Hlt.
  - apply nth_error_None. rewrite length_map, length_seq. exact Hge.
Qed.

Lemma steps_run (values : list Z) :
  (forall (i : nat) (val : Z),
      nth_error values (S i) = Some val ->
      exists previous, nth_error values i = Some previous /\ val = previous + 1)
  <-> exists first, values = Tally.run first (List.length values).
Proof.
  split.
  - intros Hsteps.
    destruct values as [|first rest] eqn:Hvalues; [exists 0; reflexivity|].
    rewrite <- Hvalues in *. exists first.
    assert (Hnth : forall i, (i < List.length values)%nat ->
                             nth_error values i = Some (first + Z.of_nat i)).
    { induction i as [|i IH]; intros Hi.
      - rewrite Hvalues; cbn. f_equal; lia.
      - destruct (nth_error values (S i)) as [val|] eqn:Hval;
          [|apply nth_error_None in Hval; lia].
        destruct (Hsteps i val Hval) as (previous & Hprev & ->).
        rewrite IH in Hprev by lia. injection Hprev as <-. f_equal; lia. }
    apply nth_error_ext; intros i. rewrite run_nth.
    destruct (Nat.ltb_spec i (List.length values)) as [Hlt|Hge];
      [apply Hnth; exact Hlt|apply nth_error_None; exact Hge].
  - intros [first Hrun] i val Hval.
    remember (List.length values) as n eqn:Hn.
    rewrite Hrun, run_nth in Hval |- *.
    destruct (Nat.ltb_spec (S i) n) as [Hlt|Hge]; [|discriminate Hval].
    injection Hval as <-.
    destruct (Nat.ltb_spec i n) as [_|Hge]; [|lia].
    eexists; split; [reflexivity|lia].
Qed.

Lemma NoDup_map_injective {A B : Type} (f : A -> B) (xs : list A) :
  (forall x y, f x = f y -> x = y) -> NoDup xs -> NoDup (map f xs).
Proof.
  intros Hinj; induction 1 as [|x xs Hx _ IH]; cbn [map]; constructor; [|exact IH].
  intros Hin; apply in_map_iff in Hin as (y & Hy & Hin).
  apply Hinj in Hy; subst y; contradiction.
Qed.

Lemma run_NoDup (first : Z) (n : nat) : NoDup (Tally.run first n).
Proof.
  apply NoDup_map_injective; [intros x y H; lia|apply seq_NoDup].
Qed.

Lemma bump_fresh (acc : list (Z * Z)) (val : Z) :
  ~ In val (map fst acc) -> Poker.bump acc val = acc ++ [(val, 1)].
Proof.
  induction acc as [|[key n] rest IH]; intros Hfresh; cbn [Poker.bump app];
    [reflexivity|].
  cbn [map fst In] in Hfresh.
  destruct (Z.eqb_spec key val) as [->|_]; [exfalso; apply Hfresh; left; reflexivity|].
  rewrite IH by (intros H; apply Hfresh; right; exact H); reflexivity.
Qed.

(** Values that are all different are counted once each. *)
Lemma valueCounts_distinct (values : list Z) :
  forall acc,
    NoDup (map fst acc ++ values) ->
    fold_left Poker.bump values acc = acc ++ map (fun v => (v, 1)) values.
Proof.
  induction values as [|v rest IH]; intros acc Hnodup; cbn [fold_left map].
  - rewrite app_nil_r; reflexivity.
  - rewrite bump_fresh.
    + rewrite IH.
      * rewrite <- app_assoc; reflexivity.
      * rewrite map_app; cbn [map fst]. rewrite <- app_assoc. exact Hnodup.
    + apply NoDup_remove_2 in Hnodup.
      intros Hin; apply Hnodup, in_or_app; left; exact Hin.
Qed.

Lemma insertDescending_ones (n : Z) (sorted : list Z) :
  n = 1 ->
  Forall (fun c => c = 1) sorted ->
  Forall (fun c => c = 1) (Poker.insertDescending n sorted).
Proof.
  intros Hn; induction 1 as [|m rest Hm Hrest IH]; cbn [Poker.insertDescending].
  - repeat constructor; exact Hn.
  - destruct (m <? n); repeat constructor; assumption.
Qed.

Lemma counts_of_distinct (values : list Z) :
  NoDup values ->
  Forall (fun c => c = 1)
         (Poker.sortDescending (map snd (Poker.valueCounts values))).
Proof.
  intros Hnodup. unfold Poker.valueCounts.
  rewrite (valueCounts_distinct values []) by exact Hnodup.
  cbn [app]. rewrite map_map; cbn [snd].
  unfold Poker.sortDescending.
  induction values as [|v rest IH]; cbn [map fold_right]; [constructor|].
  apply insertDescending_ones; [reflexivity|].
  apply IH. inversion Hnodup; assumption.
Qed.

Lemma countIs_ones (counts : list Z) (i n : Z) :
  Forall (fun c => c = 1) counts -> n <> 1 -> Poker.countIs counts i n = false.
Proof.
  intros Hones Hn. unfold Poker.countIs, arrayGet.
  destruct (i <? 0); [reflexivity|].
  destruct (nth_error counts (Z.to_nat i)) as [c|] eqn:Hc; [|reflexivity].
  apply nth_error_In in Hc.
  rewrite (proj1 (Forall_forall _ _) Hones c Hc).
  apply Z.eqb_neq; lia.
Qed.

(** A hand is ranked as a straight, a straight flush or a royal flush
    exactly when its values go up by one from card to card in the order
    in which the cards were dealt; no other rule comes first for such a
    hand, and no other order of the same cards is a straight. *)
Theorem poker_straight_is_in_dealt_order (cards : list PlayingCard) :
  In (fst (Poker.evaluateHand cards))
     [Poker.Straight; Poker.StraightFlush; Poker.RoyalFlush]
  <-> exists first, map value cards = Tally.run first (List.length cards).
Proof.
  rewrite <- (length_map value cards), <- steps_run, <- isStraight_steps.
  unfold Poker.evaluateHand.
  destruct (Poker.isStraight (map value cards)) eqn:Hstraight.
  - split; [reflexivity|intros _].
    assert (Hones : Forall (fun c => c = 1)
                           (Poker.sortDescending
                              (map snd (Poker.valueCounts (map value cards))))).
    { apply counts_of_distinct.
      pose proof (proj1 (isStraight_steps _) Hstraight) as Hsteps.
      destruct (proj1 (steps_run _) Hsteps) as [first Hrun].
      rewrite Hrun. apply run_NoDup. }
    rewrite !(countIs_ones _ _ _ Hones) by lia.
    destruct (Poker.isFlush (map suit cards));
      destruct (Poker.countIs (map value cards) 0 10); cbn; auto.
  - split; [|discriminate].
    rewrite !andb_false_r; cbn [andb].
    repeat match goal with
           | |- context [if ?b then _ else _] => destruct b
           end; cbn; intros H;
      repeat (destruct H as [H|H]; [discriminate H|]); contradiction.
Qed.

End Straights.

(** ** A whole rock-paper-scissors session on the page *)

Section RPSRun.

Variables player1 player2 masterSeed : jsstring.
Variable session : Page.Session.

Lemma Forall2_same {A : Type} (R : A -> A -> Prop) (xs : list A) :
  (forall x, R x x) -> Forall2 R xs xs.
Proof.
  intros H; induction xs; constructor; auto.
Qed.

Lemma Forall2_of_map {A B C : Type} (R : B -> C -> Prop) (f : A -> B)
      (xs : list A) :
  forall ys, Forall2 R (map f xs) ys -> Forall2 (fun x y => R (f x) y) xs ys.
Proof.
  induction xs as [|x xs IH]; intros ys H; inversion H; subst; constructor; auto.
Qed.

Lemma follows_done (processed : Z) (s : Page.Session) :
  Page.count session <= processed ->
  Tally.follows player1 player2 masterSeed session processed s s.
Proof.
  intros Hdone; unfold Tally.follows.
  destruct (string_eqb (Page.id s) (Page.id session)); [|reflexivity].
  split; [reflexivity|]. split; [repeat split|]. split; [lia|].
  exists []. rewrite app_nil_r. split; [reflexivity|]. split.
  - replace (Z.max 0 (Page.count session - processed)) with 0 by lia. reflexivity.
  - intros [|k] game H; discriminate H.
Qed.

Lemma follows_step (now processed : Z) (s s' : Page.Session) :
  processed < Page.count session ->
  let processed' := processed + Z.min 5 (Page.count session - processed) in
  Tally.follows player1 player2 masterSeed session processed'
          (Page.updateSession player1 player2 (Page.id session) processed'
             (Some (Page.RpsGame
                      (RPS.resolve (Page.asGameSession session) player1 player2
                                   masterSeed now processed (processed' - 1))))
             s)
          s' ->
  Tally.follows player1 player2 masterSeed session processed s s'.
Proof.
  intros Hleft processed'. unfold Tally.follows, Page.updateSession.
  destruct (string_eqb (Page.id s) (Page.id session)) eqn:Hid;
    cbn [Page.id Page.results Page.count Page.type]; rewrite Hid; [|auto].
  set (last := RPS.resolve (Page.asGameSession session) player1 player2 masterSeed
                           now processed (processed' - 1)).
  intros (Hdone & Hsame & Hrunning & games & Hresults & Hlength & Hgames).
  split; [lia|].
  split; [exact Hsame|].
  split.
  - intros _.
    destruct (Z.le_gt_cases (Page.count session) processed') as [Hend|Hmore].
    + rewrite (Hdone Hend).
      cbn [Page.completed Page.isRunning Page.winner Page.results].
      assert (processed' = Page.count session) as -> by (unfold processed' in *; lia).
      repeat split.
    + destruct (Hrunning ltac:(lia)) as (Hc & Hr & Hw). repeat split; assumption.
  - exists (last :: games).
    split; [rewrite Hresults, <- app_assoc; reflexivity|].
    split.
    + cbn [List.length]. rewrite Nat2Z.inj_succ, Hlength.
      unfold processed'. Z.to_euclidean_division_equations. lia.
    + intros [|k] game Hgame.
      * injection Hgame as <-. exists now, processed. unfold last.
        f_equal. unfold processed'. lia.
      * cbn [nth_error] in Hgame.
        assert (Hk : (k < List.length games)%nat)
          by (apply nth_error_Some; rewrite Hgame; discriminate).
        destruct (Hgames k game Hgame) as (now' & start' & ->).
        exists now', start'. f_equal.
        assert (processed' = processed + 5).
        { unfold processed' in *.
          destruct (Z.le_gt_cases 5 (Page.count session - processed)); [lia|].
          replace (Z.max 0 (Page.count session
                            - (processed + Z.min 5 (Page.count session - processed))))
            with 0 in Hlength by lia.
          change ((0 + 4) / 5) with 0 in Hlength. lia. }
        lia.
Qed.

Lemma rpsRun_from (ticks : list Z) :
  forall (processed : Z) (sessions : list Page.Session),
    Page.count session - processed <= 5 * Z.of_nat (List.length ticks) ->
    let after :=
      Page.rpsRun player1 player2 masterSeed ticks session processed sessions in
    fst after = Z.max processed (Page.count session)
    /\ Forall2 (Tally.follows player1 player2 masterSeed session processed)
               sessions (snd after).
Proof.
  induction ticks as [|now later IH]; intros processed sessions Hticks after;
    unfold after; cbn [Page.rpsRun].
  - cbn [List.length] in Hticks. split; [cbn [fst]; lia|].
    apply Forall2_same; intros s; apply follows_done; lia.
  - destruct (Z.le_gt_cases (Page.count session) processed) as [Hdone|Hleft].
    + unfold Page.rpsTick.
      destruct (Z.leb_spec (Page.count session) processed); [|lia].
      apply IH. lia.
    + rewrite rpsTick_unfolded by lia.
      set (processed' := processed + Z.min 5 (Page.count session - processed)).
      destruct (IH processed'
                  (Page.updateSessionProgress player1 player2 (Page.id session)
                     processed'
                     (Some (Page.RpsGame
                              (RPS.resolve (Page.asGameSession session) player1
                                 player2 masterSeed now processed (processed' - 1))))
                     sessions))
        as [Hcount Hsessions].
      { cbn [List.length] in Hticks. unfold processed'. lia. }
      split; [rewrite Hcount; unfold processed'; lia|].
      apply Forall2_of_map in Hsessions.
      revert Hsessions; apply Forall2_impl.
      intros s s'. apply (follows_step now processed s s' Hleft).
Qed.

(** Of a rock-paper-scissors session the page keeps one game in five: a
    run of the engine from the start goes through all [count] games, and
    the session of the page ends completed with the results it had
    followed by the last game of each batch of five, from which alone its
    winner is decided. *)
Theorem rps_session_keeps_one_game_in_five
        (ticks : list Z) (sessions : list Page.Session) :
  0 < Page.count session ->
  Page.count session <= 5 * Z.of_nat (List.length ticks) ->
  let after :=
    Page.rpsRun player1 player2 masterSeed ticks session 0 sessions in
  fst after = Page.count session
  /\ Forall2
       (fun s s' =>
          if string_eqb (Page.id s) (Page.id session) then
            Page.id s' = Page.id s
            /\ Page.type s' = Page.type s
            /\ Page.count s' = Page.count s
            /\ Page.completed s' = Page.count session
            /\ Page.isRunning s' = negb (Page.count s <=? Page.count session)
            /\ Page.winner s'
               = (if Page.count s <=? Page.count session
                  then Some (Page.determineSessionWinner player1 player2
                               (Page.type s) (Page.results s'))
                  else None)
            /\ exists games,
                 Page.results s' = Page.results s ++ map Page.RpsGame games
                 /\ Z.of_nat (List.length games) = (Page.count session + 4) / 5
                 /\ forall (k : nat) (game : RPS.Result),
                      nth_error games k = Some game ->
                      exists now start,
                        game = RPS.resolve (Page.asGameSession session) player1
                                 player2 masterSeed now start
                                 (Z.min (5 * (Z.of_nat k + 1)) (Page.count session) - 1)
          else s' = s)
       sessions (snd after).
Proof.
  intros Hcount Hticks after.
  destruct (rpsRun_from ticks 0 sessions ltac:(lia)) as [Hfst Hsessions].
  split; [unfold after; rewrite Hfst; lia|].
  revert Hsessions; apply Forall2_impl.
  intros s s'; unfold Tally.follows.
  destruct (string_eqb (Page.id s) (Page.id session)); [|auto].
  intros (_ & (Hi & Ht & Hn) & Hrunning & games & Hresults & Hlength & Hgames).
  destruct (Hrunning Hcount) as (Hc & Hr & Hw).
  repeat split; try assumption.
  exists games. split; [exact Hresults|]. split.
  - rewrite Hlength. f_equal. lia.
  - intros k game Hgame. destruct (Hgames k game Hgame) as (now & start & ->).
    exists now, start. reflexivity.
Qed.

(** Every game of the engine adds one to exactly one of the three
    counters of the dashboard. *)
Lemma countResult_rps (games : list RPS.Result) :
  Forall (fun game =>
            exists now start gameIndex,
              game = RPS.resolve (Page.asGameSession session) player1 player2
                       masterSeed now start gameIndex)
         games ->
  forall a b c,
    exists a' b' c',
      fold_left (Analytics.countResult player1 player2)
                (map Page.RpsGame games) (a, b, c)
      = (a', b', c')
      /\ a' + b' + c' = a + b + c + Z.of_nat (List.length games).
Proof.
  induction 1 as [|game games (now & start & gameIndex & ->) _ IH]; intros a b c.
  - exists a, b, c; split; [reflexivity|cbn; lia].
  - cbn [map fold_left List.length].
    assert (Hone : exists a1 b1 c1,
               Analytics.countResult player1 player2 (a, b, c)
                 (Page.RpsGame
                    (RPS.resolve (Page.asGameSession session) player1 player2
                                 masterSeed now start gameIndex))
               = (a1, b1, c1)
               /\ a1 + b1 + c1 = a + b + c + 1).
    { unfold Analytics.countResult, Page.winnerOf, RPS.resolve, RPS.determineWinner.
      cbn [RPS.winner].
      destruct (RPS.sameMove _ _); [|destruct (RPS.sameMove _ _)];
        repeat match goal with
               | |- context [string_eqb ?x ?x] => rewrite (string_eqb_refl x)
               | |- context [if string_eqb ?x ?y then _ else _] =>
                   destruct (string_eqb x y)
               end;
        do 3 eexists; (split; [reflexivity|lia]). }
    destruct Hone as (a1 & b1 & c1 & -> & Hsum).
    destruct (IH a1 b1 c1) as (a' & b' & c' & -> & Hsum').
    exists a', b', c'; split; [reflexivity|lia].
Qed.

(** The dashboard sets the wins it counts against all the games played,
    yet it counts them on the stored results only: after a whole
    rock-paper-scissors session of [count] games the wins and the ties
    add up to the number of batches, [count] over five rounded up, while
    the games counted are [count]. *)
Theorem analytics_count_one_game_in_five (ticks : list Z) :
  0 < Page.count session ->
  Page.count session <= 5 * Z.of_nat (List.length ticks) ->
  Page.results session = [] ->
  let after :=
    Page.rpsRun player1 player2 masterSeed ticks session 0 [session] in
  let summary := Analytics.analytics player1 player2 (snd after) in
  Analytics.totalGames summary = Page.count session
  /\ Analytics.totalPossible summary = Page.count session
  /\ Analytics.player1TotalWins summary + Analytics.player2TotalWins summary
     + Analytics.totalTies summary
     = (Page.count session + 4) / 5.
Proof.
  intros Hcount Hticks Hfresh after summary.
  destruct (rpsRun_from ticks 0 [session] ltac:(lia)) as [_ Hsessions].
  fold after in Hsessions.
  unfold summary; clear summary.
  inversion Hsessions as [|s s' l l' Hfollows Hrest]; subst.
  inversion Hrest; subst. clear Hsessions Hrest.
  unfold Tally.follows in Hfollows. rewrite string_eqb_refl in Hfollows.
  destruct Hfollows
    as (_ & (_ & _ & Hn) & Hrunning & games & Hresults & Hlength & Hgames).
  destruct (Hrunning Hcount) as (Hc & _ & _).
  rewrite Hfresh in Hresults; cbn [app] in Hresults.
  unfold Analytics.analytics; cbn [fold_left].
  rewrite Hresults, Hc, Hn.
  destruct (countResult_rps games) with (a := 0) (b := 0) (c := 0)
    as (a' & b' & c' & -> & Hsum).
  { apply Forall_forall; intros game Hin.
    apply In_nth_error in Hin as [k Hk].
    destruct (Hgames k game Hk) as (now & start & ->).
    do 3 eexists; reflexivity. }
  cbn [Analytics.totalGames Analytics.totalPossible Analytics.player1TotalWins
       Analytics.player2TotalWins Analytics.totalTies].
  repeat split; try lia.
  rewrite Hsum, Hlength.
  replace (Z.max 0 (Page.count session - 0)) with (Page.count session) by lia.
  lia.
Qed.

End RPSRun.

Lemma rps_session_keeps_one_game_in_five_witness :
  let session :=
    {| Page.id := lit "s1"; Page.type := lit "rock-paper-scissors";
       Page.count := 7; Page.completed := 0; Page.results := [];
       Page.isRunning := true; Page.winner := None |} in
  fst (Page.rpsRun (lit "Alice") (lit "Bob") (lit "00ff1234") [0; 100] session 0
         [session])
  = 7.
Proof.
  intros session.
  apply (proj1 (rps_session_keeps_one_game_in_five
                  (lit "Alice") (lit "Bob") (lit "00ff1234") session [0; 100]
                  [session]
                  ltac:(unfold session; simpl; lia)
                  ltac:(unfold session; simpl; lia))).
Defined.

Lemma analytics_count_one_game_in_five_witness :
  let session :=
    {| Page.id := lit "s1"; Page.type := lit "rock-paper-scissors";
       Page.count := 7; Page.completed := 0; Page.results := [];
       Page.isRunning := true; Page.winner := None |} in
  let after :=
    Page.rpsRun (lit "Alice") (lit "Bob") (lit "00ff1234") [0; 100] session 0
                [session] in
  Analytics.totalGames (Analytics.analytics (lit "Alice") (lit "Bob") (snd after))
  = 7.
Proof.
  intros session after.
  apply (proj1 (analytics_count_one_game_in_five
                  (lit "Alice") (lit "Bob") (lit "00ff1234") session [0; 100]
                  ltac:(unfold session; simpl; lia)
                  ltac:(unfold session; simpl; lia)
                  ltac:(reflexivity))).
Defined.

(** ** The audit of a session with a long context *)

Section AuditContext.

Variable now : Z.
Variable masterSeed : jsstring.

(** The call of the engines and of the panel, for a context of 32 bytes
    or more. *)
Lemma derive_long_context (context : jsstring) (index index' : Z) :
  (32 <= List.length (utf8Encode context))%nat ->
  derive now masterSeed context index = derive now masterSeed context index'.
Proof.
  intros Hlong.
  unfold derive, deriveGameRandom, validate.
  destruct context as [|c rest]; [simpl in Hlong; lia|].
  cbn [truthy typeof typeTag_eqb negb orb asString asNumber isNaN].
  set (context := c :: rest) in *.
  set (s := asString _).
  destruct (seedBytesOf_returns s) as [seedBytes Hs].
  rewrite !(deriveTry_deriveFromBytes _ _ _ _ Hs).
  unfold Reference.deriveFromBytes.
  rewrite !utf8Encode_context.
  f_equal; f_equal.
  apply mix_context_prefix; rewrite ?length_app; try lia.
  rewrite !firstn_app.
  replace (Nat.min 32 (List.length seedBytes) - List.length (utf8Encode context))%nat
    with 0%nat by lia.
  reflexivity.
Qed.

(** The audit panel derives its samples from the context "{type}-{id}"
    and the position of the result.  When that context is 32 bytes long
    or longer, as it is for a rock-paper-scissors session with an
    identifier of twelve characters or more, all the samples of the
    session have one and the same value and fall in one bucket. *)
Theorem audit_long_context_one_bucket (session : Page.Session) :
  (32 <= List.length
           (utf8Encode (Page.type session ++ lit "-" ++ Page.id session)))%nat ->
  forall r1 r2,
    In r1 (Audit.samplesOf now masterSeed session) ->
    In r2 (Audit.samplesOf now masterSeed session) ->
    Audit.value r1 = Audit.value r2 /\ Audit.bucket r1 = Audit.bucket r2.
Proof.
  intros Hlong r1 r2 H1 H2.
  unfold Audit.samplesOf in H1, H2.
  apply in_map_iff in H1 as (i1 & <- & _).
  apply in_map_iff in H2 as (i2 & <- & _).
  cbn [Audit.value Audit.bucket].
  rewrite (derive_long_context _ (Z.of_nat i1) (Z.of_nat i2) Hlong).
  split; reflexivity.
Qed.

End AuditContext.

Lemma audit_long_context_one_bucket_witness :
  let session :=
    {| Page.id := lit "lq3k9x2a-4f7h2k"; Page.type := lit "rock-paper-scissors";
       Page.count := 50; Page.completed := 10;
       Page.results :=
         map (fun k =>
                Page.RpsGame
                  (RPS.resolve (Build_GameSession (lit "lq3k9x2a-4f7h2k") 50 0)
                               (lit "Alice") (lit "Bob") (lit "00ff1234") 0 0 k))
             [4; 9];
       Page.isRunning := true; Page.winner := None |} in
  let sample i :=
    nth i (Audit.samplesOf 0 (lit "00ff1234") session)
        {| Audit.index := 0; Audit.value := 0; Audit.bucket := 0 |} in
  Audit.value (sample 0%nat) = Audit.value (sample 1%nat)
  /\ Audit.bucket (sample 0%nat) = Audit.bucket (sample 1%nat).
Proof.
  intros session sample.
  apply (audit_long_context_one_bucket 0 (lit "00ff1234") session).
  - vm_compute; lia.
  - apply nth_In; vm_compute; lia.
  - apply nth_In; vm_compute; lia.
Defined.

(** ** The stream of operations *)

Section StreamOperations.

Context {Operation : Type}.

(** The stream shows the latest hundred operations, the newest first:
    after any calls of [addStreamOperation] it holds the operations of
    the calls in reverse order, followed by what it held before, cut
    after a hundred entries. *)
Theorem stream_keeps_latest_hundred (operations prev : list Operation) :
  operations <> [] ->
  Stream.addAll operations prev = firstn 100 (rev operations ++ prev)
  /\ (List.length (Stream.addAll operations prev) <= 100)%nat.
Proof.
  intros Hne.
  assert (Hall : Stream.addAll operations prev
                 = firstn 100 (rev operations ++ prev)).
  { unfold Stream.addAll.
    induction operations as [|operation earlier IH] using rev_ind;
      [contradiction|].
    rewrite fold_left_app, rev_app_distr. cbn [fold_left rev app].
    unfold Stream.addStreamOperation at 1.
    destruct earlier as [|first earlier'].
    - reflexivity.
    - rewrite IH by discriminate.
      rewrite firstn_firstn. reflexivity. }
  split; [exact Hall|].
  rewrite Hall. apply firstn_le_length.
Qed.

End StreamOperations.

Lemma stream_keeps_latest_hundred_witness :
  Stream.addAll [1; 2; 3] (repeat 0 100) = firstn 100 (rev [1; 2; 3] ++ repeat 0 100)
  /\ (List.length (Stream.addAll [1; 2; 3] (repeat 0 100)) <= 100)%nat.
Proof.
  apply (stream_keeps_latest_hundred [1; 2; 3] (repeat 0 100)).
  discriminate.
Defined.
